(** * NALH Helius MCP: upstream client and analytics layer

    A shallow embedding of the retrying JSON-RPC helpers ([rpc] of the
    metrics server, [rpcCall] of the plain proxy), of the REST helpers that
    are not retried ([heliusGET], [dasGET], [dasPOST]) and of the analytics
    built on them: reserve pricing, LP lock ratio, holder concentration,
    activity windows, VIP presence and the scoring function, then pool
    totals, LP providers, the trades of the day, revival, first buyers and
    token age.

    Conventions of the embedding.
    - A JavaScript number is an exact rational ([Q]); the rounding, overflow
      and NaN of IEEE doubles are outside the model.  Results are compared
      with [==].  What is proved of a number is either the formula the code
      computes it with, or a sign or an order that the rounding of doubles
      keeps; identities that hold only without rounding are not stated.
      Every division of the source is guarded by a truthiness or positivity
      test, which the model keeps; the one exception is the multiplier of
      [revivalDetector], whose quotient is a [Trades.jsnum] (finite,
      infinite or NaN).
    - A BigInt and an integer counter are [Z].
    - A string is the sequence of its UTF-8 bytes: two strings are equal when
      their bytes are, and white space is recognised on the encoded code
      points.  Addresses are base58, hence ASCII, and there the number of
      bytes is the length.
    - [undefined]/[null] members are [option]; [x || d] and [x ? a : b] follow
      JavaScript truthiness ([0] is falsy).
    - [await]ed upstream calls are read from an oracle (what the provider
      answers); a thrown [Error] is the [Err] branch of [result]. *)

From Stdlib Require Import PrimFloat.
From Stdlib Require Import List String Ascii Bool ZArith QArith Qabs Lia Lqa.
From Stdlib Require Import Sorted Permutation SetoidList Qpower.
Import ListNotations.

Local Open Scope Z_scope.

(** ** Errors and the error monad *)

Inductive error : Type :=
| Rejected (cause : string)
    (* fetch, limiter, abort timer or body parser rejected *)
| HttpFailure (method : string) (status : Z)
    (* `rpc ${method} http ${r.status}` / `RPC HTTP ${r.status}: ...` *)
| RpcFailure (method : string) (message : string)
    (* `rpc ${method} error: ${j.error.message}` / `RPC Error: ...` *)
| InvalidPubkey        (* "invalid pubkey/mint" *)
| PoolReservesZero     (* "pool reserves are zero" *)
| HeliusHttp (status : Z)
    (* `helius http ${r.status}` *)
| DasHttp (verb : string) (status : Z).
    (* `DAS GET ${r.status}: ...` / `DAS POST ${r.status}: ...` *)

Inductive result (A : Type) : Type :=
| Ok (a : A)
| Err (e : error).
Arguments Ok {A} a.
Arguments Err {A} e.

Definition bind {A B : Type} (m : result A) (k : A -> result B) : result B :=
  match m with
  | Ok a => k a
  | Err e => Err e
  end.

Notation "x <- m ;; k" := (bind m (fun x => k))
  (at level 61, m at next level, right associativity).

(** ** JavaScript truthiness on numbers *)

Definition truthy (x : Q) : bool := negb (Qeq_bool x 0).

(* x || d *)
Definition or_default (x : option Q) (d : Q) : Q :=
  match x with
  | Some v => if truthy v then v else d
  | None => d
  end.

(* a <= b, a >= b, a > b on numbers *)
Definition Qleb (a b : Q) : bool := Qle_bool a b.
Definition Qgeb (a b : Q) : bool := Qle_bool b a.
Definition Qgtb (a b : Q) : bool := negb (Qle_bool a b).

(** ** Sums of numbers *)

Fixpoint qsum (l : list Q) : Q :=
  match l with
  | [] => 0%Q
  | x :: l' => (x + qsum l')%Q
  end.

(** ** UpstreamClient: the retry loops *)

Module Upstream.

(* What one dispatched request comes back with. *)
Inductive body (A : Type) : Type :=
| Unparsable                 (* the text is not JSON *)
| Envelope (err : option string) (res : option A).
    (* { error?: {message}, result?: ... } *)
Arguments Unparsable {A}.
Arguments Envelope {A} err res.

Inductive fetched (A : Type) : Type :=
| FetchRejected (cause : string)           (* network failure or abort by the timer *)
| FetchResolved (ok : bool) (status : Z) (b : body A).
Arguments FetchRejected {A} cause.
Arguments FetchResolved {A} ok status b.

Inductive event : Type :=
| Attempt (n : Z)     (* a request dispatched, with the loop counter *)
| Sleep (ms : Z).     (* setTimeout(res, ms) awaited between attempts *)

(* How a call ends: `return v` (v may be undefined) or `throw e`. *)
Inductive completion (A : Type) : Type :=
| Returned (v : option A)
| Threw (e : error).
Arguments Returned {A} v.
Arguments Threw {A} e.

Section Client.
Context {A : Type}.
Variable RPC_MAX_RETRIES : Z.
Variable method : string.
(* The answer the provider gives to the request dispatched when the loop
   counter is [i]. *)
Variable upstream : Z -> fetched A.

(* The try block of [rpc]: fetch, r.ok, r.json(), j.error, j.result. *)
Definition rpc_attempt (f : fetched A) : result (option A) :=
  match f with
  | FetchRejected c => Err (Rejected c)
  | FetchResolved false st _ => Err (HttpFailure method st)
  | FetchResolved true _ Unparsable => Err (Rejected "invalid json")
  | FetchResolved true _ (Envelope (Some m) _) => Err (RpcFailure method m)
  | FetchResolved true _ (Envelope None r) => Ok r
  end.

(* for (let i = 0; i <= RPC_MAX_RETRIES; i++) { try {...} catch (e) {...} } *)
Fixpoint rpc_loop (fuel : nat) (i : Z) : option (list event * completion A) :=
  match fuel with
  | O => None
  | S fuel' =>
    if i <=? RPC_MAX_RETRIES then
      match rpc_attempt (upstream i) with
      | Ok v => Some ([Attempt i], Returned v)
      | Err e =>
        if i =? RPC_MAX_RETRIES then Some ([Attempt i], Threw e)
        else
          match rpc_loop fuel' (i + 1) with
          | Some (tr, c) => Some (Attempt i :: Sleep (250 * (i + 1)) :: tr, c)
          | None => None
          end
      end
    else Some ([], Returned None)
  end.

Definition rpc (fuel : nat) : option (list event * completion A) :=
  rpc_loop fuel 0.

(* The try block of [rpcCall]: the body is read as text and parsed
   leniently (`data = text` when it is not JSON). *)
Definition rpcCall_attempt (f : fetched A) : result (option A) :=
  match f with
  | FetchRejected c => Err (Rejected c)
  | FetchResolved false st _ => Err (HttpFailure "" st)
  | FetchResolved true _ Unparsable => Ok None
  | FetchResolved true _ (Envelope (Some m) _) => Err (RpcFailure "" m)
  | FetchResolved true _ (Envelope None r) => Ok r
  end.

(* let attempt = 0; while (true) { try {...} catch (e) { attempt += 1; ... } } *)
Fixpoint rpcCall_loop (fuel : nat) (attempt : Z)
  : option (list event * completion A) :=
  match fuel with
  | O => None
  | S fuel' =>
    match rpcCall_attempt (upstream attempt) with
    | Ok v => Some ([Attempt attempt], Returned v)
    | Err e =>
      let attempt' := attempt + 1 in
      if attempt' >? RPC_MAX_RETRIES then Some ([Attempt attempt], Threw e)
      else
        match rpcCall_loop fuel' attempt' with
        | Some (tr, c) =>
          Some (Attempt attempt :: Sleep (Z.min (250 * attempt') 1500) :: tr, c)
        | None => None
        end
    end
  end.

Definition rpcCall (fuel : nat) : option (list event * completion A) :=
  rpcCall_loop fuel 0.

(* The REST helpers have no loop and no catch: one request is dispatched and
   its failure is thrown as it is.  The value returned is the parsed body. *)

(* async function heliusGET(url) { const r = await limiter.schedule(() => fetch(url));
     if (!r.ok) throw new Error(`helius http ${r.status}`); return r.json(); } *)
Definition heliusGET_attempt (f : fetched A) : result (body A) :=
  match f with
  | FetchRejected c => Err (Rejected c)
  | FetchResolved false st _ => Err (HeliusHttp st)
  | FetchResolved true _ Unparsable => Err (Rejected "invalid json")
  | FetchResolved true _ b => Ok b
  end.

(* dasGET / dasPOST: the body is read as text and parsed leniently
   (`data = text`), then `if (!r.ok) throw new Error(`DAS <verb> ${r.status}: ...`)`. *)
Definition das_attempt (verb : string) (f : fetched A) : result (body A) :=
  match f with
  | FetchRejected c => Err (Rejected c)
  | FetchResolved false st _ => Err (DasHttp verb st)
  | FetchResolved true _ b => Ok b
  end.

Definition once (r : result (body A)) : list event * completion (body A) :=
  ([Attempt 0], match r with Ok b => Returned (Some b) | Err e => Threw e end).

Definition heliusGET : list event * completion (body A) :=
  once (heliusGET_attempt (upstream 0)).

Definition dasGET : list event * completion (body A) :=
  once (das_attempt "GET" (upstream 0)).

Definition dasPOST : list event * completion (body A) :=
  once (das_attempt "POST" (upstream 0)).
End Client.

Definition attempts (tr : list event) : Z :=
  Z.of_nat (List.length (filter (fun ev => match ev with Attempt _ => true | _ => false end) tr)).

Fixpoint delays (tr : list event) : list Z :=
  match tr with
  | [] => []
  | Sleep ms :: tr' => ms :: delays tr'
  | Attempt _ :: tr' => delays tr'
  end.

(* every delay of the list is at least [b] *)
Definition floor_of (b : Z) (l : list Z) : Prop := Forall (fun d => b <= d) l.

End Upstream.

(** ** Chain state as the provider reports it *)

Module Chain.

(* `r.value` of getTokenSupply / getTokenAccountBalance. *)
Record token_amount : Type := { raw_amount : Z; raw_decimals : Z }.

(* `r.value.data.parsed.info` of getAccountInfo (jsonParsed). *)
Record parsed_info : Type := { info_mint : option string }.

(* `row.account.data.parsed.info` of a getProgramAccounts row. *)
Record holder_info : Type := {
  owner : string;
  uiAmount : option Q       (* info.tokenAmount?.uiAmount *)
}.

(* One leg of `it.tokenTransfers`. *)
Record transfer : Type := {
  t_mint : option string;
  tokenAmount : option Q;
  fromUserAccount : option string;
  toUserAccount : option string
}.

(* One record of the parsed address history. *)
Record tx : Type := {
  blockTime : option Z;
  tokenTransfers : option (list transfer)
}.

(* The answers of the provider, after the retries of [rpc]. *)
Record provider : Type := {
  rpc_getTokenAccountBalance : string -> result token_amount;
  rpc_getTokenSupply : string -> result token_amount;
  rpc_getAccountInfo : string -> result (option parsed_info);
  (* program id, mint; [None] when the answer is not an array *)
  rpc_getProgramAccounts : string -> string -> result (option (list (option holder_info)));
  (* heliusGET of the address history URL *)
  heliusGET_history : string -> result (list tx)
}.

Definition USDC_MINT : string := "EPjFWdd5AufqSSqeM2qN1xzybapC8G4wEGGkZwyTDt1v".
Definition TOKEN_PROGRAM : string := "TokenkegQfeZyiNwAJbNbGKPFXCWuBvf9Ss623VQ5DA".
Definition TOKEN_2022_PROGRAM : string := "TokenzQdBNbLqPSEvdnKAS6EPFCLPiNnBhqCxEPcXfwE".

Record balance : Type := { amount : Z; decimals : Z; ui : Q }.

(* function assertPubkey(x) { if (!x || typeof x !== "string" || x.length < 32) throw ... } *)
Definition assertPubkey (x : string) : result unit :=
  if (Z.of_nat (String.length x) <? 32) then Err InvalidPubkey else Ok tt.

(* function uiFromRaw(amountBN, dec) { return Number(amountBN) / 10 ** dec; }
   The quotient is exact here; the source rounds it to a double (and rounds
   Number(amountBN) itself above 2^53), so only what survives rounding (sign,
   order, the formulas themselves) is stated about it. *)
Definition uiFromRaw (amountBN : Z) (dec : Z) : Q :=
  (inject_Z amountBN / (inject_Z 10) ^ dec)%Q.

Definition to_balance (v : token_amount) : balance :=
  {| amount := raw_amount v; decimals := raw_decimals v;
     ui := uiFromRaw (raw_amount v) (raw_decimals v) |}.

Section Primitives.
Variable P : provider.

Definition getAccountInfoParsed (pubkey : string) : result (option parsed_info) :=
  rpc_getAccountInfo P pubkey.

Definition getMintSupply (mint : string) : result balance :=
  _ <- assertPubkey mint ;;
  v <- rpc_getTokenSupply P mint ;;
  Ok (to_balance v).

Definition getTokenAccountBalance (ta : string) : result balance :=
  v <- rpc_getTokenAccountBalance P ta ;;
  Ok (to_balance v).

(* return Array.isArray(r) ? r : []; *)
Definition getProgramAccountsByMint (mint programId : string)
  : result (list (option holder_info)) :=
  r <- rpc_getProgramAccounts P programId mint ;;
  Ok (match r with Some rows => rows | None => [] end).
End Primitives.

End Chain.

(** ** ReserveOracle *)

Module ReserveOracle.
Import Chain.

Record reserves : Type := {
  usdc : balance;
  tok : balance;
  tokMint : option string;
  usdcMint : option string
}.

(* mint === USDC_MINT *)
Definition is_usdc (m : option string) : bool :=
  match m with
  | Some s => String.eqb s USDC_MINT
  | None => false
  end.

(* truthiness of a possibly undefined string *)
Definition str_truthy (m : option string) : bool :=
  match m with
  | Some s => negb (String.eqb s "")
  | None => false
  end.

(* The body of poolReserves once the four reads have resolved. *)
Definition classify (ax ay : balance) (mintX mintY : option string) : reserves :=
  let r0 := {| usdc := ax; tok := ay; tokMint := mintY; usdcMint := mintX |} in
  let r1 := if is_usdc mintY
            then {| usdc := ay; tok := ax; tokMint := mintX; usdcMint := mintY |}
            else r0 in
  let r2 := if is_usdc mintX
            then {| usdc := ax; tok := ay; tokMint := mintY; usdcMint := mintX |}
            else r1 in
  (* Fallback heuristic by decimals *)
  if negb (str_truthy (usdcMint r2)) && (decimals ay =? 6) && negb (decimals ax =? 6)
  then {| usdc := ay; tok := ax; tokMint := tokMint r2; usdcMint := usdcMint r2 |}
  else r2.

Definition mint_of (i : option parsed_info) : option string :=
  match i with
  | Some info => info_mint info
  | None => None
  end.

Record price_fdv : Type := {
  price_usd : Q;
  fdv_usd : Q;
  total_supply : Q;
  pool_usdc : Q;
  pool_token : Q
}.

Section Oracle.
Variable P : provider.

(* The two Promise.all of poolReserves read independent accounts; the model
   takes the reads in the order of the arrays. *)

Definition poolReserves (reserveX reserveY : string) : result reserves :=
  ax <- getTokenAccountBalance P reserveX ;;
  ay <- getTokenAccountBalance P reserveY ;;
  ix <- getAccountInfoParsed P reserveX ;;
  iy <- getAccountInfoParsed P reserveY ;;
  Ok (classify ax ay (mint_of ix) (mint_of iy)).

Definition priceAndFDVFromReserves (tokenMint reserveX reserveY : string)
  : result price_fdv :=
  r <- poolReserves reserveX reserveY ;;
  if Qleb (ui (tok r)) 0 || Qleb (ui (usdc r)) 0 then Err PoolReservesZero
  else
    let price := (ui (usdc r) / ui (tok r))%Q in
    supply <- getMintSupply P tokenMint ;;
    Ok {| price_usd := price;
          fdv_usd := (price * ui supply)%Q;
          total_supply := ui supply;
          pool_usdc := ui (usdc r);
          pool_token := ui (tok r) |}.
End Oracle.

End ReserveOracle.

(** ** LiquidityAnalyzer and HolderAnalyzer *)

Module Holders.
Import Chain.

(* array.includes(s) *)
Definition includes (l : list string) (s : string) : bool :=
  existsb (String.eqb s) l.

(* Number(info.tokenAmount?.uiAmount || 0) *)
Definition ui_of (info : holder_info) : Q := or_default (uiAmount info) 0.

Record lp_locked : Type := {
  lp_total_supply : Q;
  locked_ui : Q;
  locked_pct : Q
}.

(* One turn of the loop of lpLockedPercent over [...v1, ...v2]. *)
Definition locked_step (lockerOwners : list string) (locked : Q)
  (row : option holder_info) : Q :=
  match row with
  | None => locked
  | Some info =>
    if includes lockerOwners (owner info) then (locked + ui_of info)%Q else locked
  end.

Record item : Type := { it_owner : string; it_ui : Q }.

Record ranked : Type := {
  rank : Z;
  r_owner : string;
  r_amount : Q;
  pct_of_supply : Q
}.

Record top_holders : Type := {
  supply : Q;
  total_accounts : Z;
  top : list ranked;
  concentration_top1_pct : Q;
  concentration_top10_pct : Q
}.

(* One turn of the loop of topHolders: `if (ui > 0) items.push({owner, ui})`. *)
Definition items_step (items : list item) (row : option holder_info) : list item :=
  match row with
  | None => items
  | Some info =>
    if Qgtb (ui_of info) 0
    then items ++ [{| it_owner := owner info; it_ui := ui_of info |}]
    else items
  end.

(* items.sort((a,b) => b.ui - a.ui): stable, descending by ui. *)
Fixpoint insert_desc (x : item) (l : list item) : list item :=
  match l with
  | [] => [x]
  | y :: l' => if Qgtb (it_ui y) (it_ui x) then y :: insert_desc x l' else x :: l
  end.

Definition sort_desc (l : list item) : list item :=
  fold_right insert_desc [] l.

(* .map((x,i) => ({ rank: i+1, owner, amount, pct_of_supply: sup.ui ? (x.ui/sup.ui)*100 : 0 }))
   The shares are exact here and rounded in the source: what is stated about
   them is what rounding keeps (sign, order, a share of at most 100 for an
   amount of at most the supply), not the exact total of the shares. *)
Fixpoint rank_from (sup_ui : Q) (i : Z) (l : list item) : list ranked :=
  match l with
  | [] => []
  | x :: l' =>
    {| rank := i + 1; r_owner := it_owner x; r_amount := it_ui x;
       pct_of_supply := if truthy sup_ui then (it_ui x / sup_ui * inject_Z 100)%Q else 0%Q |}
    :: rank_from sup_ui (i + 1) l'
  end.

Section Analyzers.
Variable P : provider.

(* Both analyzers start their three reads with Promise.all, which rejects
   with the first rejection to settle.  [assertPubkey] inside getMintSupply
   throws before anything is awaited, so its rejection comes first whatever
   the two listings answer; among reads that fail upstream the order of
   settling is a matter of timing, and the model takes them in the order of
   the array. *)

Definition lpLockedPercent (lpMint : string) (lockerOwners : list string)
  : result lp_locked :=
  _ <- assertPubkey lpMint ;;
  v1 <- getProgramAccountsByMint P lpMint TOKEN_PROGRAM ;;
  v2 <- getProgramAccountsByMint P lpMint TOKEN_2022_PROGRAM ;;
  sup <- getMintSupply P lpMint ;;
  let locked := fold_left (locked_step lockerOwners) (v1 ++ v2) 0%Q in
  Ok {| lp_total_supply := ui sup;
        locked_ui := locked;
        locked_pct := if truthy (ui sup) then (locked / ui sup * inject_Z 100)%Q else 0%Q |}.

Definition topHolders (mint : string) (limit : nat) : result top_holders :=
  _ <- assertPubkey mint ;;
  v1 <- getProgramAccountsByMint P mint TOKEN_PROGRAM ;;
  v2 <- getProgramAccountsByMint P mint TOKEN_2022_PROGRAM ;;
  sup <- getMintSupply P mint ;;
  let items := fold_left items_step (v1 ++ v2) [] in
  let sorted := sort_desc items in
  let top := rank_from (ui sup) 0 (firstn limit sorted) in
  (* top[0]?.pct_of_supply || 0 *)
  let top1 := or_default (option_map pct_of_supply (hd_error top)) 0 in
  let top10 := fold_left (fun s x => (s + pct_of_supply x)%Q) (firstn 10 top) 0%Q in
  Ok {| supply := ui sup;
        total_accounts := Z.of_nat (List.length items);
        top := top;
        concentration_top1_pct := top1;
        concentration_top10_pct := top10 |}.
End Analyzers.

(** The sums as the specification words them. *)

Definition present (rows : list (option holder_info)) : list holder_info :=
  flat_map (fun row => match row with Some i => [i] | None => [] end) rows.

(* the ui balances held by the locker owners *)
Definition locker_sum (lockerOwners : list string) (rows : list (option holder_info)) : Q :=
  qsum (map ui_of (filter (fun i => includes lockerOwners (owner i)) (present rows))).

(* The reduce of concentration_top10_pct in the binary64 arithmetic the code
   runs in, for shares given as doubles; it shows what the exact sums leave
   out. *)
Definition top10_binary64 (sup_ui : PrimFloat.float) (uis : list PrimFloat.float)
  : PrimFloat.float :=
  fold_left (fun s x => PrimFloat.add s (PrimFloat.mul (PrimFloat.div x sup_ui) 100%float))
    uis 0%float.

Definition concentration_bounded (o : top_holders) : Prop :=
  (0 <= concentration_top1_pct o)%Q
  /\ (concentration_top1_pct o <= concentration_top10_pct o)%Q
  /\ (concentration_top10_pct o <= 100)%Q
  /\ Forall (fun e => (0 <= pct_of_supply e)%Q /\ (pct_of_supply e <= 100)%Q) (top o).

End Holders.

(** ** JavaScript objects keyed by numbers, and Maps keyed by strings *)

Module Obj.
Section Obj.
Context {V : Type}.

(* `o[k]`: a number key names the same property as any equal number. *)
Fixpoint get (k : Q) (o : list (Q * V)) : option V :=
  match o with
  | [] => None
  | (k', v) :: o' => if Qeq_bool k k' then Some v else get k o'
  end.

(* `o[k] = v` *)
Fixpoint set (k : Q) (v : V) (o : list (Q * V)) : list (Q * V) :=
  match o with
  | [] => [(k, v)]
  | (k', v') :: o' => if Qeq_bool k k' then (k', v) :: o' else (k', v') :: set k v o'
  end.

(* `o[k].field = ...` on a property that exists (the loops below only
   touch the keys they created). *)
Definition update (k : Q) (f : V -> V) (o : list (Q * V)) : list (Q * V) :=
  match get k o with
  | Some v => set k (f v) o
  | None => o
  end.
End Obj.
End Obj.

Module SMap.
Section SMap.
Context {V : Type}.

Fixpoint get (k : string) (m : list (string * V)) : option V :=
  match m with
  | [] => None
  | (k', v) :: m' => if String.eqb k k' then Some v else get k m'
  end.

(* Map.prototype.set keeps the position of an existing key. *)
Fixpoint set (k : string) (v : V) (m : list (string * V)) : list (string * V) :=
  match m with
  | [] => [(k, v)]
  | (k', v') :: m' => if String.eqb k k' then (k', v) :: m' else (k', v') :: set k v m'
  end.
End SMap.
End SMap.

(** ** ActivityAggregator *)

Module Activity.
Import Chain.

Record cell : Type := { tx_count : Z; volume_usdc : Q; unique_actors : Z }.

Definition results_t : Type := list (Q * cell).
Definition actor_sets_t : Type := list (Q * list string).

(* Set.prototype.add *)
Definition set_add (s : string) (l : list string) : list string :=
  if Holders.includes l s then l else l ++ [s].

Definition add_tx (c : cell) : cell :=
  {| tx_count := tx_count c + 1; volume_usdc := volume_usdc c;
     unique_actors := unique_actors c |}.

Definition add_volume (v : Q) (c : cell) : cell :=
  {| tx_count := tx_count c; volume_usdc := (volume_usdc c + v)%Q;
     unique_actors := unique_actors c |}.

Definition set_actors (n : Z) (c : cell) : cell :=
  {| tx_count := tx_count c; volume_usdc := volume_usdc c; unique_actors := n |}.

Definition add_actor (w : Q) (a : option string) (sets : actor_sets_t) : actor_sets_t :=
  match a with
  | Some s => if String.eqb s "" then sets else Obj.update w (set_add s) sets
  | None => sets
  end.

(* Math.abs(Number(t.tokenAmount||0)) *)
Definition leg_amount (t : transfer) : Q := Qabs (or_default (tokenAmount t) 0).

(* for (const t of (it.tokenTransfers || [])) { ... } inside window w *)
Definition leg_step (w : Q) (st : results_t * actor_sets_t) (t : transfer)
  : results_t * actor_sets_t :=
  let results :=
    if ReserveOracle.is_usdc (t_mint t)
    then Obj.update w (add_volume (leg_amount t)) (fst st)
    else fst st in
  let sets := add_actor w (fromUserAccount t) (snd st) in
  let sets := add_actor w (toUserAccount t) sets in
  (results, sets).

Definition legs (it : tx) : list transfer :=
  match tokenTransfers it with
  | Some l => l
  | None => []
  end.

(* for (const w of windowsMinutes) { if (dtMin <= w) { ... } } *)
Definition window_step (dtMin : Q) (it : tx) (st : results_t * actor_sets_t) (w : Q)
  : results_t * actor_sets_t :=
  if Qleb dtMin w
  then fold_left (leg_step w) (legs it) (Obj.update w add_tx (fst st), snd st)
  else st.

(* for (const it of arr) { const ts = it.blockTime || 0; if (!ts) continue; ... } *)
Definition tx_step (now : Z) (windowsMinutes : list Q)
  (st : results_t * actor_sets_t) (it : tx) : results_t * actor_sets_t :=
  match blockTime it with
  | None => st
  | Some ts =>
    if ts =? 0 then st
    else
      let dtMin := (inject_Z (now - ts) / inject_Z 60)%Q in
      fold_left (window_step dtMin it) windowsMinutes st
  end.

Definition init_results (windowsMinutes : list Q) : results_t :=
  fold_left
    (fun r w => Obj.set w {| tx_count := 0; volume_usdc := 0%Q; unique_actors := 0 |} r)
    windowsMinutes [].

(* Object.fromEntries(windowsMinutes.map(w => [w, new Set()])) *)
Definition init_sets (windowsMinutes : list Q) : actor_sets_t :=
  fold_left (fun r w => Obj.set w [] r) windowsMinutes [].

(* for (const w of windowsMinutes) results[w].unique_actors = actorSets[w].size; *)
Definition finish (windowsMinutes : list Q) (st : results_t * actor_sets_t) : results_t :=
  fold_left
    (fun r w =>
       match Obj.get w (snd st) with
       | Some s => Obj.update w (set_actors (Z.of_nat (List.length s))) r
       | None => r
       end)
    windowsMinutes (fst st).

Section Aggregator.
Variable P : provider.
(* Math.floor(Date.now()/1000) at the call *)
Variable now : Z.

Fixpoint scan_windows (windowsMinutes : list Q) (addresses : list string)
  (st : results_t * actor_sets_t) : result (results_t * actor_sets_t) :=
  match addresses with
  | [] => Ok st
  | addr :: rest =>
    arr <- heliusGET_history P addr ;;
    scan_windows windowsMinutes rest (fold_left (tx_step now windowsMinutes) arr st)
  end.

Definition activityWindows (addresses : list string) (windowsMinutes : list Q)
  : result results_t :=
  st <- scan_windows windowsMinutes addresses
          (init_results windowsMinutes, init_sets windowsMinutes) ;;
  Ok (finish windowsMinutes st).
End Aggregator.

(** What the window loop does to the cell of one counted transaction: one
    more transaction, and the USDC legs added to the volume. *)
Definition volume_step (c : cell) (t : transfer) : cell :=
  if ReserveOracle.is_usdc (t_mint t) then add_volume (leg_amount t) c else c.

Definition bump (it : tx) (c : cell) : cell :=
  fold_left volume_step (legs it) (add_tx c).

(* the USDC volume of one transaction *)
Definition usdc_volume (it : tx) : Q :=
  qsum (map leg_amount (filter (fun t => ReserveOracle.is_usdc (t_mint t)) (legs it))).

(* `ts` is set and `dtMin <= w` *)
Definition counted (now : Z) (it : tx) (w : Q) : bool :=
  match blockTime it with
  | Some ts => negb (ts =? 0) && Qleb (inject_Z (now - ts) / inject_Z 60)%Q w
  | None => false
  end.

(* a number key that some element of the list equals *)
Definition has_key (k : Q) (ws : list Q) : bool := existsb (Qeq_bool k) ws.

(* The cells of the configured windows grow with the window length. *)
Definition nested (ws : list Q) (r : results_t) : Prop :=
  forall a b ca cb,
    has_key a ws = true -> has_key b ws = true -> (a <= b)%Q ->
    Obj.get a r = Some ca -> Obj.get b r = Some cb ->
    tx_count ca <= tx_count cb /\ (volume_usdc ca <= volume_usdc cb)%Q.

(* Every configured window has its cell. *)
Definition filled (ws : list Q) (r : results_t) : Prop :=
  forall k, has_key k ws = true -> Obj.get k r <> None.

(** *** vipWalletsPresence *)

(* String.prototype.trim strips the WhiteSpace and LineTerminator code
   points: U+0009..U+000D, U+0020, U+00A0, U+1680, U+2000..U+200A, U+2028,
   U+2029, U+202F, U+205F, U+3000 and U+FEFF.  A string is held as its UTF-8
   bytes, so such a code point is one, two or three bytes. *)

(* U+0009..U+000D and U+0020 *)
Definition is_ws (c : ascii) : bool :=
  let n := nat_of_ascii c in
  (Nat.eqb n 32 || (Nat.leb 9 n && Nat.leb n 13))%bool.

(* U+00A0 is C2 A0 *)
Definition is_ws2 (c1 c2 : ascii) : bool :=
  (Nat.eqb (nat_of_ascii c1) 194 && Nat.eqb (nat_of_ascii c2) 160)%bool.

Definition is_ws3 (c1 c2 c3 : ascii) : bool :=
  let n1 := nat_of_ascii c1 in
  let n2 := nat_of_ascii c2 in
  let n3 := nat_of_ascii c3 in
  ((Nat.eqb n1 225 && Nat.eqb n2 154 && Nat.eqb n3 128)       (* U+1680: E1 9A 80 *)
   || (Nat.eqb n1 226 && Nat.eqb n2 128
       && ((Nat.leb 128 n3 && Nat.leb n3 138)                  (* U+2000..U+200A: E2 80 80..8A *)
           || Nat.eqb n3 168 || Nat.eqb n3 169                 (* U+2028, U+2029: E2 80 A8, A9 *)
           || Nat.eqb n3 175))                                 (* U+202F: E2 80 AF *)
   || (Nat.eqb n1 226 && Nat.eqb n2 129 && Nat.eqb n3 159)    (* U+205F: E2 81 9F *)
   || (Nat.eqb n1 227 && Nat.eqb n2 128 && Nat.eqb n3 128)    (* U+3000: E3 80 80 *)
   || (Nat.eqb n1 239 && Nat.eqb n2 187 && Nat.eqb n3 191))%bool.  (* U+FEFF: EF BB BF *)

(* Strip the code points recognised by [p1], [p2], [p3] from the front. *)
Fixpoint drop_by (p1 : ascii -> bool) (p2 : ascii -> ascii -> bool)
  (p3 : ascii -> ascii -> ascii -> bool) (l : list ascii) : list ascii :=
  match l with
  | [] => []
  | c1 :: l1 =>
    if p1 c1 then drop_by p1 p2 p3 l1
    else
      match l1 with
      | [] => l
      | c2 :: l2 =>
        if p2 c1 c2 then drop_by p1 p2 p3 l2
        else
          match l2 with
          | [] => l
          | c3 :: l3 => if p3 c1 c2 c3 then drop_by p1 p2 p3 l3 else l
          end
      end
  end.

(* leading white space *)
Definition drop_ws (l : list ascii) : list ascii := drop_by is_ws is_ws2 is_ws3 l.

(* trailing white space, on the reversed bytes *)
Definition drop_ws_rev (l : list ascii) : list ascii :=
  drop_by is_ws (fun c2 c1 => is_ws2 c1 c2) (fun c3 c2 c1 => is_ws3 c1 c2 c3) l.

(* String.prototype.trim *)
Definition trim (s : string) : string :=
  string_of_list_ascii (rev (drop_ws_rev (rev (drop_ws (list_ascii_of_string s))))).

(* new Set(vipAddresses.map(s => s.trim()).filter(Boolean)) *)
Definition vip_set (vipAddresses : list string) : list string :=
  filter (fun s => negb (String.eqb s "")) (map trim vipAddresses).

Definition str_or_empty (a : option string) : string :=
  match a with
  | Some s => s
  | None => ""
  end.

(* the body of the loop over the transfer legs *)
Definition vip_leg_step (vip : list string) (hits : list (string * Z)) (t : transfer)
  : list (string * Z) :=
  let a := str_or_empty (fromUserAccount t) in
  let b := str_or_empty (toUserAccount t) in
  if Holders.includes vip a || Holders.includes vip b then
    let hit := if Holders.includes vip a then a else b in
    let prev := match SMap.get hit hits with Some n => n | None => 0 end in
    SMap.set hit (prev + 1) hits
  else hits.

(* if ((it.blockTime||0) < since) continue; *)
Definition vip_tx_step (since : Z) (vip : list string) (hits : list (string * Z)) (it : tx)
  : list (string * Z) :=
  let bt := match blockTime it with Some ts => ts | None => 0 end in
  if bt <? since then hits else fold_left (vip_leg_step vip) (legs it) hits.

Record vip_presence : Type := {
  vip_count : Z;
  vip_hits : list (string * Z)      (* [{address, count}] in insertion order *)
}.

Section Vip.
Variable P : provider.
Variable now : Z.

Fixpoint scan_vip (since : Z) (vip : list string) (addresses : list string)
  (hits : list (string * Z)) : result (list (string * Z)) :=
  match addresses with
  | [] => Ok hits
  | addr :: rest =>
    arr <- heliusGET_history P addr ;;
    scan_vip since vip rest (fold_left (vip_tx_step since vip) arr hits)
  end.

Definition vipWalletsPresence (vipAddresses addressesToScan : list string)
  : result vip_presence :=
  let since := now - 86400 in
  let vip := vip_set vipAddresses in
  hits <- scan_vip since vip addressesToScan [] ;;
  Ok {| vip_count := Z.of_nat (List.length hits); vip_hits := hits |}.
End Vip.

(* The count reported for an address (absent from the list: never hit). *)
Definition hit_count (r : vip_presence) (address : string) : Z :=
  match SMap.get address (vip_hits r) with
  | Some n => n
  | None => 0
  end.

End Activity.

(** ** FDV / market-cap helper *)

Module Metrics.

Record fdv_mcap : Type := {
  fdv_usd : Q;
  marketcap_usd : Q;
  fdv_to_mcap : option Q        (* null when the market cap is falsy *)
}.

(* function fdvToMcap(price, totalSupply, circulatingSupply = null)
   The products and the quotient are exact here and rounded in the source:
   what is stated of them is the guard, their formulas and their order, not
   a cancellation of the price. *)
Definition fdvToMcap (price totalSupply : Q) (circulatingSupply : option Q) : fdv_mcap :=
  let fdv := (price * totalSupply)%Q in
  (* circulatingSupply ?? totalSupply *)
  let mc := (price * match circulatingSupply with Some c => c | None => totalSupply end)%Q in
  {| fdv_usd := fdv;
     marketcap_usd := mc;
     fdv_to_mcap := if truthy mc then Some (fdv / mc)%Q else None |}.

End Metrics.

(** ** RiskScorer *)

Module Scorer.

Record weights : Type := {
  w_lpCount : Q; w_lpLocked : Q; w_holdersDist : Q; w_activity : Q;
  w_vip : Q; w_revival : Q; w_age : Q; w_fdvToMc : Q
}.

Record inputs : Type := {
  lpProviders : Q; lpProvidersMin : Q;
  lpLockedPct : Q; lpLockedMinPct : Q;
  concentrationTop1Pct : Q; maxTop1Pct : Q;
  concentrationTop10Pct : Q; maxTop10Pct : Q;
  traders24h : option Q;         (* inputs.activity24h?.traders *)
  minTraders24h : option Q;
  vipHits : option Q;
  revivalActive : bool;
  tokenAgeDays : Q;
  maxAgeDays : option Q;
  fdvToMc : option Q;            (* nullable, optional *)
  weights_opt : option weights   (* inputs.weights *)
}.

Definition default_weights : weights :=
  {| w_lpCount := 2; w_lpLocked := 2; w_holdersDist := 2; w_activity := 1;
     w_vip := 1; w_revival := 1; w_age := 1; w_fdvToMc := 1 |}.

Record score_result : Type := { score : Q; reasons : list string }.

(* `score += p` and `reasons.push(r)` *)
Definition award (p : Q) (s : score_result) : score_result :=
  {| score := (score s + p)%Q; reasons := reasons s |}.
Definition blame (r : string) (s : score_result) : score_result :=
  {| score := score s; reasons := reasons s ++ [r] |}.

(* The guards of the nine `if`s, in source order. *)
Definition lpCount_ok (i : inputs) : bool := Qgeb (lpProviders i) (lpProvidersMin i).
Definition lpLocked_ok (i : inputs) : bool := Qgeb (lpLockedPct i) (lpLockedMinPct i).
Definition top1_ok (i : inputs) : bool := Qleb (concentrationTop1Pct i) (maxTop1Pct i).
Definition top10_ok (i : inputs) : bool := Qleb (concentrationTop10Pct i) (maxTop10Pct i).
Definition traders_ok (i : inputs) : bool :=
  Qgeb (or_default (traders24h i) 0) (or_default (minTraders24h i) 0).
Definition vip_ok (i : inputs) : bool := Qgtb (or_default (vipHits i) 0) 0.
Definition revival_ok (i : inputs) : bool := revivalActive i.
Definition age_ok (i : inputs) : bool :=
  Qleb (tokenAgeDays i) (or_default (maxAgeDays i) (1 # 4)).
Definition fdvToMc_ok (i : inputs) : bool :=
  Qgeb (or_default (fdvToMc i) 1) (9 # 10) && Qleb (or_default (fdvToMc i) 1) (11 # 10).

(* inputs.weights || { lpCount:2, ... } *)
Definition weights_of (i : inputs) : weights :=
  match weights_opt i with
  | Some w => w
  | None => default_weights
  end.

(* if (c) { score += p; } else reasons.push(r); *)
Definition threshold (c : bool) (p : Q) (r : string) (s : score_result) : score_result :=
  if c then award p s else blame r s.

(* if (c) score += p; *)
Definition bonus (c : bool) (p : Q) (s : score_result) : score_result :=
  if c then award p s else s.

Definition scoreToken (i : inputs) : score_result :=
  let w := weights_of i in
  let s := {| score := 0; reasons := [] |} in
  let s := threshold (lpCount_ok i) (10 * w_lpCount w) "LP providers below threshold" s in
  let s := threshold (lpLocked_ok i) (8 * w_lpLocked w) "LP locked pct low" s in
  let s := threshold (top1_ok i) (6 * w_holdersDist w) "Top1 concentration high" s in
  let s := threshold (top10_ok i) (6 * w_holdersDist w) "Top10 concentration high" s in
  let s := threshold (traders_ok i) (5 * w_activity w) "Low traders 24h" s in
  let s := bonus (vip_ok i) (4 * w_vip w) s in
  let s := bonus (revival_ok i) (3 * w_revival w) s in
  let s := bonus (age_ok i) (2 * w_age w) s in   (* 0.25 ~ 6h *)
  let s := bonus (fdvToMc_ok i) (4 * w_fdvToMc w) s in   (* FDV ~ MC *)
  s.

(** The criteria as the specification words them: a satisfied criterion is
    worth [base * weight]; an unsatisfied one is worth nothing and names a
    reason.  [None] marks a criterion for which the source has no reason
    string. *)
Record criterion : Type := {
  satisfied : bool;
  base_points : Q;
  weight : Q;
  reason : option string
}.

Definition criteria (i : inputs) : list criterion :=
  let w := weights_of i in
  [ {| satisfied := lpCount_ok i; base_points := 10; weight := w_lpCount w;
       reason := Some "LP providers below threshold"%string |};
    {| satisfied := lpLocked_ok i; base_points := 8; weight := w_lpLocked w;
       reason := Some "LP locked pct low"%string |};
    {| satisfied := top1_ok i; base_points := 6; weight := w_holdersDist w;
       reason := Some "Top1 concentration high"%string |};
    {| satisfied := top10_ok i; base_points := 6; weight := w_holdersDist w;
       reason := Some "Top10 concentration high"%string |};
    {| satisfied := traders_ok i; base_points := 5; weight := w_activity w;
       reason := Some "Low traders 24h"%string |};
    {| satisfied := vip_ok i; base_points := 4; weight := w_vip w; reason := None |};
    {| satisfied := revival_ok i; base_points := 3; weight := w_revival w; reason := None |};
    {| satisfied := age_ok i; base_points := 2; weight := w_age w; reason := None |};
    {| satisfied := fdvToMc_ok i; base_points := 4; weight := w_fdvToMc w; reason := None |} ].

Definition points (c : criterion) : Q :=
  if satisfied c then (base_points c * weight c)%Q else 0%Q.

Definition spec_score (cs : list criterion) : Q := qsum (map points cs).

Definition spec_reasons (cs : list criterion) : list string :=
  flat_map (fun c => if satisfied c then []
                     else match reason c with Some r => [r] | None => [] end) cs.

(* The same inputs with another FDV/market-cap ratio. *)
Definition with_fdvToMc (i : inputs) (r : option Q) : inputs :=
  {| lpProviders := lpProviders i; lpProvidersMin := lpProvidersMin i;
     lpLockedPct := lpLockedPct i; lpLockedMinPct := lpLockedMinPct i;
     concentrationTop1Pct := concentrationTop1Pct i; maxTop1Pct := maxTop1Pct i;
     concentrationTop10Pct := concentrationTop10Pct i; maxTop10Pct := maxTop10Pct i;
     traders24h := traders24h i; minTraders24h := minTraders24h i;
     vipHits := vipHits i; revivalActive := revivalActive i;
     tokenAgeDays := tokenAgeDays i; maxAgeDays := maxAgeDays i;
     fdvToMc := r; weights_opt := weights_opt i |}.

(* How many criteria the inputs leave unsatisfied. *)
Definition unsatisfied (i : inputs) : nat :=
  List.length (filter (fun c => negb (satisfied c)) (criteria i)).

(* What the supplied ratio adds to the score: the score against the score
   of the same inputs with a ratio of 2, which is outside the band. *)
Definition fdv_bonus (i : inputs) : Q :=
  (score (scoreToken i) - score (scoreToken (with_fdvToMc i (Some 2%Q))))%Q.

(* The band check on the supplied ratio alone. *)
Definition in_band (r : option Q) : bool :=
  match r with
  | Some v => Qgeb v (9 # 10) && Qleb v (11 # 10)
  | None => false
  end.

End Scorer.

(** ** Pool totals: tvlTotalUSDC and depositVaultSum *)

Module Pools.
Import Chain.

Section Totals.
Variable P : provider.

(* for (const p of pools) { const { usdc } = await poolReserves(...); tvl += usdc.ui * 2; } *)
Fixpoint tvl_loop (pools : list (string * string)) (tvl : Q) : result Q :=
  match pools with
  | [] => Ok tvl
  | p :: rest =>
    r <- ReserveOracle.poolReserves P (fst p) (snd p) ;;
    tvl_loop rest (tvl + ui (ReserveOracle.usdc r) * inject_Z 2)%Q
  end.

(* returns { tvl_usd: tvl } *)
Definition tvlTotalUSDC (pools : list (string * string)) : result Q :=
  tvl_loop pools 0%Q.

(* for (const ta of vaultTokenAccounts) { const b = await getTokenAccountBalance(ta);
     sum += b.ui; dec = b.decimals; } *)
Fixpoint vault_loop (vaults : list string) (st : Q * Z) : result (Q * Z) :=
  match vaults with
  | [] => Ok st
  | ta :: rest =>
    b <- getTokenAccountBalance P ta ;;
    vault_loop rest ((fst st + ui b)%Q, decimals b)
  end.

(* returns { sum_ui: sum, decimals: dec } *)
Definition depositVaultSum (vaultTokenAccounts : list string) : result (Q * Z) :=
  vault_loop vaultTokenAccounts (0%Q, 0).

(* The balances the loop reads, in order. *)
Fixpoint read_balances (vaults : list string) : result (list balance) :=
  match vaults with
  | [] => Ok []
  | ta :: rest =>
    b <- getTokenAccountBalance P ta ;;
    bs <- read_balances rest ;;
    Ok (b :: bs)
  end.

(* The classified reserves of the pools, in order. *)
Fixpoint read_reserves (pools : list (string * string)) : result (list ReserveOracle.reserves) :=
  match pools with
  | [] => Ok []
  | p :: rest =>
    r <- ReserveOracle.poolReserves P (fst p) (snd p) ;;
    rs <- read_reserves rest ;;
    Ok (r :: rs)
  end.
End Totals.

End Pools.

(** ** LP providers *)

Module Liquidity.
Import Chain.

Record lp_providers : Type := {
  lp_mint : string;
  holders : Z;
  lp_sum_balances : Q;
  lp_total_supply : Q
}.

(* if (ui > 0 && !excludeOwners.includes(owner)) *)
Definition provides (excludeOwners : list string) (info : holder_info) : bool :=
  Qgtb (Holders.ui_of info) 0 && negb (Holders.includes excludeOwners (owner info)).

(* One turn of the loop: { set.add(owner); sum += ui; } *)
Definition provider_step (excludeOwners : list string) (st : list string * Q)
  (row : option holder_info) : list string * Q :=
  match row with
  | None => st
  | Some info =>
    if provides excludeOwners info
    then (Activity.set_add (owner info) (fst st), (snd st + Holders.ui_of info)%Q)
    else st
  end.

Section Providers.
Variable P : provider.

Definition lpProvidersCount (lpMint : string) (excludeOwners : list string)
  : result lp_providers :=
  v1 <- getProgramAccountsByMint P lpMint TOKEN_PROGRAM ;;
  v2 <- getProgramAccountsByMint P lpMint TOKEN_2022_PROGRAM ;;
  let st := fold_left (provider_step excludeOwners) (v1 ++ v2) ([], 0%Q) in
  sup <- getMintSupply P lpMint ;;
  Ok {| lp_mint := lpMint;
        holders := Z.of_nat (List.length (fst st));
        lp_sum_balances := snd st;
        lp_total_supply := ui sup |}.
End Providers.

(* The accounts that count as providers, as a list. *)
Definition providing (excludeOwners : list string) (rows : list (option holder_info))
  : list holder_info :=
  filter (provides excludeOwners) (Holders.present rows).

End Liquidity.

(** ** Trades, revival and first buyers over the address history *)

Module Trades.
Import Chain.

(* if ((it.blockTime||0) < since) continue; *)
Definition recent (since : Z) (it : tx) : bool :=
  negb ((match blockTime it with Some ts => ts | None => 0 end) <? since).

Record trade_state : Type := {
  actors : list string;      (* new Set() *)
  trades : Z;
  volUSDC : Q
}.

Definition add_trader (a : option string) (s : list string) : list string :=
  match a with
  | Some x => if String.eqb x "" then s else Activity.set_add x s
  | None => s
  end.

(* the body of the loop over the transfer legs of tradersTradesVolume24h *)
Definition trade_leg_step (st : trade_state) (t : transfer) : trade_state :=
  let a := add_trader (fromUserAccount t) (actors st) in
  let a := add_trader (toUserAccount t) a in
  {| actors := a;
     trades := trades st;
     volUSDC := if ReserveOracle.is_usdc (t_mint t)
                then (volUSDC st + Activity.leg_amount t)%Q else volUSDC st |}.

Definition trade_tx_step (since : Z) (st : trade_state) (it : tx) : trade_state :=
  if recent since it
  then fold_left trade_leg_step (Activity.legs it)
         {| actors := actors st; trades := trades st + 1; volUSDC := volUSDC st |}
  else st.

Record traders_trades_volume : Type := {
  unique_traders_24h : Z;
  total_trades_24h : Z;
  total_volume_usdc_24h : Q
}.

(* A number that a division may leave: finite, an infinity or NaN. *)
Inductive jsnum : Type :=
| Num (q : Q)
| Infinite (positive : bool)
| NaN.

(* a / b on finite numbers (a zero divisor is +0 here) *)
Definition jsdiv (a b : Q) : jsnum :=
  if Qeq_bool b 0 then
    if Qeq_bool a 0 then NaN else Infinite (Qgtb a 0)
  else Num (a / b)%Q.

(* x > c *)
Definition jsgt (x : jsnum) (c : Q) : bool :=
  match x with
  | Num q => Qgtb q c
  | Infinite positive => positive
  | NaN => false
  end.

Record revival : Type := {
  revival_active : bool;
  multiplier : jsnum;
  daily_volume_usdc : Q
}.







(* arr[arr.length-1]?.blockTime || arr[0]?.blockTime || null *)
Definition block_time_of (it : option tx) : option Z :=
  match it with
  | Some x => match blockTime x with
              | Some ts => if ts =? 0 then None else Some ts
              | None => None
              end
  | None => None
  end.

Definition oldest_of (arr : list tx) : option Z :=
  match block_time_of (last (map Some arr) None) with
  | Some ts => Some ts
  | None => block_time_of (hd_error arr)
  end.

Section History.
Variable P : provider.
(* Math.floor(Date.now()/1000) *)
Variable now : Z.

Fixpoint scan_trades (since : Z) (addresses : list string) (st : trade_state)
  : result trade_state :=
  match addresses with
  | [] => Ok st
  | addr :: rest =>
    arr <- heliusGET_history P addr ;;
    scan_trades since rest (fold_left (trade_tx_step since) arr st)
  end.

Definition tradersTradesVolume24h (addresses : list string) : result traders_trades_volume :=
  let since := now - 86400 in
  st <- scan_trades since addresses {| actors := []; trades := 0; volUSDC := 0%Q |} ;;
  Ok {| unique_traders_24h := Z.of_nat (List.length (actors st));
        total_trades_24h := trades st;
        total_volume_usdc_24h := volUSDC st |}.

Definition zero_cell (tx0 : Z) (v0 : Q) : Activity.cell :=
  {| Activity.tx_count := tx0; Activity.volume_usdc := v0; Activity.unique_actors := 0 |}.

Definition revivalDetector (poolAddresses : list string) : result revival :=
  win <- Activity.activityWindows P now poolAddresses [inject_Z (60 * 24); inject_Z (60 * 72)] ;;
  (* win[1440] || { tx:0, volume_usdc:0 } *)
  let daily := match Obj.get (inject_Z 1440) win with
               | Some c => c
               | None => zero_cell 0 0
               end in
  (* win[4320] || { tx:1, volume_usdc:1 } *)
  let tri := match Obj.get (inject_Z 4320) win with
             | Some c => c
             | None => zero_cell 1 1
             end in
  let m := jsdiv (Activity.volume_usdc daily) (Activity.volume_usdc tri / inject_Z 3)%Q in
  Ok {| revival_active := jsgt m (inject_Z 3);
        multiplier := m;
        daily_volume_usdc := Activity.volume_usdc daily |}.


(* All the pages a scan reads, in the order of the addresses. *)
Fixpoint fetch_pages (addresses : list string) : result (list tx) :=
  match addresses with
  | [] => Ok []
  | addr :: rest =>
    arr <- heliusGET_history P addr ;;
    more <- fetch_pages rest ;;
    Ok (arr ++ more)
  end.
End History.

(* Token age: `nowMs` is Date.now(); the page is the one tokenAgeDays fetched. *)
Definition tokenAgeDays_of (nowMs : Z) (arr : list tx) : option Q :=
  match oldest_of arr with
  | None => None
  | Some oldest => Some ((inject_Z nowMs / inject_Z 1000 - inject_Z oldest) / inject_Z 86400)%Q
  end.

Definition tokenAgeDays (P : provider) (nowMs : Z) (address : string) : result (option Q) :=
  arr <- heliusGET_history P address ;;
  Ok (tokenAgeDays_of nowMs arr).

(* The counterparties a transaction names, in the order the loops add them. *)
Definition leg_actors (t : transfer) : list string :=
  add_trader (toUserAccount t) (add_trader (fromUserAccount t) []).

Definition tx_actors (it : tx) : list string := flat_map leg_actors (Activity.legs it).

(* The distinct strings of a list, in the order of their first occurrence. *)
Definition distinct (l : list string) : list string :=
  fold_left (fun s x => Activity.set_add x s) l [].

(* What one leg, and one transaction, add to a set of counterparties. *)
Definition join_leg (s : list string) (t : transfer) : list string :=
  add_trader (toUserAccount t) (add_trader (fromUserAccount t) s).

Definition join_actors (it : tx) (s : list string) : list string :=
  fold_left join_leg (Activity.legs it) s.

(* a leg with a VIP on either side *)
Definition vip_leg (vip : list string) (t : transfer) : bool :=
  Holders.includes vip (Activity.str_or_empty (fromUserAccount t))
  || Holders.includes vip (Activity.str_or_empty (toUserAccount t)).

Fixpoint zsum (l : list Z) : Z :=
  match l with
  | [] => 0
  | x :: l' => x + zsum l'
  end.

End Trades.

(** ** Dev link *)

Module Dev.

(* const set = new Set(knownCreators.map(s => s.trim())); return { linked: set.has(devAddress), dev } *)
Definition devLinkToSuccess (devAddress : string) (knownCreators : list string) : bool * string :=
  (Holders.includes (map Activity.trim knownCreators) devAddress, devAddress).

End Dev.


(** ** Shapes used to state the properties *)

(* 250 * (from + 1), ..., 250 * (from + n) *)
Definition linear_delays (from : Z) (n : nat) : list Z :=
  map (fun j => 250 * (from + Z.of_nat j)) (seq 1 n).

(* the same, capped at 1500 *)
Definition capped_delays (from : Z) (n : nat) : list Z :=
  map (fun j => Z.min (250 * (from + Z.of_nat j)) 1500) (seq 1 n).

Definition amounts_descend (l : list Q) : Prop := StronglySorted (fun a b => (b <= a)%Q) l.

(* a hit list with distinct addresses, all VIPs, each hit at least once *)
Definition vip_hits_ok (vip : list string) (hits : list (string * Z)) : Prop :=
  NoDup (map fst hits) /\ Forall (fun p => In (fst p) vip /\ 1 <= snd p) hits.


Definition nonneg_weights (w : Scorer.weights) : Prop :=
  (0 <= Scorer.w_lpCount w)%Q /\ (0 <= Scorer.w_lpLocked w)%Q
  /\ (0 <= Scorer.w_holdersDist w)%Q /\ (0 <= Scorer.w_activity w)%Q
  /\ (0 <= Scorer.w_vip w)%Q /\ (0 <= Scorer.w_revival w)%Q
  /\ (0 <= Scorer.w_age w)%Q /\ (0 <= Scorer.w_fdvToMc w)%Q.

(* the score of a token that meets every criterion *)
Definition full_score (w : Scorer.weights) : Q :=
  (10 * Scorer.w_lpCount w + 8 * Scorer.w_lpLocked w + 6 * Scorer.w_holdersDist w
   + 6 * Scorer.w_holdersDist w + 5 * Scorer.w_activity w + 4 * Scorer.w_vip w
   + 3 * Scorer.w_revival w + 2 * Scorer.w_age w + 4 * Scorer.w_fdvToMc w)%Q.

(* (Date.now()/1000 - t) / 86400: the age in days of a block time *)
Definition age_days (nowMs t : Z) : Q :=
  ((inject_Z nowMs / inject_Z 1000 - inject_Z t) / inject_Z 86400)%Q.

(* a record whose blockTime is missing or 0 *)
Definition untimed (it : Chain.tx) : Prop :=
  Chain.blockTime it = None \/ Chain.blockTime it = Some 0.

(* a page from the most recent record to the oldest: along the page the
   block times, where present, never increase *)
Definition newest_first (arr : list Chain.tx) : Prop :=
  StronglySorted
    (fun a b => forall ta tb,
         Chain.blockTime a = Some ta -> Chain.blockTime b = Some tb -> tb <= ta)
    arr.

(* a balance that either read of the provider returned *)
Definition read_as (P : Chain.provider) (account : string) (b : Chain.balance) : Prop :=
  Chain.getTokenAccountBalance P account = Ok b \/ Chain.getMintSupply P account = Ok b.

(* a byte string that does not start with a code point recognised by
   [p1], [p2], [p3] *)
Definition headed (p1 : ascii -> bool) (p2 : ascii -> ascii -> bool)
  (p3 : ascii -> ascii -> ascii -> bool) (l : list ascii) : Prop :=
  match l with
  | [] => True
  | c1 :: l1 =>
    p1 c1 = false
    /\ match l1 with
       | [] => True
       | c2 :: l2 =>
         p2 c1 c2 = false
         /\ match l2 with
            | [] => True
            | c3 :: _ => p3 c1 c2 c3 = false
            end
       end
  end.


(** ** Sample providers *)

Module Fixtures.
Import Chain.

Definition RESERVE_X : string := "5Q544fKrFoe6tsEbD7S8EmxGTJYAKtTVhAW5Q5pge4j1".
Definition RESERVE_Y : string := "HLmqeL62xR1QoZ1HKKbXRrdN1p3phKpxRMb2VVopvBBz".
Definition WSOL_MINT : string := "So11111111111111111111111111111111111111112".
Definition BONK_MINT : string := "DezXAZ8z7PnrnRJjz3wXBoRgixCa6xjnB7YaB1pPB263".
Definition TOKEN_MINT : string := "7GCihgDB8fe6KNjn2MYtkzZcRjQy3t9GHdC8uHYmW2hr".
Definition LP_MINT : string := "8HoQnePLqPj4M7PUDzfw8e3Ymdwgc7NLGnaTUapubyvu".
Definition LOCKER : string := "1nc1nerator11111111111111111111111111111111".
Definition ALICE : string := "A1iceWa11et111111111111111111111111111111111".
Definition BOB : string := "BobWa11et11111111111111111111111111111111111".
Definition CAROL : string := "Caro1Wa11et111111111111111111111111111111111".
Definition POOL : string := "58oQChx4yWmvKdwLLZzBi4ChoCc2fqCUWBkwMihLYQo2".

Definition unknown {A : Type} (method : string) : result A :=
  Err (RpcFailure method "Invalid param: could not find account").

Definition no_accounts (programId mint : string)
  : result (option (list (option holder_info))) := Ok (Some []).

Definition no_history (address : string) : result (list tx) := Ok [].

(* A pool of two 9-decimals tokens, neither of them USDC. *)
Definition ambiguous_pool : provider :=
  {| rpc_getTokenAccountBalance := fun ta =>
       if String.eqb ta RESERVE_X then Ok {| raw_amount := 2000000000000; raw_decimals := 9 |}
       else if String.eqb ta RESERVE_Y then Ok {| raw_amount := 500000000000; raw_decimals := 9 |}
       else unknown "getTokenAccountBalance";
     rpc_getTokenSupply := fun m =>
       if String.eqb m BONK_MINT then Ok {| raw_amount := 1000000000000000; raw_decimals := 9 |}
       else unknown "getTokenSupply";
     rpc_getAccountInfo := fun a =>
       if String.eqb a RESERVE_X then Ok (Some {| info_mint := Some WSOL_MINT |})
       else if String.eqb a RESERVE_Y then Ok (Some {| info_mint := Some BONK_MINT |})
       else Ok None;
     rpc_getProgramAccounts := no_accounts;
     heliusGET_history := no_history |}.

(* A USDC pool: 5000 USDC against 100 tokens; the token has 6 decimals and
   a raw supply of 1_000_000_000. *)
Definition usdc_pool : provider :=
  {| rpc_getTokenAccountBalance := fun ta =>
       if String.eqb ta RESERVE_X then Ok {| raw_amount := 100000000; raw_decimals := 6 |}
       else if String.eqb ta RESERVE_Y then Ok {| raw_amount := 5000000000; raw_decimals := 6 |}
       else unknown "getTokenAccountBalance";
     rpc_getTokenSupply := fun m =>
       if String.eqb m TOKEN_MINT then Ok {| raw_amount := 1000000000; raw_decimals := 6 |}
       else unknown "getTokenSupply";
     rpc_getAccountInfo := fun a =>
       if String.eqb a RESERVE_X then Ok (Some {| info_mint := Some TOKEN_MINT |})
       else if String.eqb a RESERVE_Y then Ok (Some {| info_mint := Some USDC_MINT |})
       else Ok None;
     rpc_getProgramAccounts := no_accounts;
     heliusGET_history := no_history |}.

(* One SPL mint with the given supply and token accounts. *)
Definition mint_with (mint : string) (supply : token_amount)
    (rows : list (option holder_info)) : provider :=
  {| rpc_getTokenAccountBalance := fun _ => unknown "getTokenAccountBalance";
     rpc_getTokenSupply := fun m =>
       if String.eqb m mint then Ok supply else unknown "getTokenSupply";
     rpc_getAccountInfo := fun _ => Ok None;
     rpc_getProgramAccounts := fun programId m =>
       if String.eqb m mint && String.eqb programId TOKEN_PROGRAM
       then Ok (Some rows) else Ok (Some []);
     heliusGET_history := no_history |}.

Definition held (o : string) (u : Q) : option holder_info :=
  Some {| owner := o; uiAmount := Some u |}.

(* An LP mint whose whole supply has been burnt: 0 locked over 0 supply. *)
Definition burnt_lp : provider :=
  mint_with LP_MINT {| raw_amount := 0; raw_decimals := 9 |} [held LOCKER 0; None].

(* An LP mint of 1000 ui, a quarter of it held by the locker. *)
Definition locked_lp : provider :=
  mint_with LP_MINT {| raw_amount := 1000000000000; raw_decimals := 9 |}
    [held ALICE 450; held LOCKER 250; None; held BOB 300].

(* Holders of 600, 300 and 100 ui over a supply of 1000 ui. *)
Definition three_holders : provider :=
  mint_with TOKEN_MINT {| raw_amount := 1000000000; raw_decimals := 6 |}
    [held BOB 300; held ALICE 600; held CAROL 100].

(* The account list still shows 600 ui while the supply read reports 100 ui. *)
Definition stale_accounts : provider :=
  mint_with TOKEN_MINT {| raw_amount := 100000000; raw_decimals := 6 |}
    [held ALICE 600].

(* A token that meets the five thresholds, with no VIP hit, no revival, an
   age of 3 days and no FDV/market-cap ratio supplied. *)
Definition healthy_token : Scorer.inputs :=
  {| Scorer.lpProviders := 40; Scorer.lpProvidersMin := 10;
     Scorer.lpLockedPct := 95; Scorer.lpLockedMinPct := 80;
     Scorer.concentrationTop1Pct := 4; Scorer.maxTop1Pct := 10;
     Scorer.concentrationTop10Pct := 25; Scorer.maxTop10Pct := 40;
     Scorer.traders24h := Some 120%Q; Scorer.minTraders24h := Some 50%Q;
     Scorer.vipHits := Some 0%Q; Scorer.revivalActive := false;
     Scorer.tokenAgeDays := 3; Scorer.maxAgeDays := Some (1 # 4);
     Scorer.fdvToMc := None; Scorer.weights_opt := None |}.

(* Every criterion met, default weights, FDV/market-cap ratio 1. *)
Definition perfect_token : Scorer.inputs :=
  {| Scorer.lpProviders := 40; Scorer.lpProvidersMin := 10;
     Scorer.lpLockedPct := 95; Scorer.lpLockedMinPct := 80;
     Scorer.concentrationTop1Pct := 4; Scorer.maxTop1Pct := 10;
     Scorer.concentrationTop10Pct := 25; Scorer.maxTop10Pct := 40;
     Scorer.traders24h := Some 120%Q; Scorer.minTraders24h := Some 50%Q;
     Scorer.vipHits := Some 2%Q; Scorer.revivalActive := true;
     Scorer.tokenAgeDays := (1 # 10); Scorer.maxAgeDays := None;
     Scorer.fdvToMc := Some 1%Q; Scorer.weights_opt := None |}.

Definition NOW : Z := 1700000000.

(* One swap, a minute old: 10 USDC from Alice to the pool. *)
Definition recent_swap : tx :=
  {| blockTime := Some (NOW - 60);
     tokenTransfers :=
       Some [ {| t_mint := Some USDC_MINT; tokenAmount := Some 10%Q;
                 fromUserAccount := Some ALICE; toUserAccount := Some POOL |} ] |}.

Definition history_of (address : string) (page : list tx) : provider :=
  {| rpc_getTokenAccountBalance := fun _ => unknown "getTokenAccountBalance";
     rpc_getTokenSupply := fun _ => unknown "getTokenSupply";
     rpc_getAccountInfo := fun _ => Ok None;
     rpc_getProgramAccounts := no_accounts;
     heliusGET_history := fun a => if String.eqb a address then Ok page else Ok [] |}.

Definition pool_history : provider := history_of POOL [recent_swap].

(* One transfer, a minute old, from one VIP wallet to another. *)
Definition vip_to_vip : tx :=
  {| blockTime := Some (NOW - 60);
     tokenTransfers :=
       Some [ {| t_mint := Some BONK_MINT; tokenAmount := Some 2500%Q;
                 fromUserAccount := Some ALICE; toUserAccount := Some BOB |} ] |}.

Definition vip_history : provider := history_of POOL [vip_to_vip].

End Fixtures.

(** ** More sample providers *)

Module Samples.
Import Chain.

Definition USDT_MINT : string := "Es9vMFrzaCERmJfrF4H2FYD4KCoNkY11McCe8BenwNYB".

(* Two aborted attempts, then an answer. *)
Definition third_time_lucky (i : Z) : Upstream.fetched Z :=
  if i <? 2 then Upstream.FetchRejected "aborted"
  else Upstream.FetchResolved true 200 (Upstream.Envelope None (Some 7)).

(* A pool with the given reserve balances and parsed account infos; the
   token has a raw supply of 1_000_000_000 at 6 decimals. *)
Definition pool_of (bx bY : token_amount) (ix iy : option parsed_info) : provider :=
  {| rpc_getTokenAccountBalance := fun ta =>
       if String.eqb ta Fixtures.RESERVE_X then Ok bx
       else if String.eqb ta Fixtures.RESERVE_Y then Ok bY
       else Fixtures.unknown "getTokenAccountBalance";
     rpc_getTokenSupply := fun m =>
       if String.eqb m Fixtures.TOKEN_MINT
       then Ok {| raw_amount := 1000000000; raw_decimals := 6 |}
       else Fixtures.unknown "getTokenSupply";
     rpc_getAccountInfo := fun a =>
       if String.eqb a Fixtures.RESERVE_X then Ok ix
       else if String.eqb a Fixtures.RESERVE_Y then Ok iy
       else Ok None;
     rpc_getProgramAccounts := Fixtures.no_accounts;
     heliusGET_history := Fixtures.no_history |}.

Definition sol_2000 : token_amount := {| raw_amount := 2000000000000; raw_decimals := 9 |}.
Definition usdt_300000 : token_amount := {| raw_amount := 300000000000; raw_decimals := 6 |}.

(* wSOL against USDT: Y has 6 decimals, X has 9, neither mint is USDC. *)
Definition sol_usdt : provider :=
  pool_of sol_2000 usdt_300000
    (Some {| info_mint := Some Fixtures.WSOL_MINT |})
    (Some {| info_mint := Some USDT_MINT |}).

(* The same pool when the account info of reserve X cannot be parsed. *)
Definition unreadable_x : provider :=
  pool_of sol_2000 usdt_300000 None (Some {| info_mint := Some USDT_MINT |}).

(* A USDC pool whose token side has been drained. *)
Definition drained_pool : provider :=
  pool_of {| raw_amount := 0; raw_decimals := 6 |}
          {| raw_amount := 5000000000; raw_decimals := 6 |}
          (Some {| info_mint := Some Fixtures.TOKEN_MINT |})
          (Some {| info_mint := Some USDC_MINT |}).

(* Alice holds LP tokens in two accounts; Bob's account is empty. *)
Definition two_accounts_lp : provider :=
  Fixtures.mint_with Fixtures.LP_MINT {| raw_amount := 1000000000000; raw_decimals := 9 |}
    [Fixtures.held Fixtures.ALICE 450; Fixtures.held Fixtures.LOCKER 250; None;
     Fixtures.held Fixtures.ALICE 50; Fixtures.held Fixtures.BOB 0;
     Fixtures.held Fixtures.CAROL 250].

(* A mint whose supply read reports 0 while an account still shows 5 ui. *)
Definition zero_supply_mint : provider :=
  Fixtures.mint_with Fixtures.TOKEN_MINT {| raw_amount := 0; raw_decimals := 6 |}
    [Fixtures.held Fixtures.ALICE 5].

(* A swap of 40 USDC from Bob to the pool, two days old. *)
Definition old_swap : tx :=
  {| blockTime := Some (Fixtures.NOW - 172800);
     tokenTransfers :=
       Some [ {| t_mint := Some USDC_MINT; tokenAmount := Some 40%Q;
                 fromUserAccount := Some Fixtures.BOB;
                 toUserAccount := Some Fixtures.POOL |} ] |}.

Definition busy_page : list tx := [Fixtures.recent_swap; Fixtures.vip_to_vip; old_swap].

Definition busy_history : provider := Fixtures.history_of Fixtures.POOL busy_page.

(* A page that ends with a record without block time. *)
Definition untimed_tail : list tx :=
  [Fixtures.recent_swap; old_swap; {| blockTime := None; tokenTransfers := None |}].

Definition untimed_history : provider := Fixtures.history_of Fixtures.POOL untimed_tail.

(* the no-break space U+00A0, as its two bytes *)
Definition NBSP : string := String (ascii_of_nat 194) (String (ascii_of_nat 160) EmptyString).

End Samples.


(** A call fails when it ends in a thrown error. *)
Definition fails {A : Type} (r : result A) : Prop := exists e, r = Err e.

(** * Properties *)

#[local] Arguments Qplus : simpl never.
#[local] Arguments Qmult : simpl never.
#[local] Arguments Qdiv : simpl never.
#[local] Arguments Qminus : simpl never.
#[local] Arguments Qle : simpl never.
#[local] Arguments Qlt : simpl never.
#[local] Arguments Qeq : simpl never.
#[local] Arguments inject_Z : simpl never.

(** ** Truthiness and comparisons *)

(* A supply that was read belongs to a mint that passed [assertPubkey]. *)
Lemma getMintSupply_valid (P : Chain.provider) (mint : string) (sup : Chain.balance) :
  Chain.getMintSupply P mint = Ok sup -> Chain.assertPubkey mint = Ok tt.
Proof.
  unfold Chain.getMintSupply. destruct (Chain.assertPubkey mint) as [[]|e]; cbn [bind].
  - reflexivity.
  - discriminate.
Qed.

Lemma truthy_false_iff (x : Q) : truthy x = false <-> (x == 0)%Q.
Proof.
  unfold truthy. rewrite negb_false_iff. apply Qeq_bool_iff.
Qed.

Lemma truthy_true_iff (x : Q) : truthy x = true <-> ~ (x == 0)%Q.
Proof.
  unfold truthy. rewrite negb_true_iff. split.
  - intros H E. apply Qeq_bool_iff in E. congruence.
  - intros H. destruct (Qeq_bool x 0) eqn:E; [|reflexivity].
    apply Qeq_bool_iff in E. contradiction.
Qed.

Lemma Qleb_iff (a b : Q) : Qleb a b = true <-> (a <= b)%Q.
Proof. apply Qle_bool_iff. Qed.

Lemma Qgeb_iff (a b : Q) : Qgeb a b = true <-> (b <= a)%Q.
Proof. apply Qle_bool_iff. Qed.

Lemma Qgtb_iff (a b : Q) : Qgtb a b = true <-> (b < a)%Q.
Proof.
  unfold Qgtb. rewrite negb_true_iff. split.
  - intros H. apply Qnot_le_lt. intros L. apply Qle_bool_iff in L. congruence.
  - intros H. destruct (Qle_bool a b) eqn:E; [|reflexivity].
    apply Qle_bool_iff in E. apply Qlt_not_le in H. contradiction.
Qed.

Lemma Qleb_false_iff (a b : Q) : Qleb a b = false <-> (b < a)%Q.
Proof.
  rewrite <- Qgtb_iff. unfold Qgtb, Qleb. rewrite negb_true_iff. tauto.
Qed.

(** ** FDV / market-cap helper *)



(** ** UpstreamClient: exhaustion of the retries *)

Section RetryFacts.
Context {A : Type}.
Variable MAX : Z.
Variable method : string.
Variable upstream : Z -> Upstream.fetched A.

Lemma sorted_cons_floor (b : Z) (l : list Z) (d : Z) :
  d <= b -> Upstream.floor_of b l -> Sorted Z.le l -> Sorted Z.le (d :: l).
Proof.
  intros Hd Hf Hs. constructor; [assumption|].
  destruct l as [|x l]; constructor.
  inversion Hf; subst. lia.
Qed.

Lemma floor_of_weaken (b b' : Z) (l : list Z) :
  b' <= b -> Upstream.floor_of b l -> Upstream.floor_of b' l.
Proof.
  intros Hb Hf. eapply Forall_impl; [|exact Hf]. cbn. intros; lia.
Qed.

Hypothesis rpc_fails :
  forall i, 0 <= i <= MAX -> exists e, Upstream.rpc_attempt method (upstream i) = Err e.

Lemma rpc_loop_exhausts (n : nat) :
  forall (i : Z) (fuel : nat),
    0 <= i -> MAX - i = Z.of_nat n -> (n < fuel)%nat ->
    exists tr e,
      Upstream.rpc_loop MAX method upstream fuel i = Some (tr, Upstream.Threw e)
      /\ Upstream.rpc_attempt method (upstream MAX) = Err e
      /\ Upstream.attempts tr = MAX - i + 1
      /\ Sorted Z.le (Upstream.delays tr)
      /\ Upstream.floor_of (250 * (i + 1)) (Upstream.delays tr).
Proof.
  induction n as [|n IH]; intros i fuel Hi Hn Hfuel;
    (destruct fuel as [|fuel]; [lia|]); cbn [Upstream.rpc_loop];
    (destruct (rpc_fails i) as [e He]; [lia|]); rewrite He;
    (replace (i <=? MAX) with true by (symmetry; apply Z.leb_le; lia)).
  - assert (i = MAX) by lia; subst i. rewrite Z.eqb_refl.
    exists [Upstream.Attempt MAX], e. repeat split; try assumption.
    + unfold Upstream.attempts; cbn. lia.
    + constructor.
    + constructor.
  - replace (i =? MAX) with false by (symmetry; apply Z.eqb_neq; lia).
    destruct (IH (i + 1) fuel) as (tr & e' & Hrun & Hlast & Hcnt & Hsort & Hfloor);
      try lia.
    rewrite Hrun. exists (Upstream.Attempt i :: Upstream.Sleep (250 * (i + 1)) :: tr), e'.
    repeat split; try assumption.
    + unfold Upstream.attempts in *; cbn. lia.
    + cbn [Upstream.delays]. eapply sorted_cons_floor; [|exact Hfloor|exact Hsort]. lia.
    + cbn [Upstream.delays]. constructor; [lia|]. eapply floor_of_weaken; [|exact Hfloor]. lia.
Qed.

Hypothesis rpcCall_fails :
  forall i, 0 <= i <= MAX -> exists e, Upstream.rpcCall_attempt (upstream i) = Err e.

Lemma rpcCall_loop_exhausts (n : nat) :
  forall (i : Z) (fuel : nat),
    0 <= i -> MAX - i = Z.of_nat n -> (n < fuel)%nat ->
    exists tr e,
      Upstream.rpcCall_loop MAX upstream fuel i = Some (tr, Upstream.Threw e)
      /\ Upstream.rpcCall_attempt (upstream MAX) = Err e
      /\ Upstream.attempts tr = MAX - i + 1
      /\ Sorted Z.le (Upstream.delays tr)
      /\ Upstream.floor_of (Z.min (250 * (i + 1)) 1500) (Upstream.delays tr).
Proof.
  induction n as [|n IH]; intros i fuel Hi Hn Hfuel;
    (destruct fuel as [|fuel]; [lia|]); cbn [Upstream.rpcCall_loop];
    (destruct (rpcCall_fails i) as [e He]; [lia|]); rewrite He; cbv zeta.
  - assert (i = MAX) by lia; subst i.
    replace (MAX + 1 >? MAX) with true by (symmetry; apply Z.gtb_lt; lia).
    exists [Upstream.Attempt MAX], e. repeat split; try assumption.
    + unfold Upstream.attempts; cbn. lia.
    + constructor.
    + constructor.
  - replace (i + 1 >? MAX) with false
      by (symmetry; rewrite Z.gtb_ltb; apply Z.ltb_ge; lia).
    destruct (IH (i + 1) fuel) as (tr & e' & Hrun & Hlast & Hcnt & Hsort & Hfloor);
      try lia.
    rewrite Hrun.
    exists (Upstream.Attempt i :: Upstream.Sleep (Z.min (250 * (i + 1)) 1500) :: tr), e'.
    repeat split; try assumption.
    + unfold Upstream.attempts in *; cbn. lia.
    + cbn [Upstream.delays]. eapply sorted_cons_floor; [|exact Hfloor|exact Hsort]. lia.
    + cbn [Upstream.delays]. constructor; [lia|]. eapply floor_of_weaken; [|exact Hfloor]. lia.
Qed.

End RetryFacts.

(** C3 (as amended): for each of the two retrying calls, [rpc] and [rpcCall],
    when every attempt it dispatches fails by its own test, the call stops
    after exactly [RPC_MAX_RETRIES + 1] attempts, sleeps for non-decreasing
    delays in between, and throws the error of the last attempt as it is.
    The REST helpers [heliusGET], [dasGET] and [dasPOST] are not retried:
    when their one attempt fails they throw its error at once. *)
Theorem retry_exhaustion {A : Type} (MAX : Z) (method : string)
    (upstream : Z -> Upstream.fetched A) (fuel : nat) :
  0 <= MAX ->
  (Z.to_nat MAX < fuel)%nat ->
  ((forall i, 0 <= i <= MAX ->
      exists e, Upstream.rpc_attempt method (upstream i) = Err e) ->
   exists tr e,
     Upstream.rpc MAX method upstream fuel = Some (tr, Upstream.Threw e)
     /\ Upstream.rpc_attempt method (upstream MAX) = Err e
     /\ Upstream.attempts tr = MAX + 1
     /\ Sorted Z.le (Upstream.delays tr))
  /\
  ((forall i, 0 <= i <= MAX ->
      exists e, Upstream.rpcCall_attempt (upstream i) = Err e) ->
   exists tr e,
     Upstream.rpcCall MAX upstream fuel = Some (tr, Upstream.Threw e)
     /\ Upstream.rpcCall_attempt (upstream MAX) = Err e
     /\ Upstream.attempts tr = MAX + 1
     /\ Sorted Z.le (Upstream.delays tr))
  /\
  (forall e,
      (Upstream.heliusGET_attempt (upstream 0) = Err e ->
       Upstream.heliusGET upstream = ([Upstream.Attempt 0], Upstream.Threw e))
      /\ (Upstream.das_attempt "GET" (upstream 0) = Err e ->
          Upstream.dasGET upstream = ([Upstream.Attempt 0], Upstream.Threw e))
      /\ (Upstream.das_attempt "POST" (upstream 0) = Err e ->
          Upstream.dasPOST upstream = ([Upstream.Attempt 0], Upstream.Threw e))).
Proof.
  intros Hmax Hfuel. split; [|split].
  - intros Hrpc.
    destruct (rpc_loop_exhausts MAX method upstream Hrpc (Z.to_nat MAX) 0 fuel)
      as (tr & e & H1 & H2 & H3 & H4 & _); try lia.
    exists tr, e. repeat split; try assumption. lia.
  - intros Hcall.
    destruct (rpcCall_loop_exhausts MAX upstream Hcall (Z.to_nat MAX) 0 fuel)
      as (tr & e & H1 & H2 & H3 & H4 & _); try lia.
    exists tr, e. repeat split; try assumption. lia.
  - intros e. unfold Upstream.heliusGET, Upstream.dasGET, Upstream.dasPOST, Upstream.once.
    repeat split; intros ->; reflexivity.
Qed.

Example rpc_three_retries :
  Upstream.rpc (A := unit) 3 "getSlot" (fun _ => Upstream.FetchRejected "aborted") 4
  = Some ([Upstream.Attempt 0; Upstream.Sleep 250; Upstream.Attempt 1; Upstream.Sleep 500;
           Upstream.Attempt 2; Upstream.Sleep 750; Upstream.Attempt 3],
          Upstream.Threw (Rejected "aborted")).
Proof. reflexivity. Qed.

Example rpcCall_delay_is_capped :
  option_map (fun r => Upstream.delays (fst r))
    (Upstream.rpcCall (A := unit) 7 (fun _ => Upstream.FetchResolved false 429 Upstream.Unparsable) 8)
  = Some [250; 500; 750; 1000; 1250; 1500; 1500].
Proof. reflexivity. Qed.

(* An upstream that answers HTTP 200 with a body that is not JSON fails every
   attempt of [rpc], whose r.json() rejects, but no attempt of [rpcCall],
   which keeps the text. *)
Lemma retry_exhaustion_witness :
  (exists tr e,
      Upstream.rpc (A := unit) 3 "getSlot"
        (fun _ => Upstream.FetchResolved true 200 Upstream.Unparsable) 4%nat
      = Some (tr, Upstream.Threw e)
      /\ e = Rejected "invalid json"
      /\ Upstream.attempts tr = 3 + 1
      /\ Sorted Z.le (Upstream.delays tr))
  /\
  (exists tr e,
      Upstream.rpcCall (A := unit) 3 (fun _ => Upstream.FetchRejected "aborted") 4%nat
      = Some (tr, Upstream.Threw e)
      /\ e = Rejected "aborted"
      /\ Upstream.attempts tr = 3 + 1
      /\ Sorted Z.le (Upstream.delays tr)).
Proof.
  split.
  - destruct (proj1 (retry_exhaustion (A := unit) 3 "getSlot"
                       (fun _ => Upstream.FetchResolved true 200 Upstream.Unparsable) 4%nat
                       ltac:(lia) ltac:(cbn; lia)))
      as (tr & e & Hrun & He & Hn & Hs).
    + intros i _. eexists. reflexivity.
    + exists tr, e. split; [exact Hrun|]. split; [|split; [exact Hn|exact Hs]].
      cbn in He. congruence.
  - destruct (proj1 (proj2 (retry_exhaustion (A := unit) 3 "getSlot"
                              (fun _ => Upstream.FetchRejected "aborted") 4%nat
                              ltac:(lia) ltac:(cbn; lia))))
      as (tr & e & Hrun & He & Hn & Hs).
    + intros i _. eexists. reflexivity.
    + exists tr, e. split; [exact Hrun|]. split; [|split; [exact Hn|exact Hs]].
      cbn in He. congruence.
Defined.

(** C3 (as stated) does not hold of every upstream call: the REST helpers
    [heliusGET], [dasGET] and [dasPOST] have no retry loop.  Against an
    upstream that rejects every request, with [RPC_MAX_RETRIES] = 3, [rpc]
    dispatches four requests while each of the three helpers dispatches one,
    sleeps never, and throws at once. *)
Lemma rest_helpers_do_not_retry :
  let down : Z -> Upstream.fetched unit := fun _ => Upstream.FetchRejected "aborted" in
  option_map (fun r => Upstream.attempts (fst r)) (Upstream.rpc 3 "getSlot" down 4) = Some 4
  /\ Upstream.heliusGET down = ([Upstream.Attempt 0], Upstream.Threw (Rejected "aborted"))
  /\ Upstream.dasGET down = ([Upstream.Attempt 0], Upstream.Threw (Rejected "aborted"))
  /\ Upstream.dasPOST down = ([Upstream.Attempt 0], Upstream.Threw (Rejected "aborted"))
  /\ Upstream.attempts (fst (Upstream.heliusGET down)) = 1
  /\ Upstream.delays (fst (Upstream.heliusGET down)) = []
  /\ Upstream.heliusGET (fun _ : Z => Upstream.FetchResolved (A := unit) false 503 Upstream.Unparsable)
     = ([Upstream.Attempt 0], Upstream.Threw (HeliusHttp 503)).
Proof. repeat split. Qed.

(** ** ReserveOracle *)

Lemma is_usdc_false_iff (m : option string) :
  ReserveOracle.is_usdc m = false <-> m <> Some Chain.USDC_MINT.
Proof.
  destruct m as [s|]; cbn.
  - rewrite String.eqb_neq. split; intros H; congruence.
  - split; [discriminate|reflexivity].
Qed.

Lemma classify_equal_decimals (ax ay : Chain.balance) (mintX mintY : option string) :
  mintX <> Some Chain.USDC_MINT ->
  mintY <> Some Chain.USDC_MINT ->
  Chain.decimals ax = Chain.decimals ay ->
  ReserveOracle.classify ax ay mintX mintY
  = {| ReserveOracle.usdc := ax; ReserveOracle.tok := ay;
       ReserveOracle.tokMint := mintY; ReserveOracle.usdcMint := mintX |}.
Proof.
  intros HX HY Hdec. unfold ReserveOracle.classify.
  apply is_usdc_false_iff in HX, HY. rewrite HX, HY. cbn.
  rewrite Hdec. destruct (Chain.decimals ay =? 6); cbn;
    rewrite ?andb_false_r; reflexivity.
Qed.

(* The decimals fallback is guarded by `!usdcMint`, and usdcMint starts as
   mintX: with a mint read for reserve X the fallback never swaps. *)
Lemma classify_keeps_x_with_mint (ax ay : Chain.balance) (mintX mintY : option string) :
  ReserveOracle.str_truthy mintX = true ->
  mintY <> Some Chain.USDC_MINT ->
  ReserveOracle.classify ax ay mintX mintY
  = {| ReserveOracle.usdc := ax; ReserveOracle.tok := ay;
       ReserveOracle.tokMint := mintY; ReserveOracle.usdcMint := mintX |}.
Proof.
  intros HX HY. unfold ReserveOracle.classify.
  apply is_usdc_false_iff in HY. rewrite HY.
  destruct (ReserveOracle.is_usdc mintX); cbn; rewrite HX; reflexivity.
Qed.

(** C1 (as amended): when neither reserve's mint is the USDC mint and both
    reserves have the same number of decimals, the classification does not
    fail; it takes reserve X as the quote side and reserve Y as the token
    side. *)
Theorem ambiguous_reserves_default_to_x (P : Chain.provider) (reserveX reserveY : string)
    (ax ay : Chain.balance) (ix iy : option Chain.parsed_info) :
  Chain.getTokenAccountBalance P reserveX = Ok ax ->
  Chain.getTokenAccountBalance P reserveY = Ok ay ->
  Chain.getAccountInfoParsed P reserveX = Ok ix ->
  Chain.getAccountInfoParsed P reserveY = Ok iy ->
  ReserveOracle.mint_of ix <> Some Chain.USDC_MINT ->
  ReserveOracle.mint_of iy <> Some Chain.USDC_MINT ->
  Chain.decimals ax = Chain.decimals ay ->
  ReserveOracle.poolReserves P reserveX reserveY
  = Ok {| ReserveOracle.usdc := ax; ReserveOracle.tok := ay;
          ReserveOracle.tokMint := ReserveOracle.mint_of iy;
          ReserveOracle.usdcMint := ReserveOracle.mint_of ix |}.
Proof.
  intros Hax Hay Hix Hiy HX HY Hdec. unfold ReserveOracle.poolReserves.
  rewrite Hax, Hay, Hix, Hiy. cbn [bind].
  now rewrite classify_equal_decimals.
Qed.

Lemma ambiguous_reserves_default_to_x_witness :
  ReserveOracle.poolReserves Fixtures.ambiguous_pool Fixtures.RESERVE_X Fixtures.RESERVE_Y
  = Ok {| ReserveOracle.usdc := Chain.to_balance {| Chain.raw_amount := 2000000000000; Chain.raw_decimals := 9 |};
          ReserveOracle.tok := Chain.to_balance {| Chain.raw_amount := 500000000000; Chain.raw_decimals := 9 |};
          ReserveOracle.tokMint := Some Fixtures.BONK_MINT;
          ReserveOracle.usdcMint := Some Fixtures.WSOL_MINT |}.
Proof.
  apply (ambiguous_reserves_default_to_x Fixtures.ambiguous_pool
           Fixtures.RESERVE_X Fixtures.RESERVE_Y _ _
           (Some {| Chain.info_mint := Some Fixtures.WSOL_MINT |})
           (Some {| Chain.info_mint := Some Fixtures.BONK_MINT |}));
    try reflexivity; cbn; discriminate.
Defined.

(** C1 (as stated) does not hold: a pool of two 9-decimals tokens, neither
    of them USDC, is priced without any error. *)
Lemma ambiguous_reserves_do_not_fail :
  ReserveOracle.mint_of (Some {| Chain.info_mint := Some Fixtures.WSOL_MINT |}) <> Some Chain.USDC_MINT
  /\ ReserveOracle.mint_of (Some {| Chain.info_mint := Some Fixtures.BONK_MINT |}) <> Some Chain.USDC_MINT
  /\ ~ fails (ReserveOracle.poolReserves Fixtures.ambiguous_pool
                Fixtures.RESERVE_X Fixtures.RESERVE_Y)
  /\ ~ fails (ReserveOracle.priceAndFDVFromReserves Fixtures.ambiguous_pool
                Fixtures.BONK_MINT Fixtures.RESERVE_X Fixtures.RESERVE_Y).
Proof.
  repeat split; try (cbn; discriminate);
    intros [e He]; vm_compute in He; discriminate.
Qed.

Lemma poolReserves_ui_scaled (P : Chain.provider) (reserveX reserveY : string)
    (r : ReserveOracle.reserves) :
  ReserveOracle.poolReserves P reserveX reserveY = Ok r ->
  Chain.ui (ReserveOracle.usdc r)
  = Chain.uiFromRaw (Chain.amount (ReserveOracle.usdc r)) (Chain.decimals (ReserveOracle.usdc r))
  /\ Chain.ui (ReserveOracle.tok r)
     = Chain.uiFromRaw (Chain.amount (ReserveOracle.tok r)) (Chain.decimals (ReserveOracle.tok r)).
Proof.
  unfold ReserveOracle.poolReserves, Chain.getTokenAccountBalance, Chain.getAccountInfoParsed.
  destruct (Chain.rpc_getTokenAccountBalance P reserveX) as [vx|]; [|discriminate].
  destruct (Chain.rpc_getTokenAccountBalance P reserveY) as [vy|]; [|discriminate].
  destruct (Chain.rpc_getAccountInfo P reserveX) as [ix|]; [|discriminate].
  destruct (Chain.rpc_getAccountInfo P reserveY) as [iy|]; [|discriminate].
  cbn [bind]. intros H. injection H as <-. unfold ReserveOracle.classify.
  repeat match goal with |- context [if ?b then _ else _] => destruct b end;
    cbn; split; reflexivity.
Qed.

(** C6: with both classified balances positive, the price is quote ui over
    base ui and the FDV is the price times the ui supply, every ui value
    being the raw amount over 10^decimals; a raw supply of 1_000_000_000 at
    6 decimals with reserves of 5000 and 100 ui gives 50 and 50000. *)
Theorem price_and_fdv_from_reserves (P : Chain.provider) (tokenMint reserveX reserveY : string)
    (r : ReserveOracle.reserves) (sup : Chain.balance) :
  ReserveOracle.poolReserves P reserveX reserveY = Ok r ->
  Chain.getMintSupply P tokenMint = Ok sup ->
  (0 < Chain.ui (ReserveOracle.usdc r))%Q ->
  (0 < Chain.ui (ReserveOracle.tok r))%Q ->
  exists out,
    ReserveOracle.priceAndFDVFromReserves P tokenMint reserveX reserveY = Ok out
    /\ ReserveOracle.price_usd out
       = (Chain.ui (ReserveOracle.usdc r) / Chain.ui (ReserveOracle.tok r))%Q
    /\ ReserveOracle.fdv_usd out = (ReserveOracle.price_usd out * Chain.ui sup)%Q
    /\ Chain.ui (ReserveOracle.usdc r)
       = (inject_Z (Chain.amount (ReserveOracle.usdc r))
          / inject_Z 10 ^ Chain.decimals (ReserveOracle.usdc r))%Q
    /\ Chain.ui (ReserveOracle.tok r)
       = (inject_Z (Chain.amount (ReserveOracle.tok r))
          / inject_Z 10 ^ Chain.decimals (ReserveOracle.tok r))%Q
    /\ Chain.ui sup = (inject_Z (Chain.amount sup) / inject_Z 10 ^ Chain.decimals sup)%Q
    /\ (Chain.amount sup = 1000000000 -> Chain.decimals sup = 6 ->
        (Chain.ui (ReserveOracle.usdc r) == 5000)%Q ->
        (Chain.ui (ReserveOracle.tok r) == 100)%Q ->
        (Chain.ui sup == 1000)%Q
        /\ (ReserveOracle.price_usd out == 50)%Q
        /\ (ReserveOracle.fdv_usd out == 50000)%Q).
Proof.
  intros Hr Hsup Hq Hb.
  destruct (poolReserves_ui_scaled _ _ _ _ Hr) as [Hu Ht].
  assert (Hs : Chain.ui sup = Chain.uiFromRaw (Chain.amount sup) (Chain.decimals sup)).
  { unfold Chain.getMintSupply in Hsup.
    destruct (Chain.assertPubkey tokenMint); [|discriminate].
    destruct (Chain.rpc_getTokenSupply P tokenMint); [|discriminate].
    cbn in Hsup. injection Hsup as <-. reflexivity. }
  unfold ReserveOracle.priceAndFDVFromReserves. rewrite Hr. cbn [bind].
  apply Qleb_false_iff in Hq, Hb. rewrite Hq, Hb. cbn [orb]. rewrite Hsup. cbn [bind].
  eexists. split; [reflexivity|]. cbn.
  repeat split; try assumption; try reflexivity;
    match goal with
    | Ha : Chain.amount sup = _, Hd : Chain.decimals sup = _,
      Hu5 : (_ == 5000)%Q, Hb1 : (_ == 100)%Q |- _ =>
      rewrite ?Hu5, ?Hb1, ?Hs, ?Ha, ?Hd; reflexivity
    end.
Qed.

Lemma price_and_fdv_from_reserves_witness :
  exists out,
    ReserveOracle.priceAndFDVFromReserves Fixtures.usdc_pool
      Fixtures.TOKEN_MINT Fixtures.RESERVE_X Fixtures.RESERVE_Y = Ok out
    /\ (ReserveOracle.price_usd out == 50)%Q
    /\ (ReserveOracle.fdv_usd out == 50000)%Q
    /\ (ReserveOracle.total_supply out == 1000)%Q.
Proof.
  destruct (price_and_fdv_from_reserves Fixtures.usdc_pool
              Fixtures.TOKEN_MINT Fixtures.RESERVE_X Fixtures.RESERVE_Y
              {| ReserveOracle.usdc := Chain.to_balance {| Chain.raw_amount := 5000000000; Chain.raw_decimals := 6 |};
                 ReserveOracle.tok := Chain.to_balance {| Chain.raw_amount := 100000000; Chain.raw_decimals := 6 |};
                 ReserveOracle.tokMint := Some Fixtures.TOKEN_MINT;
                 ReserveOracle.usdcMint := Some Chain.USDC_MINT |}
              (Chain.to_balance {| Chain.raw_amount := 1000000000; Chain.raw_decimals := 6 |}))
    as (out & Hout & _ & _ & _ & _ & _ & Hex);
    [reflexivity | reflexivity | reflexivity | reflexivity |].
  exists out. split; [exact Hout|].
  destruct Hex as (Hs & Hp & Hf); [reflexivity | reflexivity | reflexivity | reflexivity |].
  repeat split; try assumption.
  vm_compute in Hout. injection Hout as <-. reflexivity.
Defined.

(** ** Sums of rationals *)

Lemma qsum_app (l1 l2 : list Q) :
  (qsum (l1 ++ l2) == qsum l1 + qsum l2)%Q.
Proof.
  induction l1 as [|x l1 IH]; cbn.
  - ring.
  - rewrite IH. ring.
Qed.

Lemma qsum_nonneg (l : list Q) :
  Forall (fun x => (0 <= x)%Q) l -> (0 <= qsum l)%Q.
Proof.
  induction 1 as [|x l Hx _ IH]; cbn.
  - apply Qle_refl.
  - lra.
Qed.

Lemma qsum_firstn_le (n : nat) (l : list Q) :
  Forall (fun x => (0 <= x)%Q) l -> (qsum (firstn n l) <= qsum l)%Q.
Proof.
  intros H. rewrite <- (firstn_skipn n l) at 2. rewrite qsum_app.
  assert (0 <= qsum (skipn n l))%Q.
  { apply qsum_nonneg. rewrite <- (firstn_skipn n l) in H.
    apply Forall_app in H. tauto. }
  lra.
Qed.

Lemma fold_left_plus_qsum {B : Type} (f : B -> Q) (l : list B) (a : Q) :
  (fold_left (fun s x => s + f x) l a == a + qsum (map f l))%Q.
Proof.
  revert a. induction l as [|x l IH]; intros a; cbn.
  - ring.
  - rewrite IH. ring.
Qed.

(** ** LiquidityAnalyzer *)

Lemma locked_loop_is_locker_sum (lockers : list string)
    (rows : list (option Chain.holder_info)) (a : Q) :
  (fold_left (Holders.locked_step lockers) rows a == a + Holders.locker_sum lockers rows)%Q.
Proof.
  revert a. unfold Holders.locker_sum, Holders.present.
  induction rows as [|[info|] rows IH]; intros a; cbn.
  - ring.
  - destruct (Holders.includes lockers (Chain.owner info)); rewrite IH;
      cbn [map qsum]; ring.
  - apply IH.
Qed.

(** C7: once the three reads have resolved, [lpLockedPercent] returns; the
    percentage is 0 when the LP supply is 0, and the locker-held ui balances
    over the ui supply, times 100, when the supply is positive. *)
Theorem lp_locked_percent_division_safe (P : Chain.provider) (lpMint : string)
    (lockerOwners : list string) (v1 v2 : list (option Chain.holder_info))
    (sup : Chain.balance) :
  Chain.getProgramAccountsByMint P lpMint Chain.TOKEN_PROGRAM = Ok v1 ->
  Chain.getProgramAccountsByMint P lpMint Chain.TOKEN_2022_PROGRAM = Ok v2 ->
  Chain.getMintSupply P lpMint = Ok sup ->
  exists out,
    Holders.lpLockedPercent P lpMint lockerOwners = Ok out
    /\ ((Chain.ui sup == 0)%Q -> Holders.locked_pct out = 0%Q)
    /\ ((0 < Chain.ui sup)%Q ->
        (Holders.locked_pct out
         == Holders.locker_sum lockerOwners (v1 ++ v2) / Chain.ui sup * 100)%Q).
Proof.
  intros H1 H2 Hs. unfold Holders.lpLockedPercent.
  rewrite (getMintSupply_valid _ _ _ Hs), H1, H2, Hs. cbn [bind].
  eexists. split; [reflexivity|]. cbn [Holders.locked_pct]. split; intros Hsup.
  - apply truthy_false_iff in Hsup. now rewrite Hsup.
  - assert (Ht : truthy (Chain.ui sup) = true) by (apply truthy_true_iff; lra).
    rewrite Ht, locked_loop_is_locker_sum.
    setoid_replace (0 + Holders.locker_sum lockerOwners (v1 ++ v2))%Q
      with (Holders.locker_sum lockerOwners (v1 ++ v2)) by ring.
    reflexivity.
Qed.

Lemma lp_locked_percent_division_safe_witness :
  (exists out,
      Holders.lpLockedPercent Fixtures.burnt_lp Fixtures.LP_MINT [Fixtures.LOCKER] = Ok out
      /\ Holders.locked_pct out = 0%Q)
  /\ (exists out,
      Holders.lpLockedPercent Fixtures.locked_lp Fixtures.LP_MINT [Fixtures.LOCKER] = Ok out
      /\ (Holders.locked_pct out == 25)%Q).
Proof.
  split.
  - destruct (lp_locked_percent_division_safe Fixtures.burnt_lp Fixtures.LP_MINT
                [Fixtures.LOCKER] [Fixtures.held Fixtures.LOCKER 0; None] []
                (Chain.to_balance {| Chain.raw_amount := 0; Chain.raw_decimals := 9 |}))
      as (out & Hout & Hzero & _); [reflexivity | reflexivity | reflexivity |].
    exists out. split; [exact Hout|]. apply Hzero. reflexivity.
  - destruct (lp_locked_percent_division_safe Fixtures.locked_lp Fixtures.LP_MINT
                [Fixtures.LOCKER]
                [Fixtures.held Fixtures.ALICE 450; Fixtures.held Fixtures.LOCKER 250;
                 None; Fixtures.held Fixtures.BOB 300] []
                (Chain.to_balance {| Chain.raw_amount := 1000000000000; Chain.raw_decimals := 9 |}))
      as (out & Hout & _ & Hpos); [reflexivity | reflexivity | reflexivity |].
    exists out. split; [exact Hout|]. rewrite Hpos; reflexivity.
Defined.

(** ** HolderAnalyzer *)

Lemma Forall_firstn {B : Type} (Q0 : B -> Prop) (n : nat) (l : list B) :
  Forall Q0 l -> Forall Q0 (firstn n l).
Proof.
  intros H. rewrite <- (firstn_skipn n l) in H. apply Forall_app in H. tauto.
Qed.

Lemma insert_desc_perm (x : Holders.item) (l : list Holders.item) :
  Permutation (Holders.insert_desc x l) (x :: l).
Proof.
  induction l as [|y l IH]; cbn [Holders.insert_desc]; [reflexivity|].
  destruct (Qgtb (Holders.it_ui y) (Holders.it_ui x)); [|reflexivity].
  rewrite IH. apply perm_swap.
Qed.

Lemma sort_desc_perm (l : list Holders.item) : Permutation (Holders.sort_desc l) l.
Proof.
  induction l as [|x l IH]; cbn; [reflexivity|].
  rewrite insert_desc_perm. now constructor.
Qed.

Lemma items_loop_amounts (rows : list (option Chain.holder_info)) (acc : list Holders.item) :
  map Holders.it_ui (fold_left Holders.items_step rows acc)
  = map Holders.it_ui acc
    ++ filter (fun u => Qgtb u 0) (map Holders.ui_of (Holders.present rows)).
Proof.
  revert acc. unfold Holders.present.
  induction rows as [|[info|] rows IH]; intros acc; cbn [fold_left flat_map map filter app].
  - now rewrite app_nil_r.
  - rewrite IH. cbn [Holders.items_step].
    destruct (Qgtb (Holders.ui_of info) 0); [|reflexivity].
    rewrite map_app, <- app_assoc. reflexivity.
  - apply IH.
Qed.

Lemma rank_from_pcts (s : Q) (i : Z) (l : list Holders.item) :
  truthy s = true ->
  map Holders.pct_of_supply (Holders.rank_from s i l)
  = map (fun u => (u / s * inject_Z 100)%Q) (map Holders.it_ui l).
Proof.
  intros Hs. revert i. induction l as [|x l IH]; intros i; cbn [Holders.rank_from map].
  - reflexivity.
  - rewrite IH. cbn [Holders.pct_of_supply]. now rewrite Hs.
Qed.

Lemma pct_bounds (u s t : Q) :
  (0 < s)%Q -> (0 <= u)%Q -> (u <= t)%Q -> (t <= s)%Q ->
  (0 <= u / s * inject_Z 100)%Q /\ (u / s * inject_Z 100 <= 100)%Q.
Proof.
  intros Hs Hu Hut Hts.
  assert (H0 : (0 <= u / s)%Q) by (apply Qle_shift_div_l; [assumption|lra]).
  assert (H1 : (u / s <= 1)%Q) by (apply Qle_shift_div_r; [assumption|lra]).
  change (inject_Z 100) with 100%Q. split; lra.
Qed.

Lemma pct_nonneg (u s : Q) :
  (0 < s)%Q -> (0 <= u)%Q -> (0 <= u / s * inject_Z 100)%Q.
Proof.
  intros Hs Hu.
  assert (H0 : (0 <= u / s)%Q) by (apply Qle_shift_div_l; [assumption|lra]).
  change (inject_Z 100) with 100%Q. lra.
Qed.

(* The top-1 share is the first term of the top-10 sum, and the terms are
   non-negative. *)
Lemma concentration_order (top : list Holders.ranked) :
  Forall (fun y => (0 <= y)%Q) (map Holders.pct_of_supply top) ->
  let top1 := or_default (option_map Holders.pct_of_supply (hd_error top)) 0 in
  let top10 := fold_left (fun s x => (s + Holders.pct_of_supply x)%Q) (firstn 10 top) 0%Q in
  (0 <= top1)%Q /\ (top1 <= top10)%Q.
Proof.
  intros Hnn top1 top10.
  assert (H10 : (top10 == qsum (firstn 10 (map Holders.pct_of_supply top)))%Q).
  { unfold top10. rewrite fold_left_plus_qsum, firstn_map. ring. }
  unfold top1. destruct top as [|e top']; cbn [hd_error option_map or_default].
  - rewrite H10. cbn. lra.
  - assert (Hp : (0 <= Holders.pct_of_supply e)%Q) by (inversion Hnn; assumption).
    assert (Hr : (0 <= qsum (firstn 9 (map Holders.pct_of_supply top')))%Q).
    { apply qsum_nonneg. apply Forall_firstn. now inversion Hnn. }
    rewrite H10. cbn [map]. rewrite (firstn_cons 9). cbn [qsum].
    destruct (truthy (Holders.pct_of_supply e)); lra.
Qed.

Lemma qsum_le_each (c : Q) (l : list Q) :
  Forall (fun y => (y <= c)%Q) l -> (qsum l <= c * inject_Z (Z.of_nat (List.length l)))%Q.
Proof.
  induction 1 as [|y l Hy Hl IH]; cbn [qsum List.length].
  - change (inject_Z (Z.of_nat 0)) with 0%Q. lra.
  - rewrite Nat2Z.inj_succ, <- Z.add_1_r, inject_Z_plus.
    change (inject_Z 1) with 1%Q. lra.
Qed.

(* With every share at most 100, so are the top-1 share and the average of
   the shares the top-10 sum adds. *)
Lemma concentration_cap (top : list Holders.ranked) :
  Forall (fun y => (y <= 100)%Q) (map Holders.pct_of_supply top) ->
  let top1 := or_default (option_map Holders.pct_of_supply (hd_error top)) 0 in
  let top10 := fold_left (fun s x => (s + Holders.pct_of_supply x)%Q) (firstn 10 top) 0%Q in
  (top1 <= 100)%Q
  /\ (top10 <= 100 * inject_Z (Z.of_nat (List.length (firstn 10 top))))%Q.
Proof.
  intros Hle top1 top10. split.
  - unfold top1. destruct top as [|e top']; cbn [hd_error option_map or_default].
    + lra.
    + inversion Hle; subst. destruct (truthy (Holders.pct_of_supply e)); lra.
  - assert (H10 : (top10 == qsum (map Holders.pct_of_supply (firstn 10 top)))%Q).
    { unfold top10. rewrite fold_left_plus_qsum. ring. }
    rewrite H10.
    rewrite <- (length_map Holders.pct_of_supply (firstn 10 top)).
    apply qsum_le_each. rewrite <- firstn_map. now apply Forall_firstn.
Qed.

(** C8 (as amended): with a positive ui supply, the top-1 share lies between
    0 and the top-10 share and no listed share is negative; when moreover no
    account of the listing holds more than the supply, every listed share
    and the top-1 share are at most 100, and the top-10 share is at most 100
    times the number of entries it adds up.  The top-10 share itself has no
    bound of 100. *)
Theorem concentration_bounds (P : Chain.provider) (mint : string) (limit : nat)
    (v1 v2 : list (option Chain.holder_info)) (sup : Chain.balance) :
  Chain.getProgramAccountsByMint P mint Chain.TOKEN_PROGRAM = Ok v1 ->
  Chain.getProgramAccountsByMint P mint Chain.TOKEN_2022_PROGRAM = Ok v2 ->
  Chain.getMintSupply P mint = Ok sup ->
  (0 < Chain.ui sup)%Q ->
  exists o,
    Holders.topHolders P mint limit = Ok o
    /\ (0 <= Holders.concentration_top1_pct o)%Q
    /\ (Holders.concentration_top1_pct o <= Holders.concentration_top10_pct o)%Q
    /\ Forall (fun e => (0 <= Holders.pct_of_supply e)%Q) (Holders.top o)
    /\ (Forall (fun u => (u <= Chain.ui sup)%Q)
          (map Holders.ui_of (Holders.present (v1 ++ v2))) ->
        (Holders.concentration_top1_pct o <= 100)%Q
        /\ Forall (fun e => (Holders.pct_of_supply e <= 100)%Q) (Holders.top o)
        /\ (Holders.concentration_top10_pct o
            <= 100 * inject_Z (Z.of_nat (List.length (firstn 10 (Holders.top o)))))%Q).
Proof.
  intros H1 H2 Hs Hpos. unfold Holders.topHolders.
  rewrite (getMintSupply_valid _ _ _ Hs), H1, H2, Hs. cbn [bind].
  eexists. split; [reflexivity|].
  cbn [Holders.concentration_top1_pct Holders.concentration_top10_pct Holders.top].
  set (items := fold_left Holders.items_step (v1 ++ v2) []).
  set (chosen := firstn limit (Holders.sort_desc items)).
  assert (Ht : truthy (Chain.ui sup) = true) by (apply truthy_true_iff; lra).
  assert (Hamounts : map Holders.it_ui items
                     = filter (fun u => Qgtb u 0)
                         (map Holders.ui_of (Holders.present (v1 ++ v2))))
    by (unfold items; now rewrite items_loop_amounts).
  assert (Hkeep : forall (R : Q -> Prop),
             Forall R (map Holders.it_ui items) -> Forall R (map Holders.it_ui chosen)).
  { intros R HR. unfold chosen. rewrite <- firstn_map. apply Forall_firstn.
    eapply Permutation_Forall; [|exact HR].
    apply Permutation_map, Permutation_sym, sort_desc_perm. }
  assert (Hchosen : Forall (fun y => (0 <= y)%Q) (map Holders.it_ui chosen)).
  { apply Hkeep. rewrite Hamounts. apply Forall_forall. intros u Hu.
    apply filter_In in Hu. destruct Hu as [_ Hu]. apply Qgtb_iff in Hu. lra. }
  assert (Hnn : Forall (fun y => (0 <= y)%Q)
                  (map Holders.pct_of_supply (Holders.rank_from (Chain.ui sup) 0 chosen))).
  { rewrite rank_from_pcts by assumption. apply Forall_forall. intros y Hy.
    apply in_map_iff in Hy. destruct Hy as (u & <- & Hu).
    rewrite Forall_forall in Hchosen.
    apply pct_nonneg; auto. }
  destruct (concentration_order _ Hnn) as [H0 Hord].
  split; [exact H0|]. split; [exact Hord|]. split.
  { apply Forall_forall. intros e He. rewrite Forall_forall in Hnn.
    apply Hnn. now apply in_map. }
  intros Hcap.
  assert (Hle : Forall (fun y => (y <= 100)%Q)
                  (map Holders.pct_of_supply (Holders.rank_from (Chain.ui sup) 0 chosen))).
  { assert (Hc : Forall (fun u => (u <= Chain.ui sup)%Q) (map Holders.it_ui chosen)).
    { apply Hkeep. rewrite Hamounts. apply Forall_forall. intros u Hu.
      apply filter_In in Hu. destruct Hu as [Hu _].
      rewrite Forall_forall in Hcap. now apply Hcap. }
    rewrite rank_from_pcts by assumption. apply Forall_forall. intros y Hy.
    apply in_map_iff in Hy. destruct Hy as (u & <- & Hu).
    rewrite Forall_forall in Hchosen, Hc.
    apply (pct_bounds u (Chain.ui sup) (Chain.ui sup)); auto; lra. }
  destruct (concentration_cap _ Hle) as [Hc1 Hc10].
  split; [exact Hc1|]. split; [|exact Hc10].
  apply Forall_forall. intros e He. rewrite Forall_forall in Hle.
  apply Hle. now apply in_map.
Qed.

Lemma concentration_bounds_witness :
  exists o,
    Holders.topHolders Fixtures.three_holders Fixtures.TOKEN_MINT 2 = Ok o
    /\ (0 <= Holders.concentration_top1_pct o)%Q
    /\ (Holders.concentration_top1_pct o <= Holders.concentration_top10_pct o)%Q
    /\ (Holders.concentration_top1_pct o <= 100)%Q
    /\ Forall (fun e => (0 <= Holders.pct_of_supply e)%Q /\ (Holders.pct_of_supply e <= 100)%Q)
         (Holders.top o)
    /\ (Holders.concentration_top10_pct o <= 100 * 2)%Q.
Proof.
  destruct (concentration_bounds Fixtures.three_holders Fixtures.TOKEN_MINT 2
              [Fixtures.held Fixtures.BOB 300; Fixtures.held Fixtures.ALICE 600;
               Fixtures.held Fixtures.CAROL 100] []
              (Chain.to_balance {| Chain.raw_amount := 1000000000; Chain.raw_decimals := 6 |})
              eq_refl eq_refl eq_refl eq_refl)
    as (o & Hrun & H0 & Hord & Hnn & Hcap).
  destruct Hcap as (Hc1 & Hle & Hc10).
  { repeat constructor; apply Qle_bool_iff; reflexivity. }
  exists o. split; [exact Hrun|]. split; [exact H0|]. split; [exact Hord|].
  split; [exact Hc1|]. split.
  - rewrite Forall_forall in *. intros e He. split; [now apply Hnn|now apply Hle].
  - vm_compute in Hrun. injection Hrun as <-. exact Hc10.
Defined.

Example top_holders_end_to_end :
  exists o,
    Holders.topHolders Fixtures.three_holders Fixtures.TOKEN_MINT 2 = Ok o
    /\ map (fun e => (Holders.rank e, Holders.r_owner e)) (Holders.top o)
       = [(1, Fixtures.ALICE); (2, Fixtures.BOB)]
    /\ Forall2 (fun e p => (Holders.r_amount e == fst p)%Q /\ (Holders.pct_of_supply e == snd p)%Q)
         (Holders.top o) [(600, 60); (300, 30)]%Q
    /\ (Holders.concentration_top1_pct o == 60)%Q
    /\ (Holders.concentration_top10_pct o == 90)%Q
    /\ Holders.total_accounts o = 3.
Proof.
  eexists. split; [reflexivity|]. cbn -[Qeq].
  repeat split; repeat constructor; reflexivity.
Qed.

(* The top-10 share has no bound of 100 even when the accounts hold exactly
   the supply: in the doubles of the source nine equal shares of a supply of
   9 add up to 100.00000000000001. *)
Remark nine_equal_shares_round_up :
  Holders.top10_binary64 9%float (repeat 1%float 9) = 0x1.9000000000001p+6%float
  /\ PrimFloat.ltb 100%float (Holders.top10_binary64 9%float (repeat 1%float 9)) = true.
Proof. split; reflexivity. Qed.

(** C8 (as stated) does not hold: nothing ties the account list to the supply
    read; with one account of 600 ui and a reported supply of 100 ui every
    share is 600. *)
Lemma stale_accounts_exceed_100 :
  exists o,
    Holders.topHolders Fixtures.stale_accounts Fixtures.TOKEN_MINT 20 = Ok o
    /\ (0 < Holders.supply o)%Q
    /\ Holders.total_accounts o = 1
    /\ (Holders.concentration_top10_pct o == 600)%Q
    /\ ~ Holders.concentration_bounded o.
Proof.
  eexists. split; [reflexivity|]. repeat split.
  intros (_ & _ & H & _). vm_compute in H. apply H. reflexivity.
Qed.

(** ** RiskScorer *)

Lemma threshold_score (c : bool) (p : Q) (r : string) (s : Scorer.score_result) :
  (Scorer.score (Scorer.threshold c p r s) == Scorer.score s + (if c then p else 0))%Q.
Proof. destruct c; cbn; ring. Qed.

Lemma bonus_score (c : bool) (p : Q) (s : Scorer.score_result) :
  (Scorer.score (Scorer.bonus c p s) == Scorer.score s + (if c then p else 0))%Q.
Proof. destruct c; cbn; ring. Qed.

Lemma threshold_reasons (c : bool) (p : Q) (r : string) (s : Scorer.score_result) :
  Scorer.reasons (Scorer.threshold c p r s) = Scorer.reasons s ++ (if c then [] else [r]).
Proof. destruct c; cbn; now rewrite ?app_nil_r. Qed.

Lemma bonus_reasons (c : bool) (p : Q) (s : Scorer.score_result) :
  Scorer.reasons (Scorer.bonus c p s) = Scorer.reasons s.
Proof. now destruct c. Qed.

Lemma if_same {B : Type} (b : bool) (x : B) : (if b then x else x) = x.
Proof. now destruct b. Qed.

(** C2 (as amended): every satisfied criterion adds base points times weight
    to the score and every unsatisfied criterion adds nothing; an unsatisfied
    threshold criterion (LP providers, LP locked, top-1, top-10, traders)
    appends its fixed reason, in source order, while the VIP, revival, age
    and FDV/market-cap criteria never append one. *)
Theorem score_token_criteria (i : Scorer.inputs) :
  (Scorer.score (Scorer.scoreToken i) == Scorer.spec_score (Scorer.criteria i))%Q
  /\ Scorer.reasons (Scorer.scoreToken i) = Scorer.spec_reasons (Scorer.criteria i)
  /\ map Scorer.reason (Scorer.criteria i)
     = [Some "LP providers below threshold"; Some "LP locked pct low";
        Some "Top1 concentration high"; Some "Top10 concentration high";
        Some "Low traders 24h"; None; None; None; None]%string.
Proof.
  unfold Scorer.scoreToken, Scorer.criteria, Scorer.spec_score, Scorer.spec_reasons.
  cbv zeta. split; [|split; [|reflexivity]].
  - rewrite !bonus_score, !threshold_score.
    cbn [map qsum Scorer.score]. unfold Scorer.points.
    cbn [Scorer.satisfied Scorer.base_points Scorer.weight].
    ring.
  - rewrite !bonus_reasons, !threshold_reasons.
    cbn [flat_map Scorer.satisfied Scorer.reason Scorer.reasons]. rewrite !if_same.
    destruct (Scorer.lpCount_ok i), (Scorer.lpLocked_ok i), (Scorer.top1_ok i),
      (Scorer.top10_ok i), (Scorer.traders_ok i); reflexivity.
Qed.

Example score_end_to_end :
  Scorer.reasons (Scorer.scoreToken Fixtures.perfect_token) = []
  /\ (Scorer.score (Scorer.scoreToken Fixtures.perfect_token) == 78)%Q.
Proof. split; reflexivity. Qed.

(** C2 (as stated) does not hold: a token that meets the five thresholds but
    has no VIP hit, no revival and too old an age leaves three criteria
    unsatisfied and gets no reason at all. *)
Lemma unsatisfied_bonus_criteria_give_no_reason :
  Scorer.unsatisfied Fixtures.healthy_token = 3%nat
  /\ Scorer.vip_ok Fixtures.healthy_token = false
  /\ Scorer.reasons (Scorer.scoreToken Fixtures.healthy_token) = []
  /\ List.length (Scorer.reasons (Scorer.scoreToken Fixtures.healthy_token))
     <> Scorer.unsatisfied Fixtures.healthy_token.
Proof.
  repeat split. vm_compute. discriminate.
Qed.

Lemma fdvToMc_ok_absent (i : Scorer.inputs) :
  Scorer.fdvToMc_ok (Scorer.with_fdvToMc i None) = true.
Proof. reflexivity. Qed.

Lemma fdvToMc_ok_two (i : Scorer.inputs) :
  Scorer.fdvToMc_ok (Scorer.with_fdvToMc i (Some 2%Q)) = false.
Proof. reflexivity. Qed.

Lemma fdvToMc_ok_supplied (i : Scorer.inputs) (r : Q) :
  ~ (r == 0)%Q ->
  Scorer.fdvToMc_ok (Scorer.with_fdvToMc i (Some r)) = true
  <-> ((9 # 10) <= r)%Q /\ (r <= (11 # 10))%Q.
Proof.
  intros Hr. apply truthy_true_iff in Hr.
  unfold Scorer.fdvToMc_ok. cbn [Scorer.fdvToMc Scorer.with_fdvToMc or_default].
  rewrite Hr, andb_true_iff, Qgeb_iff, Qleb_iff. reflexivity.
Qed.

Lemma with_fdvToMc_same (i : Scorer.inputs) : Scorer.with_fdvToMc i (Scorer.fdvToMc i) = i.
Proof. now destruct i. Qed.

(* The last [if] is the only one that looks at the ratio. *)
Lemma fdv_bonus_is_last_award (i : Scorer.inputs) :
  (Scorer.fdv_bonus i
   == if Scorer.fdvToMc_ok i then 4 * Scorer.w_fdvToMc (Scorer.weights_of i) else 0)%Q.
Proof.
  pose proof (fdvToMc_ok_two i) as Htwo.
  unfold Scorer.fdv_bonus, Scorer.scoreToken. rewrite Htwo.
  change (Scorer.weights_of (Scorer.with_fdvToMc i (Some 2%Q))) with (Scorer.weights_of i).
  change (Scorer.lpCount_ok (Scorer.with_fdvToMc i (Some 2%Q))) with (Scorer.lpCount_ok i).
  change (Scorer.lpLocked_ok (Scorer.with_fdvToMc i (Some 2%Q))) with (Scorer.lpLocked_ok i).
  change (Scorer.top1_ok (Scorer.with_fdvToMc i (Some 2%Q))) with (Scorer.top1_ok i).
  change (Scorer.top10_ok (Scorer.with_fdvToMc i (Some 2%Q))) with (Scorer.top10_ok i).
  change (Scorer.traders_ok (Scorer.with_fdvToMc i (Some 2%Q))) with (Scorer.traders_ok i).
  change (Scorer.vip_ok (Scorer.with_fdvToMc i (Some 2%Q))) with (Scorer.vip_ok i).
  change (Scorer.revival_ok (Scorer.with_fdvToMc i (Some 2%Q))) with (Scorer.revival_ok i).
  change (Scorer.age_ok (Scorer.with_fdvToMc i (Some 2%Q))) with (Scorer.age_ok i).
  cbv zeta.
  match goal with
  | |- context [Scorer.bonus (Scorer.fdvToMc_ok i) _ ?s] => generalize s
  end.
  intros s. unfold Scorer.bonus.
  destruct (Scorer.fdvToMc_ok i); cbn [Scorer.score Scorer.award]; ring.
Qed.

(** C5 (as amended): a supplied, non-zero ratio earns the FDV/market-cap
    bonus exactly when it lies in [0.9, 1.1]; an absent ratio counts as 1
    and earns the bonus. *)
Theorem fdv_band_bonus (i : Scorer.inputs) :
  (Scorer.fdvToMc i = None ->
   (Scorer.fdv_bonus i == 4 * Scorer.w_fdvToMc (Scorer.weights_of i))%Q)
  /\ (forall r, Scorer.fdvToMc i = Some r -> ~ (r == 0)%Q ->
        (((9 # 10) <= r)%Q /\ (r <= (11 # 10))%Q ->
         (Scorer.fdv_bonus i == 4 * Scorer.w_fdvToMc (Scorer.weights_of i))%Q)
        /\ (~ (((9 # 10) <= r)%Q /\ (r <= (11 # 10))%Q) ->
            (Scorer.fdv_bonus i == 0)%Q)).
Proof.
  split.
  - intros Hnone. rewrite fdv_bonus_is_last_award.
    rewrite <- (with_fdvToMc_same i) at 1. rewrite Hnone, fdvToMc_ok_absent. reflexivity.
  - intros r Hsome Hr.
    pose proof (fdvToMc_ok_supplied i r Hr) as Hband.
    rewrite <- Hsome, with_fdvToMc_same in Hband.
    split; intros H; rewrite fdv_bonus_is_last_award.
    + apply Hband in H. now rewrite H.
    + destruct (Scorer.fdvToMc_ok i); [|reflexivity]. exfalso. apply H, Hband. reflexivity.
Qed.

Lemma fdv_band_bonus_witness :
  (Scorer.fdv_bonus Fixtures.healthy_token == 4 * 1)%Q
  /\ (Scorer.fdv_bonus Fixtures.perfect_token == 4 * 1)%Q
  /\ (Scorer.fdv_bonus (Scorer.with_fdvToMc Fixtures.perfect_token (Some (3 # 2))) == 0)%Q.
Proof.
  split; [|split].
  - apply (fdv_band_bonus Fixtures.healthy_token). reflexivity.
  - apply (fdv_band_bonus Fixtures.perfect_token) with (r := 1%Q).
    + reflexivity.
    + discriminate.
    + split; discriminate.
  - apply (fdv_band_bonus (Scorer.with_fdvToMc Fixtures.perfect_token (Some (3 # 2))))
      with (r := (3 # 2)%Q).
    + reflexivity.
    + discriminate.
    + intros [_ H]. apply H. reflexivity.
Defined.

(** C5 (as stated) does not hold: with no ratio supplied the bonus is still
    awarded, although an absent ratio is not in the band. *)
Lemma absent_ratio_earns_bonus :
  Scorer.fdvToMc Fixtures.healthy_token = None
  /\ Scorer.in_band (Scorer.fdvToMc Fixtures.healthy_token) = false
  /\ (Scorer.fdv_bonus Fixtures.healthy_token == 4)%Q
  /\ ~ (Scorer.fdv_bonus Fixtures.healthy_token
        == if Scorer.in_band (Scorer.fdvToMc Fixtures.healthy_token)
           then 4 * Scorer.w_fdvToMc (Scorer.weights_of Fixtures.healthy_token)
           else 0)%Q.
Proof.
  repeat split. vm_compute. discriminate.
Qed.

(* A supplied ratio of 0 is falsy, so it is read as 1 as well. *)
Example zero_ratio_earns_bonus :
  (Scorer.fdv_bonus (Scorer.with_fdvToMc Fixtures.healthy_token (Some 0%Q)) == 4)%Q.
Proof. reflexivity. Qed.

(** ** Objects keyed by numbers *)

Lemma Qeq_bool_congr (k k' x : Q) : (k == k')%Q -> Qeq_bool k x = Qeq_bool k' x.
Proof.
  intros H. destruct (Qeq_bool k x) eqn:E1, (Qeq_bool k' x) eqn:E2; try reflexivity.
  - apply Qeq_bool_iff in E1. rewrite H in E1. apply Qeq_bool_iff in E1. congruence.
  - apply Qeq_bool_iff in E2. rewrite <- H in E2. apply Qeq_bool_iff in E2. congruence.
Qed.

Lemma Qeq_bool_swap (a b : Q) : Qeq_bool a b = Qeq_bool b a.
Proof.
  destruct (Qeq_bool a b) eqn:E1, (Qeq_bool b a) eqn:E2; try reflexivity.
  - apply Qeq_bool_iff, Qeq_sym, Qeq_bool_iff in E1. congruence.
  - apply Qeq_bool_iff, Qeq_sym, Qeq_bool_iff in E2. congruence.
Qed.

Lemma Qleb_congr (d k k' : Q) : (k == k')%Q -> Qleb d k = Qleb d k'.
Proof.
  intros H. unfold Qleb.
  destruct (Qle_bool d k) eqn:E1, (Qle_bool d k') eqn:E2; try reflexivity.
  - apply Qle_bool_iff in E1. rewrite H in E1. apply Qle_bool_iff in E1. congruence.
  - apply Qle_bool_iff in E2. rewrite <- H in E2. apply Qle_bool_iff in E2. congruence.
Qed.

Section ObjFacts.
Context {V : Type}.
Implicit Types (o : list (Q * V)) (k : Q).

Lemma obj_get_congr k k' o : (k == k')%Q -> Obj.get k o = Obj.get k' o.
Proof.
  intros H. induction o as [|[x v] o IH]; cbn [Obj.get]; [reflexivity|].
  now rewrite (Qeq_bool_congr k k' x H), IH.
Qed.

Lemma obj_get_set k k' (v : V) o :
  Obj.get k (Obj.set k' v o) = if Qeq_bool k k' then Some v else Obj.get k o.
Proof.
  induction o as [|[x u] o IH]; cbn [Obj.get Obj.set].
  - reflexivity.
  - destruct (Qeq_bool k' x) eqn:E; cbn [Obj.get].
    + apply Qeq_bool_iff in E. rewrite <- (Qeq_bool_swap x k), <- (Qeq_bool_congr _ _ k E).
      rewrite (Qeq_bool_swap k' k). now destruct (Qeq_bool k k').
    + rewrite IH. destruct (Qeq_bool k x) eqn:Ex, (Qeq_bool k k') eqn:Ek; try reflexivity.
      apply Qeq_bool_iff in Ex, Ek. rewrite Ek in Ex. apply Qeq_bool_iff in Ex. congruence.
Qed.

Lemma obj_get_update k k' (f : V -> V) o :
  Obj.get k (Obj.update k' f o)
  = if Qeq_bool k k' then option_map f (Obj.get k o) else Obj.get k o.
Proof.
  unfold Obj.update. destruct (Obj.get k' o) as [v|] eqn:E.
  - rewrite obj_get_set. destruct (Qeq_bool k k') eqn:Ek; [|reflexivity].
    apply Qeq_bool_iff in Ek. now rewrite (obj_get_congr _ _ o Ek), E.
  - destruct (Qeq_bool k k') eqn:Ek; [|reflexivity].
    apply Qeq_bool_iff in Ek. now rewrite (obj_get_congr _ _ o Ek), E.
Qed.

End ObjFacts.

(** ** ActivityAggregator: nested windows *)

Lemma volume_steps_cell (l : list Chain.transfer) (c : Activity.cell) :
  Activity.tx_count (fold_left Activity.volume_step l c) = Activity.tx_count c
  /\ (Activity.volume_usdc (fold_left Activity.volume_step l c)
      == Activity.volume_usdc c
         + qsum (map Activity.leg_amount
                           (filter (fun t => ReserveOracle.is_usdc (Chain.t_mint t)) l)))%Q.
Proof.
  revert c. induction l as [|t l IH]; intros c; cbn [fold_left filter].
  - cbn. split; [reflexivity|ring].
  - destruct (IH (Activity.volume_step c t)) as [Htx Hvol]. rewrite Htx, Hvol.
    unfold Activity.volume_step.
    destruct (ReserveOracle.is_usdc (Chain.t_mint t)); cbn; split; try reflexivity; ring.
Qed.

Lemma bump_tx (it : Chain.tx) (c : Activity.cell) :
  Activity.tx_count (Activity.bump it c) = Activity.tx_count c + 1.
Proof.
  unfold Activity.bump. now rewrite (proj1 (volume_steps_cell _ _)).
Qed.

Lemma bump_volume (it : Chain.tx) (c : Activity.cell) :
  (Activity.volume_usdc (Activity.bump it c)
   == Activity.volume_usdc c + Activity.usdc_volume it)%Q.
Proof.
  unfold Activity.bump. now rewrite (proj2 (volume_steps_cell _ _)).
Qed.

Lemma usdc_volume_nonneg (it : Chain.tx) : (0 <= Activity.usdc_volume it)%Q.
Proof.
  unfold Activity.usdc_volume. apply qsum_nonneg, Forall_forall.
  intros x Hx. apply in_map_iff in Hx. destruct Hx as (t & <- & _).
  apply Qabs_nonneg.
Qed.

Lemma counted_mono (now : Z) (it : Chain.tx) (a b : Q) :
  (a <= b)%Q -> Activity.counted now it a = true -> Activity.counted now it b = true.
Proof.
  unfold Activity.counted. destruct (Chain.blockTime it) as [ts|]; [|discriminate].
  rewrite !andb_true_iff, !Qleb_iff. intros Hab [Hts Ha]. split; [assumption|lra].
Qed.

Lemma has_key_In (w : Q) (ws : list Q) : In w ws -> Activity.has_key w ws = true.
Proof.
  intros H. apply existsb_exists. exists w. split; [assumption|].
  apply Qeq_bool_iff. reflexivity.
Qed.

Lemma has_key_InA (k : Q) (ws : list Q) : Activity.has_key k ws = true <-> InA Qeq k ws.
Proof.
  unfold Activity.has_key. rewrite existsb_exists, InA_alt.
  split; intros (w & H1 & H2); exists w.
  - split; [now apply Qeq_bool_iff|assumption].
  - split; [assumption|now apply Qeq_bool_iff].
Qed.

Section WindowFacts.
Variable now : Z.
Variable ws : list Q.
Hypothesis ws_distinct : NoDupA Qeq ws.

Lemma legs_touch_one_cell (w : Q) (l : list Chain.transfer)
    (st : Activity.results_t * Activity.actor_sets_t) (k : Q) :
  Obj.get k (fst (fold_left (Activity.leg_step w) l st))
  = if Qeq_bool k w
    then option_map (fun c => fold_left Activity.volume_step l c) (Obj.get k (fst st))
    else Obj.get k (fst st).
Proof.
  revert st. induction l as [|t l IH]; intros st; cbn [fold_left].
  - destruct (Qeq_bool k w); [|reflexivity]. now destruct (Obj.get k (fst st)).
  - rewrite IH.
    assert (Hfst : fst (Activity.leg_step w st t)
                   = if ReserveOracle.is_usdc (Chain.t_mint t)
                     then Obj.update w (Activity.add_volume (Activity.leg_amount t)) (fst st)
                     else fst st) by reflexivity.
    rewrite Hfst. clear Hfst IH.
    destruct (Qeq_bool k w) eqn:Ek;
      destruct (ReserveOracle.is_usdc (Chain.t_mint t)) eqn:Eu;
      rewrite ?obj_get_update, ?Ek; try reflexivity;
      destruct (Obj.get k (fst st)); cbn [option_map]; try reflexivity;
      do 2 f_equal; unfold Activity.volume_step; now rewrite Eu.
Qed.

Lemma window_touches_one_cell (dtMin : Q) (it : Chain.tx)
    (st : Activity.results_t * Activity.actor_sets_t) (w k : Q) :
  Obj.get k (fst (Activity.window_step dtMin it st w))
  = if Qleb dtMin w && Qeq_bool k w
    then option_map (Activity.bump it) (Obj.get k (fst st))
    else Obj.get k (fst st).
Proof.
  unfold Activity.window_step. destruct (Qleb dtMin w); [|reflexivity]. cbn [andb].
  rewrite legs_touch_one_cell. cbn [fst]. rewrite obj_get_update.
  destruct (Qeq_bool k w); [|reflexivity].
  now destruct (Obj.get k (fst st)).
Qed.

Lemma windows_bump_once (dtMin : Q) (it : Chain.tx) (l : list Q) :
  NoDupA Qeq l ->
  forall (st : Activity.results_t * Activity.actor_sets_t) (k : Q),
    Obj.get k (fst (fold_left (Activity.window_step dtMin it) l st))
    = if Qleb dtMin k && Activity.has_key k l
      then option_map (Activity.bump it) (Obj.get k (fst st))
      else Obj.get k (fst st).
Proof.
  induction 1 as [|w l Hw Hl IH]; intros st k; cbn [fold_left].
  - now rewrite andb_false_r.
  - rewrite IH, window_touches_one_cell. unfold Activity.has_key. cbn [existsb].
    fold (Activity.has_key k l).
    destruct (Qeq_bool k w) eqn:Ek.
    + assert (Hk : Activity.has_key k l = false).
      { destruct (Activity.has_key k l) eqn:E; [|reflexivity].
        apply has_key_InA in E. apply Qeq_bool_iff in Ek. rewrite Ek in E. contradiction. }
      apply Qeq_bool_iff in Ek. rewrite Hk, (Qleb_congr dtMin k w Ek).
      now rewrite andb_false_r, orb_true_l.
    + now rewrite andb_false_r, orb_false_l.
Qed.

Lemma tx_bumps_counted (st : Activity.results_t * Activity.actor_sets_t)
    (it : Chain.tx) (k : Q) :
  Obj.get k (fst (Activity.tx_step now ws st it))
  = if Activity.counted now it k && Activity.has_key k ws
    then option_map (Activity.bump it) (Obj.get k (fst st))
    else Obj.get k (fst st).
Proof.
  unfold Activity.tx_step, Activity.counted.
  destruct (Chain.blockTime it) as [ts|]; [|reflexivity].
  destruct (ts =? 0); [reflexivity|]. cbn [negb andb].
  now apply windows_bump_once.
Qed.

Lemma tx_step_nested (st : Activity.results_t * Activity.actor_sets_t) (it : Chain.tx) :
  Activity.nested ws (fst st) -> Activity.nested ws (fst (Activity.tx_step now ws st it)).
Proof.
  intros Hn a b ca cb Ha Hb Hab. rewrite !tx_bumps_counted, Ha, Hb, !andb_true_r.
  pose proof (counted_mono now it a b Hab) as Hmono.
  pose proof (usdc_volume_nonneg it) as Hv.
  destruct (Obj.get a (fst st)) as [ca0|] eqn:Ea;
    [|destruct (Activity.counted now it a); discriminate].
  destruct (Obj.get b (fst st)) as [cb0|] eqn:Eb;
    [|destruct (Activity.counted now it b); discriminate].
  destruct (Hn a b ca0 cb0 Ha Hb Hab Ea Eb) as [Htx Hvol].
  destruct (Activity.counted now it a), (Activity.counted now it b);
    cbn [option_map]; intros [= <-] [= <-];
    rewrite ?bump_tx, ?bump_volume; try (split; [lia|lra]).
Qed.

Lemma tx_step_filled (st : Activity.results_t * Activity.actor_sets_t) (it : Chain.tx) :
  Activity.filled ws (fst st) -> Activity.filled ws (fst (Activity.tx_step now ws st it)).
Proof.
  intros Hf k Hk. specialize (Hf k Hk). rewrite tx_bumps_counted.
  destruct (Activity.counted now it k && Activity.has_key k ws); [|assumption].
  destruct (Obj.get k (fst st)); [discriminate|contradiction].
Qed.

Lemma page_keeps (Inv : Activity.results_t -> Prop) :
  (forall st it, Inv (fst st) -> Inv (fst (Activity.tx_step now ws st it))) ->
  forall arr st, Inv (fst st) -> Inv (fst (fold_left (Activity.tx_step now ws) arr st)).
Proof.
  intros Hstep arr. induction arr as [|it arr IH]; intros st H; cbn [fold_left]; auto.
Qed.

Lemma scan_keeps (P : Chain.provider) (Inv : Activity.results_t -> Prop) :
  (forall st it, Inv (fst st) -> Inv (fst (Activity.tx_step now ws st it))) ->
  forall addresses st st',
    Activity.scan_windows P now ws addresses st = Ok st' ->
    Inv (fst st) -> Inv (fst st').
Proof.
  intros Hstep addresses.
  induction addresses as [|addr rest IH]; intros st st'; cbn [Activity.scan_windows].
  - now intros [= <-].
  - destruct (Chain.heliusGET_history P addr) as [arr|]; cbn [bind]; [|discriminate].
    intros Hrun Hinv. eapply IH; [exact Hrun|]. now apply page_keeps.
Qed.

Lemma init_results_cells (l : list Q) (r : Activity.results_t) (k : Q) :
  Obj.get k
    (fold_left
       (fun r w => Obj.set w {| Activity.tx_count := 0; Activity.volume_usdc := 0%Q;
                                Activity.unique_actors := 0 |} r) l r)
  = if Activity.has_key k l
    then Some {| Activity.tx_count := 0; Activity.volume_usdc := 0%Q;
                 Activity.unique_actors := 0 |}
    else Obj.get k r.
Proof.
  revert r. induction l as [|w l IH]; intros r; cbn [fold_left]; [reflexivity|].
  rewrite IH, obj_get_set. unfold Activity.has_key. cbn [existsb].
  fold (Activity.has_key k l).
  now destruct (Activity.has_key k l), (Qeq_bool k w).
Qed.

Lemma init_nested : Activity.nested ws (Activity.init_results ws).
Proof.
  intros a b ca cb Ha Hb _. unfold Activity.init_results.
  rewrite !init_results_cells, Ha, Hb. intros [= <-] [= <-]. cbn. split; [lia|lra].
Qed.

Lemma init_filled : Activity.filled ws (Activity.init_results ws).
Proof.
  intros k Hk. unfold Activity.init_results. rewrite init_results_cells, Hk. discriminate.
Qed.

Lemma finish_keeps_counts (l : list Q) (sets : Activity.actor_sets_t)
    (r : Activity.results_t) (k : Q) :
  exists f : Activity.cell -> Activity.cell,
    (forall c, Activity.tx_count (f c) = Activity.tx_count c
               /\ Activity.volume_usdc (f c) = Activity.volume_usdc c)
    /\ Obj.get k (Activity.finish l (r, sets)) = option_map f (Obj.get k r).
Proof.
  unfold Activity.finish. cbn [fst snd]. revert r.
  induction l as [|w l IH]; intros r; cbn [fold_left].
  - exists (fun c => c). split; [auto|]. now destruct (Obj.get k r).
  - destruct (Obj.get w sets) as [s|]; [|apply IH].
    destruct (IH (Obj.update w (Activity.set_actors (Z.of_nat (List.length s))) r))
      as (f & Hf & Hget).
    rewrite Hget, obj_get_update. destruct (Qeq_bool k w).
    + exists (fun c => f (Activity.set_actors (Z.of_nat (List.length s)) c)).
      split; [|now destruct (Obj.get k r)].
      intros c. destruct (Hf (Activity.set_actors (Z.of_nat (List.length s)) c)) as [-> ->].
      split; reflexivity.
    + exists f. split; [assumption|reflexivity].
Qed.

End WindowFacts.

(** C4 (as amended): for pairwise distinct window lengths, a shorter
    configured window never reports more transactions or more USDC volume
    than a longer one. *)
Theorem activity_windows_nested (P : Chain.provider) (now : Z) (addresses : list string)
    (windowsMinutes : list Q) (res : Activity.results_t) (w1 w2 : Q) :
  NoDupA Qeq windowsMinutes ->
  Activity.activityWindows P now addresses windowsMinutes = Ok res ->
  In w1 windowsMinutes -> In w2 windowsMinutes -> (w1 < w2)%Q ->
  exists c1 c2,
    Obj.get w1 res = Some c1 /\ Obj.get w2 res = Some c2
    /\ Activity.tx_count c1 <= Activity.tx_count c2
    /\ (Activity.volume_usdc c1 <= Activity.volume_usdc c2)%Q.
Proof.
  intros Hnd Hrun H1 H2 Hlt. unfold Activity.activityWindows in Hrun.
  destruct (Activity.scan_windows P now windowsMinutes addresses
              (Activity.init_results windowsMinutes, Activity.init_sets windowsMinutes))
    as [[r sets]|] eqn:Hscan; cbn [bind] in Hrun; [|discriminate].
  injection Hrun as <-.
  pose proof (scan_keeps now windowsMinutes P (Activity.nested windowsMinutes)
                (tx_step_nested now windowsMinutes Hnd) _ _ _ Hscan
                (init_nested windowsMinutes)) as Hnested.
  pose proof (scan_keeps now windowsMinutes P (Activity.filled windowsMinutes)
                (tx_step_filled now windowsMinutes Hnd) _ _ _ Hscan
                (init_filled windowsMinutes)) as Hfilled.
  cbn [fst] in Hnested, Hfilled.
  apply has_key_In in H1, H2.
  destruct (finish_keeps_counts windowsMinutes sets r w1) as (f1 & Hf1 & Hg1).
  destruct (finish_keeps_counts windowsMinutes sets r w2) as (f2 & Hf2 & Hg2).
  destruct (Obj.get w1 r) as [c1|] eqn:E1; [|now apply Hfilled in H1].
  destruct (Obj.get w2 r) as [c2|] eqn:E2; [|now apply Hfilled in H2].
  exists (f1 c1), (f2 c2). rewrite Hg1, Hg2. cbn [option_map].
  destruct (Hf1 c1) as [-> ->]. destruct (Hf2 c2) as [-> ->].
  repeat split; try reflexivity; apply (Hnested w1 w2 c1 c2); auto; lra.
Qed.

Ltac distinct_keys :=
  repeat (apply NoDupA_cons;
          [ let H := fresh in
            intros H;
            repeat (inversion_clear H as [? ? H' | ? ? H']; [vm_compute in H'; discriminate|];
                    rename H' into H);
            inversion H
          | ]);
  apply NoDupA_nil.

Lemma activity_windows_nested_witness :
  exists res c1 c2,
    Activity.activityWindows Fixtures.pool_history Fixtures.NOW [Fixtures.POOL] [5; 15; 60]%Q
    = Ok res
    /\ Obj.get 5%Q res = Some c1 /\ Obj.get 15%Q res = Some c2
    /\ Activity.tx_count c1 <= Activity.tx_count c2
    /\ (Activity.volume_usdc c1 <= Activity.volume_usdc c2)%Q.
Proof.
  destruct (Activity.activityWindows Fixtures.pool_history Fixtures.NOW [Fixtures.POOL]
              [5; 15; 60]%Q) as [res|e] eqn:Hrun; [|vm_compute in Hrun; discriminate].
  destruct (activity_windows_nested Fixtures.pool_history Fixtures.NOW [Fixtures.POOL]
              [5; 15; 60]%Q res 5%Q 15%Q) as (c1 & c2 & H);
    [ distinct_keys | exact Hrun | cbn; auto | cbn; auto | reflexivity | ].
  exists res, c1, c2. split; [reflexivity|exact H].
Defined.

(** C4 (as stated) does not hold: a window length listed twice shares one
    cell, which is then counted into twice; with windows 5, 5 and 10 and one
    swap of 10 USDC a minute ago, the 5-minute window reports 2 transactions
    and 20 USDC against 1 and 10 for the 10-minute window. *)
Lemma repeated_window_counts_twice :
  exists res c5 c10,
    Activity.activityWindows Fixtures.pool_history Fixtures.NOW [Fixtures.POOL] [5; 5; 10]%Q
    = Ok res
    /\ Obj.get 5%Q res = Some c5 /\ Obj.get 10%Q res = Some c10
    /\ (5 < 10)%Q
    /\ Activity.tx_count c5 = 2 /\ Activity.tx_count c10 = 1
    /\ ~ Activity.tx_count c5 <= Activity.tx_count c10
    /\ ~ (Activity.volume_usdc c5 <= Activity.volume_usdc c10)%Q.
Proof.
  do 3 eexists. split; [vm_compute; reflexivity|].
  split; [reflexivity|]. split; [reflexivity|].
  repeat split; cbn; try lia. intros H. vm_compute in H. apply H. reflexivity.
Qed.

(** ** ActivityAggregator: VIP presence *)

Lemma smap_get_set_other {V : Type} (k k' : string) (v : V) (m : list (string * V)) :
  k <> k' -> SMap.get k (SMap.set k' v m) = SMap.get k m.
Proof.
  intros Hk. induction m as [|[x u] m IH]; cbn [SMap.get SMap.set].
  - apply String.eqb_neq in Hk. now rewrite Hk.
  - destruct (String.eqb k' x) eqn:E; cbn [SMap.get].
    + apply String.eqb_eq in E. subst x.
      apply String.eqb_neq in Hk. now rewrite Hk.
    + now rewrite IH.
Qed.

(* When the sender of a leg is a VIP, the leg is booked on the sender alone. *)
Lemma vip_leg_ignores_receiver (vip : list string) (hits : list (string * Z))
    (t : Chain.transfer) :
  Holders.includes vip (Activity.str_or_empty (Chain.fromUserAccount t)) = true ->
  Activity.str_or_empty (Chain.toUserAccount t)
  <> Activity.str_or_empty (Chain.fromUserAccount t) ->
  SMap.get (Activity.str_or_empty (Chain.toUserAccount t)) (Activity.vip_leg_step vip hits t)
  = SMap.get (Activity.str_or_empty (Chain.toUserAccount t)) hits.
Proof.
  intros Ha Hab. unfold Activity.vip_leg_step. rewrite Ha. cbn [orb].
  now apply smap_get_set_other.
Qed.

(** C9: the claim counts a leg for each VIP side; the code books a leg
    between two VIP wallets on the sender only.  With Alice and Bob both
    VIPs and one transfer from Alice to Bob within the day, Alice gets one
    hit and Bob none. *)
Theorem vip_to_vip_counts_sender_only :
  Activity.vipWalletsPresence Fixtures.vip_history Fixtures.NOW
    [Fixtures.ALICE; Fixtures.BOB] [Fixtures.POOL]
  = Ok {| Activity.vip_count := 1; Activity.vip_hits := [(Fixtures.ALICE, 1)] |}
  /\ Activity.hit_count
       {| Activity.vip_count := 1; Activity.vip_hits := [(Fixtures.ALICE, 1)] |}
       Fixtures.BOB = 0.
Proof.
  split; vm_compute; reflexivity.
Qed.


(** * Further properties of the code *)

(** ** UpstreamClient: the first success ends the loop *)

Lemma linear_delays_S (from : Z) (n : nat) :
  linear_delays from (S n) = 250 * (from + 1) :: linear_delays (from + 1) n.
Proof.
  unfold linear_delays. cbn [seq map]. f_equal.
  rewrite <- seq_shift, map_map. apply map_ext. intros j. f_equal. lia.
Qed.

Lemma capped_delays_S (from : Z) (n : nat) :
  capped_delays from (S n)
  = Z.min (250 * (from + 1)) 1500 :: capped_delays (from + 1) n.
Proof.
  unfold capped_delays. cbn [seq map]. f_equal.
  rewrite <- seq_shift, map_map. apply map_ext. intros j. f_equal. lia.
Qed.

Section FirstSuccess.
Context {A : Type}.
Variable MAX : Z.
Variable method : string.
Variable upstream : Z -> Upstream.fetched A.
Variable k : Z.
Variable v : option A.
Hypothesis k_in_range : 0 <= k <= MAX.

Lemma rpc_loop_first_success (n : nat) :
  forall (i : Z) (fuel : nat),
    0 <= i -> k - i = Z.of_nat n -> (n < fuel)%nat ->
    (forall j, i <= j < k -> exists e, Upstream.rpc_attempt method (upstream j) = Err e) ->
    Upstream.rpc_attempt method (upstream k) = Ok v ->
    exists tr,
      Upstream.rpc_loop MAX method upstream fuel i = Some (tr, Upstream.Returned v)
      /\ Upstream.attempts tr = k - i + 1
      /\ Upstream.delays tr = linear_delays i n.
Proof.
  induction n as [|n IH]; intros i fuel Hi Hn Hfuel Hfail Hok;
    (destruct fuel as [|fuel]; [lia|]); cbn [Upstream.rpc_loop];
    (replace (i <=? MAX) with true by (symmetry; apply Z.leb_le; lia)).
  - assert (i = k) by lia; subst i. rewrite Hok.
    exists [Upstream.Attempt k]. repeat split. unfold Upstream.attempts; cbn. lia.
  - destruct (Hfail i) as [e He]; [lia|]. rewrite He.
    replace (i =? MAX) with false by (symmetry; apply Z.eqb_neq; lia).
    destruct (IH (i + 1) fuel) as (tr & Hrun & Hcnt & Hdel); try lia; try assumption.
    { intros j Hj. apply Hfail. lia. }
    rewrite Hrun. eexists. split; [reflexivity|]. split.
    + unfold Upstream.attempts in *; cbn [filter List.length] in *. lia.
    + cbn [Upstream.delays]. now rewrite Hdel, linear_delays_S.
Qed.

Lemma rpcCall_loop_first_success (n : nat) :
  forall (i : Z) (fuel : nat),
    0 <= i -> k - i = Z.of_nat n -> (n < fuel)%nat ->
    (forall j, i <= j < k -> exists e, Upstream.rpcCall_attempt (upstream j) = Err e) ->
    Upstream.rpcCall_attempt (upstream k) = Ok v ->
    exists tr,
      Upstream.rpcCall_loop MAX upstream fuel i = Some (tr, Upstream.Returned v)
      /\ Upstream.attempts tr = k - i + 1
      /\ Upstream.delays tr = capped_delays i n.
Proof.
  induction n as [|n IH]; intros i fuel Hi Hn Hfuel Hfail Hok;
    (destruct fuel as [|fuel]; [lia|]); cbn [Upstream.rpcCall_loop].
  - assert (i = k) by lia; subst i. rewrite Hok.
    exists [Upstream.Attempt k]. repeat split. unfold Upstream.attempts; cbn. lia.
  - destruct (Hfail i) as [e He]; [lia|]. rewrite He. cbv zeta.
    replace (i + 1 >? MAX) with false
      by (symmetry; rewrite Z.gtb_ltb; apply Z.ltb_ge; lia).
    destruct (IH (i + 1) fuel) as (tr & Hrun & Hcnt & Hdel); try lia; try assumption.
    { intros j Hj. apply Hfail. lia. }
    rewrite Hrun. eexists. split; [reflexivity|]. split.
    + unfold Upstream.attempts in *; cbn [filter List.length] in *. lia.
    + cbn [Upstream.delays]. now rewrite Hdel, capped_delays_S.
Qed.

End FirstSuccess.

(** X1: [rpc] returns the result of the first attempt that succeeds, after
    one attempt more than the failures before it, having slept 250 ms times
    the attempt number after each failure. *)
Theorem rpc_returns_first_success {A : Type} (MAX : Z) (method : string)
    (upstream : Z -> Upstream.fetched A) (k : Z) (v : option A) (fuel : nat) :
  0 <= k <= MAX ->
  (forall j, 0 <= j < k -> exists e, Upstream.rpc_attempt method (upstream j) = Err e) ->
  Upstream.rpc_attempt method (upstream k) = Ok v ->
  (Z.to_nat k < fuel)%nat ->
  exists tr,
    Upstream.rpc MAX method upstream fuel = Some (tr, Upstream.Returned v)
    /\ Upstream.attempts tr = k + 1
    /\ Upstream.delays tr = map (fun j => 250 * Z.of_nat j) (seq 1 (Z.to_nat k)).
Proof.
  intros Hk Hfail Hok Hfuel.
  destruct (rpc_loop_first_success MAX method upstream k v Hk (Z.to_nat k) 0 fuel)
    as (tr & H1 & H2 & H3); try lia; try assumption.
  exists tr. repeat split; try assumption; try lia.
Qed.

Lemma rpc_returns_first_success_witness :
  exists tr,
    Upstream.rpc 3 "getSlot" Samples.third_time_lucky 4 = Some (tr, Upstream.Returned (Some 7))
    /\ Upstream.attempts tr = 2 + 1
    /\ Upstream.delays tr = map (fun j => 250 * Z.of_nat j) (seq 1 (Z.to_nat 2)).
Proof.
  apply (rpc_returns_first_success 3 "getSlot" Samples.third_time_lucky 2 (Some 7) 4).
  - lia.
  - intros j Hj. exists (Rejected "aborted"). unfold Samples.third_time_lucky.
    replace (j <? 2) with true by (symmetry; apply Z.ltb_lt; lia). reflexivity.
  - reflexivity.
  - cbn. lia.
Defined.


(** X2: [rpcCall] returns the result of the first attempt that succeeds; the
    sleeps before it are 250 ms times the number of failures so far, capped
    at 1500 ms. *)
Theorem rpcCall_returns_first_success {A : Type} (MAX : Z)
    (upstream : Z -> Upstream.fetched A) (k : Z) (v : option A) (fuel : nat) :
  0 <= k <= MAX ->
  (forall j, 0 <= j < k -> exists e, Upstream.rpcCall_attempt (upstream j) = Err e) ->
  Upstream.rpcCall_attempt (upstream k) = Ok v ->
  (Z.to_nat k < fuel)%nat ->
  exists tr,
    Upstream.rpcCall MAX upstream fuel = Some (tr, Upstream.Returned v)
    /\ Upstream.attempts tr = k + 1
    /\ Upstream.delays tr
       = map (fun j => Z.min (250 * Z.of_nat j) 1500) (seq 1 (Z.to_nat k))
    /\ Forall (fun d => d <= 1500) (Upstream.delays tr).
Proof.
  intros Hk Hfail Hok Hfuel.
  destruct (rpcCall_loop_first_success MAX upstream k v Hk (Z.to_nat k) 0 fuel)
    as (tr & H1 & H2 & H3); try lia; try assumption.
  exists tr. repeat split; try assumption; try lia.
  rewrite H3. unfold capped_delays. apply Forall_forall. intros d Hd.
  apply in_map_iff in Hd. destruct Hd as (j & <- & _). lia.
Qed.

Lemma rpcCall_returns_first_success_witness :
  exists tr,
    Upstream.rpcCall 3 Samples.third_time_lucky 4 = Some (tr, Upstream.Returned (Some 7))
    /\ Upstream.attempts tr = 2 + 1
    /\ Upstream.delays tr
       = map (fun j => Z.min (250 * Z.of_nat j) 1500) (seq 1 (Z.to_nat 2))
    /\ Forall (fun d => d <= 1500) (Upstream.delays tr).
Proof.
  apply (rpcCall_returns_first_success 3 Samples.third_time_lucky 2 (Some 7) 4).
  - lia.
  - intros j Hj. exists (Rejected "aborted"). unfold Samples.third_time_lucky.
    replace (j <? 2) with true by (symmetry; apply Z.ltb_lt; lia). reflexivity.
  - reflexivity.
  - cbn. lia.
Defined.


(** X3: with a negative retry count [rpc] dispatches nothing and returns
    undefined, while [rpcCall] still dispatches once and throws the error of
    that attempt. *)
Theorem negative_retry_count {A : Type} (MAX : Z) (method : string)
    (upstream : Z -> Upstream.fetched A) (e : error) (fuel : nat) :
  MAX < 0 ->
  Upstream.rpcCall_attempt (upstream 0) = Err e ->
  Upstream.rpc MAX method upstream (S fuel) = Some ([], Upstream.Returned None)
  /\ Upstream.rpcCall MAX upstream (S fuel)
     = Some ([Upstream.Attempt 0], Upstream.Threw e).
Proof.
  intros Hneg He. unfold Upstream.rpc, Upstream.rpcCall.
  cbn [Upstream.rpc_loop Upstream.rpcCall_loop].
  replace (0 <=? MAX) with false by (symmetry; apply Z.leb_gt; lia).
  rewrite He. cbv zeta.
  replace (0 + 1 >? MAX) with true by (symmetry; apply Z.gtb_lt; lia).
  split; reflexivity.
Qed.

Lemma negative_retry_count_witness :
  Upstream.rpc (-1) "getSlot" Samples.third_time_lucky 1 = Some ([], Upstream.Returned None)
  /\ Upstream.rpcCall (-1) Samples.third_time_lucky 1
     = Some ([Upstream.Attempt 0], Upstream.Threw (Rejected "aborted")).
Proof.
  apply (negative_retry_count (-1) "getSlot" Samples.third_time_lucky (Rejected "aborted") 0).
  - lia.
  - reflexivity.
Defined.


(** ** Balances *)

Lemma pow10_pos (d : Z) : (0 < inject_Z 10 ^ d)%Q.
Proof. apply Qpower_0_lt. reflexivity. Qed.

Lemma uiFromRaw_scaled (a d : Z) :
  (Chain.uiFromRaw a d * inject_Z 10 ^ d == inject_Z a)%Q.
Proof.
  unfold Chain.uiFromRaw. pose proof (pow10_pos d). field. lra.
Qed.

Lemma uiFromRaw_sign (a d : Z) :
  ((0 < Chain.uiFromRaw a d)%Q <-> 0 < a)
  /\ ((Chain.uiFromRaw a d == 0)%Q <-> a = 0).
Proof.
  pose proof (pow10_pos d) as Hp. pose proof (uiFromRaw_scaled a d) as Hs.
  set (u := Chain.uiFromRaw a d) in *. set (p := (inject_Z 10 ^ d)%Q) in *.
  clearbody u p.
  split; split; intros H.
  - assert (0 < u * p)%Q by (apply Qmult_lt_0_compat; assumption).
    rewrite Hs in H0. change 0%Q with (inject_Z 0) in H0. now rewrite <- Zlt_Qlt in H0.
  - assert (Ha : (0 < inject_Z a)%Q) by (change 0%Q with (inject_Z 0); now rewrite <- Zlt_Qlt).
    rewrite <- Hs in Ha. destruct (Qlt_le_dec 0 u) as [|Hle]; [assumption|].
    exfalso. pose proof (Qmult_le_compat_r u 0 p Hle (Qlt_le_weak _ _ Hp)) as M.
    rewrite Qmult_0_l in M. exact (Qlt_not_le _ _ Ha M).
  - rewrite H in Hs. assert (E : (inject_Z a == 0)%Q) by (rewrite <- Hs; ring).
    exact (proj1 (inject_Z_injective a 0) E).
  - subst a. assert (E : (u * p == 0)%Q) by (rewrite Hs; reflexivity).
    apply Qmult_integral in E. destruct E; [assumption|lra].
Qed.

Lemma uiFromRaw_mono (a b d : Z) :
  a <= b -> (Chain.uiFromRaw a d <= Chain.uiFromRaw b d)%Q.
Proof.
  intros H. unfold Chain.uiFromRaw. pose proof (pow10_pos d) as Hp.
  apply Qle_shift_div_l; [assumption|].
  setoid_replace (inject_Z a / inject_Z 10 ^ d * inject_Z 10 ^ d)%Q with (inject_Z a)
    by (field; lra).
  now rewrite <- Zle_Qle.
Qed.

Lemma read_as_to_balance (P : Chain.provider) (account : string) (b : Chain.balance) :
  read_as P account b -> exists t, b = Chain.to_balance t.
Proof.
  intros [H|H].
  - unfold Chain.getTokenAccountBalance in H.
    destruct (Chain.rpc_getTokenAccountBalance P account) as [t|]; [|discriminate].
    injection H as <-. now exists t.
  - unfold Chain.getMintSupply in H.
    destruct (Chain.assertPubkey account); [|discriminate].
    destruct (Chain.rpc_getTokenSupply P account) as [t|]; [|discriminate].
    injection H as <-. now exists t.
Qed.

(** X4: for decimals in the range of a token mint (0 to 255), the ui value of
    every balance read from the provider has the sign of its raw amount: it
    is positive exactly when the raw amount is, and zero exactly when the raw
    amount is zero; and of two balances with the same decimals, the one with
    the smaller raw amount has the smaller ui value. *)
Theorem balance_ui_sign_and_order (P : Chain.provider) (account1 account2 : string)
    (b1 b2 : Chain.balance) :
  read_as P account1 b1 -> read_as P account2 b2 ->
  0 <= Chain.decimals b1 <= 255 ->
  Chain.decimals b2 = Chain.decimals b1 ->
  ((0 < Chain.ui b1)%Q <-> 0 < Chain.amount b1)
  /\ ((Chain.ui b1 == 0)%Q <-> Chain.amount b1 = 0)
  /\ (Chain.amount b1 <= Chain.amount b2 -> (Chain.ui b1 <= Chain.ui b2)%Q).
Proof.
  intros H1 H2 _ Hd.
  destruct (read_as_to_balance _ _ _ H1) as [t1 ->].
  destruct (read_as_to_balance _ _ _ H2) as [t2 ->].
  cbn [Chain.to_balance Chain.ui Chain.amount Chain.decimals] in *.
  destruct (uiFromRaw_sign (Chain.raw_amount t1) (Chain.raw_decimals t1)) as [Hpos Hzero].
  split; [exact Hpos|]. split; [exact Hzero|].
  intros Hle. rewrite Hd. now apply uiFromRaw_mono.
Qed.

Lemma balance_ui_sign_and_order_witness :
  let x := Chain.to_balance {| Chain.raw_amount := 100000000; Chain.raw_decimals := 6 |} in
  let y := Chain.to_balance {| Chain.raw_amount := 5000000000; Chain.raw_decimals := 6 |} in
  ((0 < Chain.ui x)%Q <-> 0 < Chain.amount x)
  /\ ((Chain.ui x == 0)%Q <-> Chain.amount x = 0)
  /\ (Chain.amount x <= Chain.amount y -> (Chain.ui x <= Chain.ui y)%Q).
Proof.
  apply (balance_ui_sign_and_order Fixtures.usdc_pool Fixtures.RESERVE_X Fixtures.RESERVE_Y).
  - left. reflexivity.
  - left. reflexivity.
  - cbn. lia.
  - reflexivity.
Defined.


(** ** ReserveOracle: which side is the quote side *)

Lemma classify_usdc_side (ax ay : Chain.balance) (mintX mintY : option string) :
  (mintX = Some Chain.USDC_MINT ->
   ReserveOracle.classify ax ay mintX mintY
   = {| ReserveOracle.usdc := ax; ReserveOracle.tok := ay;
        ReserveOracle.tokMint := mintY; ReserveOracle.usdcMint := mintX |})
  /\ (mintX <> Some Chain.USDC_MINT -> mintY = Some Chain.USDC_MINT ->
      ReserveOracle.classify ax ay mintX mintY
      = {| ReserveOracle.usdc := ay; ReserveOracle.tok := ax;
           ReserveOracle.tokMint := mintX; ReserveOracle.usdcMint := mintY |}).
Proof.
  assert (Hu : ReserveOracle.is_usdc (Some Chain.USDC_MINT) = true)
    by apply String.eqb_refl.
  unfold ReserveOracle.classify. split.
  - intros ->. rewrite Hu. destruct (ReserveOracle.is_usdc mintY); reflexivity.
  - intros HX ->. apply is_usdc_false_iff in HX. rewrite HX, Hu. reflexivity.
Qed.

Lemma poolReserves_classifies (P : Chain.provider) (reserveX reserveY : string)
    (ax ay : Chain.balance) (ix iy : option Chain.parsed_info) :
  Chain.getTokenAccountBalance P reserveX = Ok ax ->
  Chain.getTokenAccountBalance P reserveY = Ok ay ->
  Chain.getAccountInfoParsed P reserveX = Ok ix ->
  Chain.getAccountInfoParsed P reserveY = Ok iy ->
  ReserveOracle.poolReserves P reserveX reserveY
  = Ok (ReserveOracle.classify ax ay (ReserveOracle.mint_of ix) (ReserveOracle.mint_of iy)).
Proof.
  intros Hax Hay Hix Hiy. unfold ReserveOracle.poolReserves.
  now rewrite Hax, Hay, Hix, Hiy.
Qed.

(** X5: a reserve whose mint is the USDC mint is the quote side: reserve X
    when its mint is USDC (also when both are), reserve Y when only its mint
    is USDC; the labels follow the balances. *)
Theorem usdc_reserve_is_quote_side (P : Chain.provider) (reserveX reserveY : string)
    (ax ay : Chain.balance) (ix iy : option Chain.parsed_info) :
  Chain.getTokenAccountBalance P reserveX = Ok ax ->
  Chain.getTokenAccountBalance P reserveY = Ok ay ->
  Chain.getAccountInfoParsed P reserveX = Ok ix ->
  Chain.getAccountInfoParsed P reserveY = Ok iy ->
  (ReserveOracle.mint_of ix = Some Chain.USDC_MINT ->
   ReserveOracle.poolReserves P reserveX reserveY
   = Ok {| ReserveOracle.usdc := ax; ReserveOracle.tok := ay;
           ReserveOracle.tokMint := ReserveOracle.mint_of iy;
           ReserveOracle.usdcMint := Some Chain.USDC_MINT |})
  /\ (ReserveOracle.mint_of ix <> Some Chain.USDC_MINT ->
      ReserveOracle.mint_of iy = Some Chain.USDC_MINT ->
      ReserveOracle.poolReserves P reserveX reserveY
      = Ok {| ReserveOracle.usdc := ay; ReserveOracle.tok := ax;
              ReserveOracle.tokMint := ReserveOracle.mint_of ix;
              ReserveOracle.usdcMint := Some Chain.USDC_MINT |}).
Proof.
  intros Hax Hay Hix Hiy.
  rewrite (poolReserves_classifies P reserveX reserveY ax ay ix iy) by assumption.
  destruct (classify_usdc_side ax ay (ReserveOracle.mint_of ix) (ReserveOracle.mint_of iy))
    as [HX HY].
  split.
  - intros E. rewrite (HX E), E. reflexivity.
  - intros NE E. rewrite (HY NE E), E. reflexivity.
Qed.

Lemma usdc_reserve_is_quote_side_witness :
  ReserveOracle.poolReserves Fixtures.usdc_pool Fixtures.RESERVE_X Fixtures.RESERVE_Y
  = Ok {| ReserveOracle.usdc :=
            Chain.to_balance {| Chain.raw_amount := 5000000000; Chain.raw_decimals := 6 |};
          ReserveOracle.tok :=
            Chain.to_balance {| Chain.raw_amount := 100000000; Chain.raw_decimals := 6 |};
          ReserveOracle.tokMint := Some Fixtures.TOKEN_MINT;
          ReserveOracle.usdcMint := Some Chain.USDC_MINT |}.
Proof.
  apply (usdc_reserve_is_quote_side Fixtures.usdc_pool Fixtures.RESERVE_X Fixtures.RESERVE_Y
           _ _ (Some {| Chain.info_mint := Some Fixtures.TOKEN_MINT |})
           (Some {| Chain.info_mint := Some Chain.USDC_MINT |}));
    try reflexivity.
  cbn. discriminate.
Defined.


(** X6: the decimals fallback never applies when reserve X has a mint: with
    a non-empty mint read for X and a Y mint other than USDC, reserve X is
    the quote side whatever the decimals of the two reserves. *)
Theorem decimals_fallback_needs_missing_mint (P : Chain.provider)
    (reserveX reserveY : string) (ax ay : Chain.balance)
    (ix iy : option Chain.parsed_info) :
  Chain.getTokenAccountBalance P reserveX = Ok ax ->
  Chain.getTokenAccountBalance P reserveY = Ok ay ->
  Chain.getAccountInfoParsed P reserveX = Ok ix ->
  Chain.getAccountInfoParsed P reserveY = Ok iy ->
  ReserveOracle.str_truthy (ReserveOracle.mint_of ix) = true ->
  ReserveOracle.mint_of iy <> Some Chain.USDC_MINT ->
  ReserveOracle.poolReserves P reserveX reserveY
  = Ok {| ReserveOracle.usdc := ax; ReserveOracle.tok := ay;
          ReserveOracle.tokMint := ReserveOracle.mint_of iy;
          ReserveOracle.usdcMint := ReserveOracle.mint_of ix |}.
Proof.
  intros Hax Hay Hix Hiy HX HY.
  rewrite (poolReserves_classifies P reserveX reserveY ax ay ix iy) by assumption.
  now rewrite classify_keeps_x_with_mint.
Qed.

Lemma decimals_fallback_needs_missing_mint_witness :
  ReserveOracle.poolReserves Samples.sol_usdt Fixtures.RESERVE_X Fixtures.RESERVE_Y
  = Ok {| ReserveOracle.usdc := Chain.to_balance Samples.sol_2000;
          ReserveOracle.tok := Chain.to_balance Samples.usdt_300000;
          ReserveOracle.tokMint := Some Samples.USDT_MINT;
          ReserveOracle.usdcMint := Some Fixtures.WSOL_MINT |}.
Proof.
  apply (decimals_fallback_needs_missing_mint Samples.sol_usdt
           Fixtures.RESERVE_X Fixtures.RESERVE_Y _ _
           (Some {| Chain.info_mint := Some Fixtures.WSOL_MINT |})
           (Some {| Chain.info_mint := Some Samples.USDT_MINT |}));
    try reflexivity.
  cbn. discriminate.
Defined.


(** X7: when the mint of reserve X cannot be read, Y's mint is not USDC, Y
    has 6 decimals and X has not, the fallback takes Y's balance as the quote
    side and X's as the token side, but leaves the labels as they were:
    tokMint stays the mint of Y and usdcMint stays undefined. *)
Theorem decimals_fallback_swaps_balances_only (P : Chain.provider)
    (reserveX reserveY : string) (ax ay : Chain.balance)
    (ix iy : option Chain.parsed_info) :
  Chain.getTokenAccountBalance P reserveX = Ok ax ->
  Chain.getTokenAccountBalance P reserveY = Ok ay ->
  Chain.getAccountInfoParsed P reserveX = Ok ix ->
  Chain.getAccountInfoParsed P reserveY = Ok iy ->
  ReserveOracle.mint_of ix = None ->
  ReserveOracle.mint_of iy <> Some Chain.USDC_MINT ->
  Chain.decimals ay = 6 -> Chain.decimals ax <> 6 ->
  ReserveOracle.poolReserves P reserveX reserveY
  = Ok {| ReserveOracle.usdc := ay; ReserveOracle.tok := ax;
          ReserveOracle.tokMint := ReserveOracle.mint_of iy;
          ReserveOracle.usdcMint := None |}.
Proof.
  intros Hax Hay Hix Hiy HX HY Hy6 Hx6.
  rewrite (poolReserves_classifies P reserveX reserveY ax ay ix iy) by assumption.
  unfold ReserveOracle.classify. rewrite HX. apply is_usdc_false_iff in HY. rewrite HY.
  cbn. rewrite Hy6. apply Z.eqb_neq in Hx6. rewrite Hx6. reflexivity.
Qed.

Lemma decimals_fallback_swaps_balances_only_witness :
  ReserveOracle.poolReserves Samples.unreadable_x Fixtures.RESERVE_X Fixtures.RESERVE_Y
  = Ok {| ReserveOracle.usdc := Chain.to_balance Samples.usdt_300000;
          ReserveOracle.tok := Chain.to_balance Samples.sol_2000;
          ReserveOracle.tokMint := Some Samples.USDT_MINT;
          ReserveOracle.usdcMint := None |}.
Proof.
  apply (decimals_fallback_swaps_balances_only Samples.unreadable_x
           Fixtures.RESERVE_X Fixtures.RESERVE_Y _ _ None
           (Some {| Chain.info_mint := Some Samples.USDT_MINT |}));
    try reflexivity; cbn; discriminate.
Defined.


(** X8: [priceAndFDVFromReserves] checks the reserves before the token mint:
    when a classified balance is not positive it fails with "pool reserves
    are zero" whatever the token mint is, and with both balances positive a
    token mint shorter than 32 characters fails with "invalid pubkey/mint". *)
Theorem price_and_fdv_failures (P : Chain.provider) (tokenMint reserveX reserveY : string)
    (r : ReserveOracle.reserves) :
  ReserveOracle.poolReserves P reserveX reserveY = Ok r ->
  (((Chain.ui (ReserveOracle.tok r) <= 0)%Q \/ (Chain.ui (ReserveOracle.usdc r) <= 0)%Q) ->
   ReserveOracle.priceAndFDVFromReserves P tokenMint reserveX reserveY
   = Err PoolReservesZero)
  /\ ((0 < Chain.ui (ReserveOracle.tok r))%Q -> (0 < Chain.ui (ReserveOracle.usdc r))%Q ->
      (String.length tokenMint < 32)%nat ->
      ReserveOracle.priceAndFDVFromReserves P tokenMint reserveX reserveY
      = Err InvalidPubkey).
Proof.
  intros Hr. unfold ReserveOracle.priceAndFDVFromReserves. rewrite Hr. cbn [bind]. split.
  - intros H.
    assert (E : Qleb (Chain.ui (ReserveOracle.tok r)) 0
                || Qleb (Chain.ui (ReserveOracle.usdc r)) 0 = true).
    { apply orb_true_iff. destruct H as [H|H]; [left|right]; now apply Qleb_iff. }
    now rewrite E.
  - intros Ht Hu Hlen. apply Qleb_false_iff in Ht, Hu. rewrite Ht, Hu. cbn [orb].
    unfold Chain.getMintSupply, Chain.assertPubkey.
    replace (Z.of_nat (String.length tokenMint) <? 32) with true
      by (symmetry; apply Z.ltb_lt; lia).
    reflexivity.
Qed.

Lemma price_and_fdv_failures_witness :
  ReserveOracle.priceAndFDVFromReserves Samples.drained_pool "not-a-mint"
    Fixtures.RESERVE_X Fixtures.RESERVE_Y = Err PoolReservesZero
  /\ ReserveOracle.priceAndFDVFromReserves Fixtures.usdc_pool "not-a-mint"
       Fixtures.RESERVE_X Fixtures.RESERVE_Y = Err InvalidPubkey.
Proof.
  split.
  - apply (price_and_fdv_failures Samples.drained_pool "not-a-mint"
             Fixtures.RESERVE_X Fixtures.RESERVE_Y
             {| ReserveOracle.usdc :=
                  Chain.to_balance {| Chain.raw_amount := 5000000000; Chain.raw_decimals := 6 |};
                ReserveOracle.tok :=
                  Chain.to_balance {| Chain.raw_amount := 0; Chain.raw_decimals := 6 |};
                ReserveOracle.tokMint := Some Fixtures.TOKEN_MINT;
                ReserveOracle.usdcMint := Some Chain.USDC_MINT |}).
    + reflexivity.
    + left. cbn. discriminate.
  - apply (price_and_fdv_failures Fixtures.usdc_pool "not-a-mint"
             Fixtures.RESERVE_X Fixtures.RESERVE_Y
             {| ReserveOracle.usdc :=
                  Chain.to_balance {| Chain.raw_amount := 5000000000; Chain.raw_decimals := 6 |};
                ReserveOracle.tok :=
                  Chain.to_balance {| Chain.raw_amount := 100000000; Chain.raw_decimals := 6 |};
                ReserveOracle.tokMint := Some Fixtures.TOKEN_MINT;
                ReserveOracle.usdcMint := Some Chain.USDC_MINT |}).
    + reflexivity.
    + reflexivity.
    + reflexivity.
    + cbn. lia.
Defined.


(** ** Pool totals *)

Lemma tvl_loop_sum (P : Chain.provider) (pools : list (string * string))
    (rs : list ReserveOracle.reserves) (tvl : Q) :
  Pools.read_reserves P pools = Ok rs ->
  exists out,
    Pools.tvl_loop P pools tvl = Ok out
    /\ (out == tvl + inject_Z 2
                     * qsum (map (fun r => Chain.ui (ReserveOracle.usdc r)) rs))%Q.
Proof.
  revert rs tvl. induction pools as [|p pools IH]; intros rs tvl;
    cbn [Pools.read_reserves Pools.tvl_loop].
  - intros [= <-]. exists tvl. split; [reflexivity|]. cbn [map qsum]. ring.
  - destruct (ReserveOracle.poolReserves P (fst p) (snd p)) as [r|]; cbn [bind];
      [|discriminate].
    destruct (Pools.read_reserves P pools) as [rs'|]; cbn [bind]; [|discriminate].
    intros [= <-].
    destruct (IH rs' (tvl + Chain.ui (ReserveOracle.usdc r) * inject_Z 2)%Q eq_refl)
      as (out & Hout & Hsum).
    exists out. split; [assumption|]. rewrite Hsum. cbn [map qsum]. ring.
Qed.

Lemma tvl_loop_fails (P : Chain.provider) (pools : list (string * string)) (e : error)
    (tvl : Q) :
  Pools.read_reserves P pools = Err e -> Pools.tvl_loop P pools tvl = Err e.
Proof.
  revert tvl. induction pools as [|p pools IH]; intros tvl;
    cbn [Pools.read_reserves Pools.tvl_loop]; [discriminate|].
  destruct (ReserveOracle.poolReserves P (fst p) (snd p)) as [r|]; cbn [bind];
    [|now intros [= <-]].
  destruct (Pools.read_reserves P pools) as [rs'|] eqn:E; cbn [bind]; [discriminate|].
  intros [= <-]. now apply IH.
Qed.

(** X9: [tvlTotalUSDC] is twice the sum of the quote-side ui balances of the
    pools, 0 for no pool, and fails with the error of the first pool whose
    reserves cannot be read. *)
Theorem tvl_is_twice_the_quote_side (P : Chain.provider) (pools : list (string * string)) :
  (forall rs, Pools.read_reserves P pools = Ok rs ->
     exists tvl,
       Pools.tvlTotalUSDC P pools = Ok tvl
       /\ (tvl == inject_Z 2 * qsum (map (fun r => Chain.ui (ReserveOracle.usdc r)) rs))%Q)
  /\ (forall e, Pools.read_reserves P pools = Err e -> Pools.tvlTotalUSDC P pools = Err e)
  /\ Pools.tvlTotalUSDC P [] = Ok 0%Q.
Proof.
  split; [|split].
  - intros rs Hrs. destruct (tvl_loop_sum P pools rs 0%Q Hrs) as (out & Hout & Hsum).
    exists out. split; [assumption|]. rewrite Hsum. ring.
  - intros e He. now apply tvl_loop_fails.
  - reflexivity.
Qed.

Lemma tvl_is_twice_the_quote_side_witness :
  exists tvl,
    Pools.tvlTotalUSDC Fixtures.usdc_pool [(Fixtures.RESERVE_X, Fixtures.RESERVE_Y)] = Ok tvl
    /\ (tvl == 10000)%Q.
Proof.
  destruct (proj1 (tvl_is_twice_the_quote_side Fixtures.usdc_pool
                     [(Fixtures.RESERVE_X, Fixtures.RESERVE_Y)])
              [ {| ReserveOracle.usdc :=
                     Chain.to_balance {| Chain.raw_amount := 5000000000; Chain.raw_decimals := 6 |};
                   ReserveOracle.tok :=
                     Chain.to_balance {| Chain.raw_amount := 100000000; Chain.raw_decimals := 6 |};
                   ReserveOracle.tokMint := Some Fixtures.TOKEN_MINT;
                   ReserveOracle.usdcMint := Some Chain.USDC_MINT |} ] eq_refl)
    as (tvl & Hrun & Hsum).
  exists tvl. split; [exact Hrun|]. rewrite Hsum. reflexivity.
Defined.


Lemma last_cons_default {B : Type} (l : list B) (x d : B) : last (x :: l) d = last l x.
Proof.
  revert x d. induction l as [|y l IH]; intros x d; [reflexivity|].
  change (last (x :: y :: l) d) with (last (y :: l) d). now rewrite !IH.
Qed.

Lemma vault_loop_sum (P : Chain.provider) (vaults : list string) (bs : list Chain.balance)
    (st : Q * Z) :
  Pools.read_balances P vaults = Ok bs ->
  exists s,
    Pools.vault_loop P vaults st = Ok (s, last (map Chain.decimals bs) (snd st))
    /\ (s == fst st + qsum (map Chain.ui bs))%Q.
Proof.
  revert bs st. induction vaults as [|ta vaults IH]; intros bs st;
    cbn [Pools.read_balances Pools.vault_loop].
  - intros [= <-]. exists (fst st). destruct st. split; [reflexivity|]. cbn. ring.
  - destruct (Chain.getTokenAccountBalance P ta) as [b|]; cbn [bind]; [|discriminate].
    destruct (Pools.read_balances P vaults) as [bs'|]; cbn [bind]; [|discriminate].
    intros [= <-].
    destruct (IH bs' ((fst st + Chain.ui b)%Q, Chain.decimals b) eq_refl)
      as (s & Hrun & Hsum).
    exists s. cbn [fst snd] in *. split.
    + rewrite Hrun. do 2 f_equal. cbn [map]. now rewrite last_cons_default.
    + rewrite Hsum. cbn [map qsum]. ring.
Qed.

(** X10: [depositVaultSum] adds up the ui balances of the vault accounts and
    reports the decimals of the last account read (0 when there is none),
    not a common scale. *)
Theorem deposit_vault_sum_and_last_decimals (P : Chain.provider) (vaults : list string)
    (bs : list Chain.balance) :
  Pools.read_balances P vaults = Ok bs ->
  exists s,
    Pools.depositVaultSum P vaults = Ok (s, last (map Chain.decimals bs) 0)
    /\ (s == qsum (map Chain.ui bs))%Q.
Proof.
  intros Hbs. destruct (vault_loop_sum P vaults bs (0%Q, 0) Hbs) as (s & Hrun & Hsum).
  exists s. split; [exact Hrun|]. rewrite Hsum. cbn [fst]. ring.
Qed.

Lemma deposit_vault_sum_and_last_decimals_witness :
  exists s,
    Pools.depositVaultSum Samples.sol_usdt [Fixtures.RESERVE_Y; Fixtures.RESERVE_X]
    = Ok (s, 9)
    /\ (s == 302000)%Q.
Proof.
  destruct (deposit_vault_sum_and_last_decimals Samples.sol_usdt
              [Fixtures.RESERVE_Y; Fixtures.RESERVE_X]
              [Chain.to_balance Samples.usdt_300000; Chain.to_balance Samples.sol_2000]
              eq_refl) as (s & Hrun & Hsum).
  exists s. split; [exact Hrun|]. rewrite Hsum. reflexivity.
Defined.


(** ** Sets of strings built by [add] *)

Lemma includes_In (l : list string) (s : string) :
  Holders.includes l s = true <-> In s l.
Proof.
  unfold Holders.includes. rewrite existsb_exists. split.
  - intros (x & Hx & E). apply String.eqb_eq in E. now subst.
  - intros H. exists s. split; [assumption|apply String.eqb_refl].
Qed.

Lemma set_add_In (x s : string) (l : list string) :
  In x (Activity.set_add s l) <-> x = s \/ In x l.
Proof.
  unfold Activity.set_add. destruct (Holders.includes l s) eqn:E.
  - apply includes_In in E. split; [auto|]. intros [->|H]; assumption.
  - rewrite in_app_iff. cbn. split; intros H; intuition auto.
Qed.

Lemma set_add_NoDup (s : string) (l : list string) :
  NoDup l -> NoDup (Activity.set_add s l).
Proof.
  intros H. unfold Activity.set_add. destruct (Holders.includes l s) eqn:E; [assumption|].
  apply NoDup_app.
  - assumption.
  - constructor; [intros []|constructor].
  - intros x Hx [<-|[]]. apply includes_In in Hx. congruence.
Qed.

Lemma set_fold_In (l acc : list string) (x : string) :
  In x (fold_left (fun s y => Activity.set_add y s) l acc) <-> In x acc \/ In x l.
Proof.
  revert acc. induction l as [|y l IH]; intros acc; cbn [fold_left In].
  - tauto.
  - rewrite IH, set_add_In. intuition auto.
Qed.

Lemma set_fold_NoDup (l acc : list string) :
  NoDup acc -> NoDup (fold_left (fun s y => Activity.set_add y s) l acc).
Proof.
  revert acc. induction l as [|y l IH]; intros acc H; cbn [fold_left]; [assumption|].
  now apply IH, set_add_NoDup.
Qed.

Lemma distinct_NoDup (l : list string) : NoDup (Trades.distinct l).
Proof. apply set_fold_NoDup. constructor. Qed.

Lemma distinct_In (l : list string) (x : string) : In x (Trades.distinct l) <-> In x l.
Proof. unfold Trades.distinct. rewrite set_fold_In. cbn. tauto. Qed.

Lemma distinct_length_le (l l' : list string) :
  incl l l' -> (List.length (Trades.distinct l) <= List.length (Trades.distinct l'))%nat.
Proof.
  intros H. apply NoDup_incl_length; [apply distinct_NoDup|].
  intros x Hx. apply distinct_In. apply H. now apply distinct_In.
Qed.

Lemma distinct_length_nodup (l : list string) :
  List.length (Trades.distinct l) = List.length (nodup string_dec l).
Proof.
  apply Permutation_length, NoDup_Permutation.
  - apply distinct_NoDup.
  - apply NoDup_nodup.
  - intros x. now rewrite distinct_In, nodup_In.
Qed.

(** ** LP providers *)

Lemma provider_loop (excl : list string) (rows : list (option Chain.holder_info))
    (st : list string * Q) :
  fst (fold_left (Liquidity.provider_step excl) rows st)
  = fold_left (fun s y => Activity.set_add y s)
      (map Chain.owner (Liquidity.providing excl rows)) (fst st)
  /\ (snd (fold_left (Liquidity.provider_step excl) rows st)
      == snd st + qsum (map Holders.ui_of (Liquidity.providing excl rows)))%Q.
Proof.
  revert st. unfold Liquidity.providing, Holders.present.
  induction rows as [|[info|] rows IH]; intros st; cbn [fold_left flat_map app filter map].
  - split; [reflexivity|]. cbn [qsum]. ring.
  - destruct (IH (Liquidity.provider_step excl st (Some info))) as [H1 H2].
    rewrite H1, H2. cbn [Liquidity.provider_step].
    destruct (Liquidity.provides excl info); cbn [fst snd map fold_left qsum].
    + split; [reflexivity|ring].
    + split; [reflexivity|ring].
  - apply IH.
Qed.

(** X11: once its reads have resolved, [lpProvidersCount] reports the number
    of distinct owners among the accounts with a positive balance whose owner
    is not excluded, and the sum of the balances of those accounts; an owner
    with several accounts counts once but all its balances are summed, and
    an excluded owner is never counted. *)
Theorem lp_providers_are_distinct_owners (P : Chain.provider) (lpMint : string)
    (excludeOwners : list string) (v1 v2 : list (option Chain.holder_info))
    (sup : Chain.balance) :
  Chain.getProgramAccountsByMint P lpMint Chain.TOKEN_PROGRAM = Ok v1 ->
  Chain.getProgramAccountsByMint P lpMint Chain.TOKEN_2022_PROGRAM = Ok v2 ->
  Chain.getMintSupply P lpMint = Ok sup ->
  exists out,
    Liquidity.lpProvidersCount P lpMint excludeOwners = Ok out
    /\ Liquidity.holders out
       = Z.of_nat (List.length
                     (nodup string_dec
                        (map Chain.owner (Liquidity.providing excludeOwners (v1 ++ v2)))))
    /\ (Liquidity.lp_sum_balances out
        == qsum (map Holders.ui_of (Liquidity.providing excludeOwners (v1 ++ v2))))%Q
    /\ Liquidity.holders out
       <= Z.of_nat (List.length (Liquidity.providing excludeOwners (v1 ++ v2)))
    /\ Forall (fun i => ~ In (Chain.owner i) excludeOwners /\ (0 < Holders.ui_of i)%Q)
         (Liquidity.providing excludeOwners (v1 ++ v2)).
Proof.
  intros H1 H2 Hs. unfold Liquidity.lpProvidersCount. rewrite H1, H2, Hs. cbn [bind].
  eexists. split; [reflexivity|].
  cbn [Liquidity.holders Liquidity.lp_sum_balances].
  destruct (provider_loop excludeOwners (v1 ++ v2) ([], 0%Q)) as [Hset Hsum].
  rewrite Hset. cbn [fst snd] in *.
  change (fold_left (fun s y => Activity.set_add y s) ?l [])
    with (Trades.distinct l).
  repeat split.
  - now rewrite distinct_length_nodup.
  - rewrite Hsum. ring.
  - apply inj_le. rewrite distinct_length_nodup.
    etransitivity; [apply NoDup_incl_length; [apply NoDup_nodup|]|].
    + intros x Hx. apply nodup_In in Hx. exact Hx.
    + now rewrite length_map.
  - apply Forall_forall. intros i Hi. unfold Liquidity.providing in Hi.
    apply filter_In in Hi. destruct Hi as [_ Hi]. unfold Liquidity.provides in Hi.
    apply andb_true_iff in Hi. destruct Hi as [Hpos Hex]. split.
    + intros Hin. apply includes_In in Hin. rewrite Hin in Hex. discriminate.
    + now apply Qgtb_iff.
Qed.

Lemma lp_providers_are_distinct_owners_witness :
  exists out,
    Liquidity.lpProvidersCount Samples.two_accounts_lp Fixtures.LP_MINT [Fixtures.LOCKER]
    = Ok out
    /\ Liquidity.holders out = 2
    /\ (Liquidity.lp_sum_balances out == 750)%Q.
Proof.
  destruct (lp_providers_are_distinct_owners Samples.two_accounts_lp Fixtures.LP_MINT
              [Fixtures.LOCKER]
              [Fixtures.held Fixtures.ALICE 450; Fixtures.held Fixtures.LOCKER 250; None;
               Fixtures.held Fixtures.ALICE 50; Fixtures.held Fixtures.BOB 0;
               Fixtures.held Fixtures.CAROL 250] []
              (Chain.to_balance {| Chain.raw_amount := 1000000000000; Chain.raw_decimals := 9 |})
              eq_refl eq_refl eq_refl) as (out & Hrun & Hn & Hsum & _).
  exists out. split; [exact Hrun|]. split.
  - rewrite Hn. reflexivity.
  - rewrite Hsum. reflexivity.
Defined.


(** ** HolderAnalyzer: the ranking *)

Lemma insert_desc_amounts (x : Holders.item) (l : list Holders.item) :
  amounts_descend (map Holders.it_ui l) ->
  amounts_descend (map Holders.it_ui (Holders.insert_desc x l)).
Proof.
  unfold amounts_descend.
  induction l as [|y l IH]; cbn [Holders.insert_desc map]; intros Hs.
  - repeat constructor.
  - inversion Hs as [|? ? Hl Hy]; subst.
    destruct (Qgtb (Holders.it_ui y) (Holders.it_ui x)) eqn:E; cbn [map].
    + apply Qgtb_iff in E. constructor; [now apply IH|].
      apply Forall_forall. intros u Hu. apply in_map_iff in Hu.
      destruct Hu as (z & <- & Hz).
      apply (Permutation_in _ (insert_desc_perm x l)) in Hz.
      destruct Hz as [<-|Hz]; [lra|].
      rewrite Forall_forall in Hy. apply Hy. now apply in_map.
    + assert (Hle : (Holders.it_ui y <= Holders.it_ui x)%Q).
      { destruct (Qlt_le_dec (Holders.it_ui x) (Holders.it_ui y)) as [Hlt|]; [|assumption].
        apply Qgtb_iff in Hlt. congruence. }
      constructor; [assumption|]. constructor; [assumption|].
      eapply Forall_impl; [|exact Hy]. cbn. intros; lra.
Qed.

Lemma sort_desc_amounts (l : list Holders.item) :
  amounts_descend (map Holders.it_ui (Holders.sort_desc l)).
Proof.
  induction l as [|x l IH]; cbn [Holders.sort_desc fold_right map].
  - constructor.
  - now apply insert_desc_amounts.
Qed.

Lemma amounts_descend_firstn (n : nat) (l : list Q) :
  amounts_descend l -> amounts_descend (firstn n l).
Proof.
  unfold amounts_descend. revert n. induction l as [|x l IH]; intros n Hs.
  - now rewrite firstn_nil.
  - destruct n as [|n]; cbn [firstn]; [constructor|].
    inversion Hs; subst. constructor; [now apply IH|].
    now apply Forall_firstn.
Qed.

Lemma rank_from_shape (s : Q) (i : Z) (l : list Holders.item) :
  map Holders.r_amount (Holders.rank_from s i l) = map Holders.it_ui l
  /\ map Holders.r_owner (Holders.rank_from s i l) = map Holders.it_owner l
  /\ map Holders.rank (Holders.rank_from s i l)
     = map (fun j => i + Z.of_nat j) (seq 1 (List.length l)).
Proof.
  revert i. induction l as [|x l IH]; intros i; cbn [Holders.rank_from map List.length seq].
  - repeat split.
  - destruct (IH (i + 1)) as (Ha & Ho & Hr).
    cbn [Holders.r_amount Holders.r_owner Holders.rank]. rewrite Ha, Ho, Hr.
    repeat split. f_equal.
    rewrite <- (seq_shift _ 1), map_map. apply map_ext. intros j. lia.
Qed.

Lemma In_firstn {B : Type} (n : nat) (l : list B) (x : B) : In x (firstn n l) -> In x l.
Proof.
  intros H. rewrite <- (firstn_skipn n l). apply in_app_iff. now left.
Qed.

Lemma items_loop_sources (rows : list (option Chain.holder_info)) (acc : list Holders.item) :
  forall x, In x (fold_left Holders.items_step rows acc) ->
    In x acc
    \/ exists info, In (Some info) rows
                    /\ Holders.it_owner x = Chain.owner info
                    /\ Holders.it_ui x = Holders.ui_of info
                    /\ (0 < Holders.ui_of info)%Q.
Proof.
  revert acc. induction rows as [|row rows IH]; intros acc x; cbn [fold_left].
  - auto.
  - intros Hx. apply IH in Hx. destruct Hx as [Hx|(info & Hin & H)].
    + destruct row as [info|]; cbn [Holders.items_step] in Hx; [|auto].
      destruct (Qgtb (Holders.ui_of info) 0) eqn:E; [|auto].
      apply in_app_iff in Hx. destruct Hx as [Hx|[<-|[]]]; [auto|].
      right. exists info. apply Qgtb_iff in E. cbn. auto.
    + right. exists info. cbn. tauto.
Qed.

Lemma items_loop_length (rows : list (option Chain.holder_info)) (acc : list Holders.item) :
  List.length (fold_left Holders.items_step rows acc)
  = (List.length acc
     + List.length (filter (fun u => Qgtb u 0)
                      (map Holders.ui_of (Holders.present rows))))%nat.
Proof.
  rewrite <- (length_map Holders.it_ui), items_loop_amounts, length_app, length_map.
  reflexivity.
Qed.

(** X12: [topHolders] lists min(limit, positive-balance accounts) entries,
    ranked 1, 2, ... with non-increasing amounts; every entry is one of the
    listed accounts with a positive ui balance, and total_accounts counts
    those accounts. *)
Theorem top_holders_ranking (P : Chain.provider) (mint : string) (limit : nat)
    (v1 v2 : list (option Chain.holder_info)) (sup : Chain.balance) :
  Chain.getProgramAccountsByMint P mint Chain.TOKEN_PROGRAM = Ok v1 ->
  Chain.getProgramAccountsByMint P mint Chain.TOKEN_2022_PROGRAM = Ok v2 ->
  Chain.getMintSupply P mint = Ok sup ->
  exists o,
    Holders.topHolders P mint limit = Ok o
    /\ Holders.total_accounts o
       = Z.of_nat (List.length (filter (fun u => Qgtb u 0)
                                  (map Holders.ui_of (Holders.present (v1 ++ v2)))))
    /\ Z.of_nat (List.length (Holders.top o))
       = Z.min (Z.of_nat limit) (Holders.total_accounts o)
    /\ map Holders.rank (Holders.top o)
       = map Z.of_nat (seq 1 (List.length (Holders.top o)))
    /\ StronglySorted (fun a b => (Holders.r_amount b <= Holders.r_amount a)%Q)
         (Holders.top o)
    /\ Forall (fun e => exists info,
                   In (Some info) (v1 ++ v2)
                   /\ Holders.r_owner e = Chain.owner info
                   /\ Holders.r_amount e = Holders.ui_of info
                   /\ (0 < Holders.r_amount e)%Q)
         (Holders.top o).
Proof.
  intros H1 H2 Hs. unfold Holders.topHolders.
  rewrite (getMintSupply_valid _ _ _ Hs), H1, H2, Hs. cbn [bind].
  eexists. split; [reflexivity|].
  cbn [Holders.total_accounts Holders.top].
  set (items := fold_left Holders.items_step (v1 ++ v2) []).
  set (chosen := firstn limit (Holders.sort_desc items)).
  destruct (rank_from_shape (Chain.ui sup) 0 chosen) as (Ha & Ho & Hr).
  assert (Hlen : List.length (Holders.rank_from (Chain.ui sup) 0 chosen)
                 = List.length chosen).
  { rewrite <- (length_map Holders.r_amount), Ha. apply length_map. }
  assert (Hitems : List.length items
                   = List.length (filter (fun u => Qgtb u 0)
                                    (map Holders.ui_of (Holders.present (v1 ++ v2)))))
    by (unfold items; now rewrite items_loop_length).
  repeat split.
  - now rewrite Hitems.
  - rewrite Hlen. unfold chosen. rewrite length_firstn.
    rewrite (Permutation_length (sort_desc_perm items)). lia.
  - rewrite Hr, Hlen. apply map_ext. intros j. lia.
  - assert (Hd : amounts_descend (map Holders.r_amount
                                    (Holders.rank_from (Chain.ui sup) 0 chosen))).
    { rewrite Ha. unfold chosen. rewrite <- firstn_map.
      apply amounts_descend_firstn, sort_desc_amounts. }
    clear - Hd. unfold amounts_descend in Hd.
    induction (Holders.rank_from (Chain.ui sup) 0 chosen) as [|e l IH]; [constructor|].
    cbn [map] in Hd. inversion Hd as [|? ? Hl He]; subst.
    constructor; [now apply IH|].
    apply Forall_forall. intros y Hy. rewrite Forall_forall in He.
    apply He. now apply in_map.
  - apply Forall_forall. intros e He.
    assert (Hx : exists x, In x chosen /\ Holders.r_owner e = Holders.it_owner x
                           /\ Holders.r_amount e = Holders.it_ui x).
    { clear - He. revert He. generalize 0 as i. induction chosen as [|x l IH]; intros i;
        cbn [Holders.rank_from In]; [intros []|].
      intros [<-|He]; [exists x; cbn; auto|].
      destruct (IH _ He) as (y & Hy & H). exists y. auto. }
    destruct Hx as (x & Hx & Eo & Ea).
    assert (Hin : In x items).
    { apply (Permutation_in _ (sort_desc_perm items)). unfold chosen in Hx.
      eapply In_firstn; eauto. }
    apply items_loop_sources in Hin. destruct Hin as [[]|(info & Hi & Ho' & Hu & Hp)].
    exists info. rewrite Eo, Ea, Ho', Hu. auto.
Qed.

Lemma top_holders_ranking_witness :
  exists o,
    Holders.topHolders Fixtures.three_holders Fixtures.TOKEN_MINT 2 = Ok o
    /\ Holders.total_accounts o = 3
    /\ Z.of_nat (List.length (Holders.top o)) = 2
    /\ map Holders.rank (Holders.top o) = [1; 2]
    /\ StronglySorted (fun a b => (Holders.r_amount b <= Holders.r_amount a)%Q)
         (Holders.top o).
Proof.
  destruct (top_holders_ranking Fixtures.three_holders Fixtures.TOKEN_MINT 2
              [Fixtures.held Fixtures.BOB 300; Fixtures.held Fixtures.ALICE 600;
               Fixtures.held Fixtures.CAROL 100] []
              (Chain.to_balance {| Chain.raw_amount := 1000000000; Chain.raw_decimals := 6 |})
              eq_refl eq_refl eq_refl) as (o & Hrun & Ht & Hl & Hr & Hs & _).
  exists o. split; [exact Hrun|].
  assert (Ht3 : Holders.total_accounts o = 3) by (rewrite Ht; reflexivity).
  assert (Hl2 : Z.of_nat (List.length (Holders.top o)) = 2) by (rewrite Hl, Ht3; reflexivity).
  repeat split; try assumption.
  rewrite Hr. replace (List.length (Holders.top o)) with 2%nat by lia. reflexivity.
Defined.


(** X13: with a zero ui supply [topHolders] still returns: every entry has a
    share of 0 and both concentration figures are 0. *)
Theorem top_holders_zero_supply (P : Chain.provider) (mint : string) (limit : nat)
    (v1 v2 : list (option Chain.holder_info)) (sup : Chain.balance) :
  Chain.getProgramAccountsByMint P mint Chain.TOKEN_PROGRAM = Ok v1 ->
  Chain.getProgramAccountsByMint P mint Chain.TOKEN_2022_PROGRAM = Ok v2 ->
  Chain.getMintSupply P mint = Ok sup ->
  (Chain.ui sup == 0)%Q ->
  exists o,
    Holders.topHolders P mint limit = Ok o
    /\ Forall (fun e => Holders.pct_of_supply e = 0%Q) (Holders.top o)
    /\ Holders.concentration_top1_pct o = 0%Q
    /\ (Holders.concentration_top10_pct o == 0)%Q.
Proof.
  intros H1 H2 Hs Hz. unfold Holders.topHolders.
  rewrite (getMintSupply_valid _ _ _ Hs), H1, H2, Hs. cbn [bind].
  eexists. split; [reflexivity|].
  cbn [Holders.top Holders.concentration_top1_pct Holders.concentration_top10_pct].
  apply truthy_false_iff in Hz.
  set (chosen := firstn limit (Holders.sort_desc (fold_left Holders.items_step (v1 ++ v2) []))).
  assert (Hall : forall i l, Forall (fun e => Holders.pct_of_supply e = 0%Q)
                               (Holders.rank_from (Chain.ui sup) i l)).
  { intros i l. revert i. induction l as [|x l IH]; intros i; cbn [Holders.rank_from];
      constructor; [cbn; now rewrite Hz|apply IH]. }
  split; [apply Hall|]. split.
  - destruct chosen as [|x l]; [reflexivity|].
    cbn [Holders.rank_from hd_error option_map Holders.pct_of_supply or_default].
    rewrite Hz. reflexivity.
  - rewrite fold_left_plus_qsum.
    assert (Hq : forall l, Forall (fun e => Holders.pct_of_supply e = 0%Q) l ->
                           (qsum (map Holders.pct_of_supply l) == 0)%Q).
    { induction 1 as [|e l He _ IH]; cbn [map qsum]; [reflexivity|].
      rewrite He, IH. ring. }
    rewrite Hq; [ring|]. apply Forall_firstn, Hall.
Qed.

Lemma top_holders_zero_supply_witness :
  exists o,
    Holders.topHolders Samples.zero_supply_mint Fixtures.TOKEN_MINT 20 = Ok o
    /\ Forall (fun e => Holders.pct_of_supply e = 0%Q) (Holders.top o)
    /\ Holders.concentration_top1_pct o = 0%Q
    /\ (Holders.concentration_top10_pct o == 0)%Q.
Proof.
  apply (top_holders_zero_supply Samples.zero_supply_mint Fixtures.TOKEN_MINT 20
           [Fixtures.held Fixtures.ALICE 5] []
           (Chain.to_balance {| Chain.raw_amount := 0; Chain.raw_decimals := 6 |}));
    reflexivity.
Defined.


(** ** ActivityAggregator: what a window holds *)

Lemma add_actor_touches_one_set (w : Q) (a : option string)
    (sets : Activity.actor_sets_t) (k : Q) :
  Obj.get k (Activity.add_actor w a sets)
  = if Qeq_bool k w then option_map (Trades.add_trader a) (Obj.get k sets)
    else Obj.get k sets.
Proof.
  unfold Activity.add_actor, Trades.add_trader.
  destruct a as [s|]; [destruct (String.eqb s "")|];
    rewrite ?obj_get_update; destruct (Qeq_bool k w); try reflexivity;
    now destruct (Obj.get k sets).
Qed.

Lemma legs_touch_one_set (w : Q) (l : list Chain.transfer)
    (st : Activity.results_t * Activity.actor_sets_t) (k : Q) :
  Obj.get k (snd (fold_left (Activity.leg_step w) l st))
  = if Qeq_bool k w
    then option_map (fun s => fold_left Trades.join_leg l s) (Obj.get k (snd st))
    else Obj.get k (snd st).
Proof.
  revert st. induction l as [|t l IH]; intros st; cbn [fold_left].
  - destruct (Qeq_bool k w); [|reflexivity]. now destruct (Obj.get k (snd st)).
  - rewrite IH.
    assert (Hsnd : snd (Activity.leg_step w st t)
                   = Activity.add_actor w (Chain.toUserAccount t)
                       (Activity.add_actor w (Chain.fromUserAccount t) (snd st)))
      by reflexivity.
    rewrite Hsnd, !add_actor_touches_one_set. clear Hsnd IH.
    destruct (Qeq_bool k w); [|reflexivity].
    now destruct (Obj.get k (snd st)).
Qed.

Lemma window_touches_one_set (dtMin : Q) (it : Chain.tx)
    (st : Activity.results_t * Activity.actor_sets_t) (w k : Q) :
  Obj.get k (snd (Activity.window_step dtMin it st w))
  = if Qleb dtMin w && Qeq_bool k w
    then option_map (Trades.join_actors it) (Obj.get k (snd st))
    else Obj.get k (snd st).
Proof.
  unfold Activity.window_step. destruct (Qleb dtMin w); [|reflexivity]. cbn [andb].
  now rewrite legs_touch_one_set.
Qed.

Lemma windows_join_once (dtMin : Q) (it : Chain.tx) (l : list Q) :
  NoDupA Qeq l ->
  forall (st : Activity.results_t * Activity.actor_sets_t) (k : Q),
    Obj.get k (snd (fold_left (Activity.window_step dtMin it) l st))
    = if Qleb dtMin k && Activity.has_key k l
      then option_map (Trades.join_actors it) (Obj.get k (snd st))
      else Obj.get k (snd st).
Proof.
  induction 1 as [|w l Hw Hl IH]; intros st k; cbn [fold_left].
  - now rewrite andb_false_r.
  - rewrite IH, window_touches_one_set. unfold Activity.has_key. cbn [existsb].
    fold (Activity.has_key k l).
    destruct (Qeq_bool k w) eqn:Ek.
    + assert (Hk : Activity.has_key k l = false).
      { destruct (Activity.has_key k l) eqn:E; [|reflexivity].
        apply has_key_InA in E. apply Qeq_bool_iff in Ek. rewrite Ek in E. contradiction. }
      apply Qeq_bool_iff in Ek. rewrite Hk, (Qleb_congr dtMin k w Ek).
      now rewrite andb_false_r, orb_true_l.
    + now rewrite andb_false_r, orb_false_l.
Qed.

Lemma tx_joins_counted (now : Z) (ws : list Q) :
  NoDupA Qeq ws ->
  forall (st : Activity.results_t * Activity.actor_sets_t) (it : Chain.tx) (k : Q),
    Obj.get k (snd (Activity.tx_step now ws st it))
    = if Activity.counted now it k && Activity.has_key k ws
      then option_map (Trades.join_actors it) (Obj.get k (snd st))
      else Obj.get k (snd st).
Proof.
  intros Hnd st it k. unfold Activity.tx_step, Activity.counted.
  destruct (Chain.blockTime it) as [ts|]; [|reflexivity].
  destruct (ts =? 0); [reflexivity|]. cbn [negb andb].
  now apply windows_join_once.
Qed.

(* The cell and the set of one window after a run of transactions. *)
Lemma page_folds_per_window (now : Z) (ws : list Q) (k : Q) :
  NoDupA Qeq ws -> Activity.has_key k ws = true ->
  forall (txs : list Chain.tx) (st : Activity.results_t * Activity.actor_sets_t),
    Obj.get k (fst (fold_left (Activity.tx_step now ws) txs st))
    = option_map
        (fun c => fold_left (fun c it => Activity.bump it c)
                    (filter (fun it => Activity.counted now it k) txs) c)
        (Obj.get k (fst st))
    /\ Obj.get k (snd (fold_left (Activity.tx_step now ws) txs st))
       = option_map
           (fun s => fold_left (fun s it => Trades.join_actors it s)
                       (filter (fun it => Activity.counted now it k) txs) s)
           (Obj.get k (snd st)).
Proof.
  intros Hnd Hk txs. induction txs as [|it txs IH]; intros st; cbn [fold_left filter].
  - split; [now destruct (Obj.get k (fst st))|now destruct (Obj.get k (snd st))].
  - destruct (IH (Activity.tx_step now ws st it)) as [H1 H2]. rewrite H1, H2.
    rewrite (tx_bumps_counted now ws Hnd), (tx_joins_counted now ws Hnd), Hk, andb_true_r.
    destruct (Activity.counted now it k); cbn [fold_left].
    + split; [now destruct (Obj.get k (fst st))|now destruct (Obj.get k (snd st))].
    + split; reflexivity.
Qed.

Lemma bumps_cell (txs : list Chain.tx) (c : Activity.cell) :
  Activity.tx_count (fold_left (fun c it => Activity.bump it c) txs c)
  = Activity.tx_count c + Z.of_nat (List.length txs)
  /\ (Activity.volume_usdc (fold_left (fun c it => Activity.bump it c) txs c)
      == Activity.volume_usdc c + qsum (map Activity.usdc_volume txs))%Q.
Proof.
  revert c. induction txs as [|it txs IH]; intros c; cbn [fold_left List.length map qsum].
  - split; [lia|ring].
  - destruct (IH (Activity.bump it c)) as [H1 H2].
    rewrite H1, H2, bump_tx, bump_volume. split; [lia|ring].
Qed.

Lemma set_add_twice (x : string) (s : list string) :
  Activity.set_add x (Activity.set_add x s) = Activity.set_add x s.
Proof.
  unfold Activity.set_add at 1.
  assert (H : Holders.includes (Activity.set_add x s) x = true)
    by (apply includes_In, set_add_In; now left).
  now rewrite H.
Qed.

Lemma join_leg_actors (t : Chain.transfer) (s : list string) :
  Trades.join_leg s t
  = fold_left (fun s x => Activity.set_add x s) (Trades.leg_actors t) s.
Proof.
  assert (Hab : forall a b, Activity.set_add b (Activity.set_add a [])
                            = if String.eqb b a then [a] else [a; b]).
  { intros a b. unfold Activity.set_add, Holders.includes. cbn.
    now destruct (String.eqb b a). }
  unfold Trades.join_leg, Trades.leg_actors, Trades.add_trader.
  destruct (Chain.fromUserAccount t) as [a|], (Chain.toUserAccount t) as [b|];
    try destruct (String.eqb a ""); try destruct (String.eqb b ""); try reflexivity.
  rewrite Hab. destruct (String.eqb b a) eqn:E; cbn [fold_left]; [|reflexivity].
  apply String.eqb_eq in E. subst b. apply set_add_twice.
Qed.

Lemma join_actors_tx (it : Chain.tx) (s : list string) :
  Trades.join_actors it s
  = fold_left (fun s x => Activity.set_add x s) (Trades.tx_actors it) s.
Proof.
  unfold Trades.join_actors, Trades.tx_actors. revert s.
  induction (Activity.legs it) as [|t l IH]; intros s; cbn [fold_left flat_map].
  - reflexivity.
  - now rewrite fold_left_app, IH, join_leg_actors.
Qed.

Lemma joins_are_set_adds (txs : list Chain.tx) (s : list string) :
  fold_left (fun s it => Trades.join_actors it s) txs s
  = fold_left (fun s x => Activity.set_add x s) (flat_map Trades.tx_actors txs) s.
Proof.
  revert s. induction txs as [|it txs IH]; intros s; cbn [fold_left flat_map].
  - reflexivity.
  - now rewrite fold_left_app, IH, join_actors_tx.
Qed.

Lemma scan_windows_pages (P : Chain.provider) (now : Z) (ws : list Q)
    (addresses : list string) (st : Activity.results_t * Activity.actor_sets_t) :
  Activity.scan_windows P now ws addresses st
  = match Trades.fetch_pages P addresses with
    | Ok txs => Ok (fold_left (Activity.tx_step now ws) txs st)
    | Err e => Err e
    end.
Proof.
  revert st. induction addresses as [|addr rest IH]; intros st;
    cbn [Activity.scan_windows Trades.fetch_pages].
  - reflexivity.
  - destruct (Chain.heliusGET_history P addr) as [arr|]; cbn [bind]; [|reflexivity].
    rewrite IH. destruct (Trades.fetch_pages P rest); cbn [bind]; [|reflexivity].
    now rewrite fold_left_app.
Qed.

Lemma init_sets_cells (l : list Q) (r : Activity.actor_sets_t) (k : Q) :
  Obj.get k (fold_left (fun r w => Obj.set w [] r) l r)
  = if Activity.has_key k l then Some [] else Obj.get k r.
Proof.
  revert r. induction l as [|w l IH]; intros r; cbn [fold_left]; [reflexivity|].
  rewrite IH, obj_get_set. unfold Activity.has_key. cbn [existsb].
  fold (Activity.has_key k l).
  now destruct (Activity.has_key k l), (Qeq_bool k w).
Qed.

Lemma finish_sets_size (l : list Q) (sets : Activity.actor_sets_t) (k : Q) (s : list string) :
  Obj.get k sets = Some s ->
  forall r,
    Obj.get k (Activity.finish l (r, sets))
    = if Activity.has_key k l
      then option_map (Activity.set_actors (Z.of_nat (List.length s))) (Obj.get k r)
      else Obj.get k r.
Proof.
  intros Hs. unfold Activity.finish. cbn [fst snd].
  induction l as [|w l IH]; intros r; cbn [fold_left]; [reflexivity|].
  rewrite IH. unfold Activity.has_key. cbn [existsb]. fold (Activity.has_key k l).
  destruct (Qeq_bool k w) eqn:Ek.
  - assert (Hw : Obj.get w sets = Some s).
    { apply Qeq_bool_iff in Ek. now rewrite <- (obj_get_congr k w sets Ek). }
    rewrite Hw, obj_get_update, Ek. cbn [orb].
    destruct (Activity.has_key k l); [|reflexivity].
    now destruct (Obj.get k r).
  - cbn [orb]. destruct (Obj.get w sets); [|reflexivity].
    now rewrite obj_get_update, Ek.
Qed.

(* The whole of activityWindows, window by window. *)
Lemma window_cell_of_pages (P : Chain.provider) (now : Z) (addresses : list string)
    (ws : list Q) (txs : list Chain.tx) :
  NoDupA Qeq ws ->
  Trades.fetch_pages P addresses = Ok txs ->
  exists res,
    Activity.activityWindows P now addresses ws = Ok res
    /\ forall w, Activity.has_key w ws = true ->
         exists c,
           Obj.get w res = Some c
           /\ Activity.tx_count c
              = Z.of_nat (List.length (filter (fun it => Activity.counted now it w) txs))
           /\ (Activity.volume_usdc c
               == qsum (map Activity.usdc_volume
                          (filter (fun it => Activity.counted now it w) txs)))%Q
           /\ Activity.unique_actors c
              = Z.of_nat (List.length
                            (Trades.distinct
                               (flat_map Trades.tx_actors
                                  (filter (fun it => Activity.counted now it w) txs)))).
Proof.
  intros Hnd Hpages. unfold Activity.activityWindows.
  rewrite scan_windows_pages, Hpages. cbn [bind].
  eexists. split; [reflexivity|]. intros w Hw.
  set (st := fold_left (Activity.tx_step now ws) txs
               (Activity.init_results ws, Activity.init_sets ws)).
  destruct (page_folds_per_window now ws w Hnd Hw txs
              (Activity.init_results ws, Activity.init_sets ws)) as [Hr Hs].
  fold st in Hr, Hs. cbn [fst snd] in Hr, Hs.
  unfold Activity.init_results in Hr. rewrite init_results_cells, Hw in Hr.
  unfold Activity.init_sets in Hs. rewrite init_sets_cells, Hw in Hs.
  cbn [option_map] in Hr, Hs.
  destruct st as [r sets]. cbn [fst snd] in Hr, Hs.
  rewrite (finish_sets_size ws sets w _ Hs), Hw, Hr. cbn [option_map].
  eexists. split; [reflexivity|].
  cbn [Activity.set_actors Activity.tx_count Activity.volume_usdc Activity.unique_actors].
  destruct (bumps_cell (filter (fun it => Activity.counted now it w) txs)
              {| Activity.tx_count := 0; Activity.volume_usdc := 0%Q;
                 Activity.unique_actors := 0 |}) as [Htx Hvol].
  rewrite Htx, Hvol, joins_are_set_adds. cbn [Activity.tx_count Activity.volume_usdc].
  split; [lia|]. split; [ring|reflexivity].
Qed.

Lemma activityWindows_fails (P : Chain.provider) (now : Z) (addresses : list string)
    (ws : list Q) (e : error) :
  Trades.fetch_pages P addresses = Err e ->
  Activity.activityWindows P now addresses ws = Err e.
Proof.
  intros H. unfold Activity.activityWindows. now rewrite scan_windows_pages, H.
Qed.

(** X14: for pairwise distinct window lengths, the cell of a window holds
    the number of fetched transactions with a block time whose age is at most
    the window, the USDC volume of those transactions and the number of
    distinct counterparties they name; a failing page fetch fails the call. *)
Theorem window_cell_contents (P : Chain.provider) (now : Z) (addresses : list string)
    (windowsMinutes : list Q) :
  NoDupA Qeq windowsMinutes ->
  (forall txs, Trades.fetch_pages P addresses = Ok txs ->
     exists res,
       Activity.activityWindows P now addresses windowsMinutes = Ok res
       /\ forall w, In w windowsMinutes ->
            exists c,
              Obj.get w res = Some c
              /\ Activity.tx_count c
                 = Z.of_nat (List.length (filter (fun it => Activity.counted now it w) txs))
              /\ (Activity.volume_usdc c
                  == qsum (map Activity.usdc_volume
                             (filter (fun it => Activity.counted now it w) txs)))%Q
              /\ Activity.unique_actors c
                 = Z.of_nat (List.length
                               (nodup string_dec
                                  (flat_map Trades.tx_actors
                                     (filter (fun it => Activity.counted now it w) txs)))))
  /\ (forall e, Trades.fetch_pages P addresses = Err e ->
        Activity.activityWindows P now addresses windowsMinutes = Err e).
Proof.
  intros Hnd. split.
  - intros txs Hp.
    destruct (window_cell_of_pages P now addresses windowsMinutes txs Hnd Hp)
      as (res & Hres & Hcells).
    exists res. split; [assumption|]. intros w Hw.
    destruct (Hcells w (has_key_In w _ Hw)) as (c & H1 & H2 & H3 & H4).
    exists c. rewrite <- distinct_length_nodup. auto.
  - intros e He. now apply activityWindows_fails.
Qed.

Lemma window_cell_contents_witness :
  exists res c,
    Activity.activityWindows Samples.busy_history Fixtures.NOW [Fixtures.POOL]
      [5; 1440; 4320]%Q = Ok res
    /\ Obj.get 4320%Q res = Some c
    /\ Activity.tx_count c = 3
    /\ (Activity.volume_usdc c == 50)%Q
    /\ Activity.unique_actors c = 3.
Proof.
  assert (Hnd : NoDupA Qeq [5; 1440; 4320]%Q) by distinct_keys.
  destruct (proj1 (window_cell_contents Samples.busy_history Fixtures.NOW [Fixtures.POOL]
                     [5; 1440; 4320]%Q Hnd) Samples.busy_page eq_refl)
    as (res & Hrun & Hcells).
  destruct (Hcells 4320%Q) as (c & G & T & V & U); [cbn; auto|].
  exists res, c. split; [exact Hrun|]. split; [exact G|].
  split; [rewrite T; reflexivity|]. split; [rewrite V; reflexivity|].
  rewrite U. reflexivity.
Defined.


Lemma filter_incl_impl {B : Type} (p q : B -> bool) (l : list B) :
  (forall x, p x = true -> q x = true) -> incl (filter p l) (filter q l).
Proof.
  intros H x Hx. apply filter_In in Hx. destruct Hx as [Hin Hp].
  apply filter_In. auto.
Qed.

Lemma qsum_filter_le {B : Type} (f : B -> Q) (p q : B -> bool) (l : list B) :
  (forall x, (0 <= f x)%Q) ->
  (forall x, p x = true -> q x = true) ->
  (qsum (map f (filter p l)) <= qsum (map f (filter q l)))%Q.
Proof.
  intros Hf Hpq. induction l as [|x l IH]; cbn [filter map qsum]; [lra|].
  pose proof (Hf x). pose proof (Hpq x).
  destruct (p x), (q x); cbn [map qsum]; try lra.
Qed.

Lemma qsum_map_nonneg {B : Type} (f : B -> Q) (l : list B) :
  (forall x, (0 <= f x)%Q) -> (0 <= qsum (map f l))%Q.
Proof.
  intros Hf. apply qsum_nonneg, Forall_forall. intros y Hy.
  apply in_map_iff in Hy. destruct Hy as (x & <- & _). apply Hf.
Qed.

(** X15: for pairwise distinct window lengths, a shorter window never
    reports more unique counterparties than a longer one. *)
Theorem unique_actors_nested (P : Chain.provider) (now : Z) (addresses : list string)
    (windowsMinutes : list Q) (res : Activity.results_t) (w1 w2 : Q) :
  NoDupA Qeq windowsMinutes ->
  Activity.activityWindows P now addresses windowsMinutes = Ok res ->
  In w1 windowsMinutes -> In w2 windowsMinutes -> (w1 <= w2)%Q ->
  exists c1 c2,
    Obj.get w1 res = Some c1 /\ Obj.get w2 res = Some c2
    /\ Activity.unique_actors c1 <= Activity.unique_actors c2.
Proof.
  intros Hnd Hrun H1 H2 Hle.
  destruct (Trades.fetch_pages P addresses) as [txs|e] eqn:Hp;
    [|rewrite (activityWindows_fails P now addresses windowsMinutes e Hp) in Hrun;
      discriminate].
  destruct (window_cell_of_pages P now addresses windowsMinutes txs Hnd Hp)
    as (res' & Hres & Hcells).
  rewrite Hrun in Hres. injection Hres as <-.
  destruct (Hcells w1 (has_key_In _ _ H1)) as (c1 & G1 & _ & _ & U1).
  destruct (Hcells w2 (has_key_In _ _ H2)) as (c2 & G2 & _ & _ & U2).
  exists c1, c2. repeat split; try assumption.
  rewrite U1, U2. apply inj_le, distinct_length_le.
  intros x Hx. apply in_flat_map in Hx. destruct Hx as (it & Hit & Hx).
  apply in_flat_map. exists it. split; [|assumption].
  revert Hit. apply filter_incl_impl. intros y. now apply counted_mono.
Qed.

Lemma unique_actors_nested_witness :
  exists res c1 c2,
    Activity.activityWindows Samples.busy_history Fixtures.NOW [Fixtures.POOL]
      [5; 1440; 4320]%Q = Ok res
    /\ Obj.get 5%Q res = Some c1 /\ Obj.get 4320%Q res = Some c2
    /\ Activity.unique_actors c1 <= Activity.unique_actors c2.
Proof.
  destruct (Activity.activityWindows Samples.busy_history Fixtures.NOW [Fixtures.POOL]
              [5; 1440; 4320]%Q) as [res|e] eqn:Hrun; [|vm_compute in Hrun; discriminate].
  destruct (unique_actors_nested Samples.busy_history Fixtures.NOW [Fixtures.POOL]
              [5; 1440; 4320]%Q res 5%Q 4320%Q) as (c1 & c2 & H);
    [ distinct_keys | exact Hrun | cbn; auto | cbn; auto | discriminate | ].
  exists res, c1, c2. split; [reflexivity|exact H].
Defined.


(** ** Trades of the trailing day *)

Lemma trade_legs_state (l : list Chain.transfer) (st : Trades.trade_state) :
  Trades.actors (fold_left Trades.trade_leg_step l st)
  = fold_left Trades.join_leg l (Trades.actors st)
  /\ Trades.trades (fold_left Trades.trade_leg_step l st) = Trades.trades st
  /\ (Trades.volUSDC (fold_left Trades.trade_leg_step l st)
      == Trades.volUSDC st
         + qsum (map Activity.leg_amount
                   (filter (fun t => ReserveOracle.is_usdc (Chain.t_mint t)) l)))%Q.
Proof.
  revert st. induction l as [|t l IH]; intros st; cbn [fold_left filter].
  - repeat split. cbn [map qsum]. ring.
  - destruct (IH (Trades.trade_leg_step st t)) as (Ha & Ht & Hv).
    rewrite Ha, Ht, Hv. unfold Trades.trade_leg_step.
    cbn [Trades.actors Trades.trades Trades.volUSDC].
    repeat split.
    destruct (ReserveOracle.is_usdc (Chain.t_mint t)); cbn [map qsum]; ring.
Qed.

Lemma trade_txs_state (since : Z) (txs : list Chain.tx) (st : Trades.trade_state) :
  Trades.actors (fold_left (Trades.trade_tx_step since) txs st)
  = fold_left (fun s it => Trades.join_actors it s)
      (filter (Trades.recent since) txs) (Trades.actors st)
  /\ Trades.trades (fold_left (Trades.trade_tx_step since) txs st)
     = Trades.trades st + Z.of_nat (List.length (filter (Trades.recent since) txs))
  /\ (Trades.volUSDC (fold_left (Trades.trade_tx_step since) txs st)
      == Trades.volUSDC st
         + qsum (map Activity.usdc_volume (filter (Trades.recent since) txs)))%Q.
Proof.
  revert st. induction txs as [|it txs IH]; intros st; cbn [fold_left filter].
  - repeat split; [cbn; lia|cbn [map qsum]; ring].
  - destruct (IH (Trades.trade_tx_step since st it)) as (Ha & Ht & Hv).
    rewrite Ha, Ht, Hv. unfold Trades.trade_tx_step.
    destruct (Trades.recent since it); cbn [fold_left List.length map qsum].
    + destruct (trade_legs_state (Activity.legs it)
                  {| Trades.actors := Trades.actors st;
                     Trades.trades := Trades.trades st + 1;
                     Trades.volUSDC := Trades.volUSDC st |}) as (La & Lt & Lv).
      rewrite La, Lt, Lv. cbn [Trades.actors Trades.trades Trades.volUSDC].
      repeat split; [lia|]. unfold Activity.usdc_volume. ring.
    + repeat split.
Qed.

Lemma scan_trades_pages (P : Chain.provider) (since : Z) (addresses : list string)
    (st : Trades.trade_state) :
  Trades.scan_trades P since addresses st
  = match Trades.fetch_pages P addresses with
    | Ok txs => Ok (fold_left (Trades.trade_tx_step since) txs st)
    | Err e => Err e
    end.
Proof.
  revert st. induction addresses as [|addr rest IH]; intros st;
    cbn [Trades.scan_trades Trades.fetch_pages].
  - reflexivity.
  - destruct (Chain.heliusGET_history P addr) as [arr|]; cbn [bind]; [|reflexivity].
    rewrite IH. destruct (Trades.fetch_pages P rest); cbn [bind]; [|reflexivity].
    now rewrite fold_left_app.
Qed.

Lemma trades_of_pages (P : Chain.provider) (now : Z) (addresses : list string)
    (txs : list Chain.tx) :
  Trades.fetch_pages P addresses = Ok txs ->
  exists out,
    Trades.tradersTradesVolume24h P now addresses = Ok out
    /\ Trades.total_trades_24h out
       = Z.of_nat (List.length (filter (Trades.recent (now - 86400)) txs))
    /\ (Trades.total_volume_usdc_24h out
        == qsum (map Activity.usdc_volume (filter (Trades.recent (now - 86400)) txs)))%Q
    /\ Trades.unique_traders_24h out
       = Z.of_nat (List.length
                     (Trades.distinct
                        (flat_map Trades.tx_actors
                           (filter (Trades.recent (now - 86400)) txs)))).
Proof.
  intros Hp. unfold Trades.tradersTradesVolume24h. cbv zeta.
  rewrite scan_trades_pages, Hp. cbn [bind].
  eexists. split; [reflexivity|].
  cbn [Trades.total_trades_24h Trades.total_volume_usdc_24h Trades.unique_traders_24h].
  destruct (trade_txs_state (now - 86400) txs
              {| Trades.actors := []; Trades.trades := 0; Trades.volUSDC := 0%Q |})
    as (Ha & Ht & Hv).
  rewrite Ha, Ht, Hv, joins_are_set_adds.
  cbn [Trades.actors Trades.trades Trades.volUSDC].
  split; [lia|]. split; [ring|reflexivity].
Qed.

Lemma age_within_day (d : Z) :
  (inject_Z d / inject_Z 60 <= inject_Z 1440)%Q <-> d <= 86400.
Proof.
  unfold Qle, Qdiv, Qmult, Qinv, inject_Z. cbn. lia.
Qed.

Lemma recent_is_counted_1440 (now : Z) (it : Chain.tx) :
  86400 < now ->
  Trades.recent (now - 86400) it = Activity.counted now it (inject_Z 1440).
Proof.
  intros Hnow. unfold Trades.recent, Activity.counted.
  destruct (Chain.blockTime it) as [ts|]; cbv beta iota.
  - destruct (ts =? 0) eqn:E0.
    + apply Z.eqb_eq in E0. subst ts. cbn [negb andb].
      apply negb_false_iff, Z.ltb_lt. lia.
    + cbn [negb andb].
      destruct (Qleb (inject_Z (now - ts) / inject_Z 60) (inject_Z 1440)) eqn:E.
      * apply Qleb_iff in E. apply (proj1 (age_within_day _)) in E.
        apply negb_true_iff, Z.ltb_ge. lia.
      * apply negb_false_iff, Z.ltb_lt.
        destruct (Z_le_gt_dec (now - ts) 86400) as [Hle|Hgt]; [|lia].
        apply (proj2 (age_within_day _)) in Hle. apply Qleb_iff in Hle. congruence.
  - apply negb_false_iff, Z.ltb_lt. lia.
Qed.

Lemma filter_ext_all {B : Type} (p q : B -> bool) (l : list B) :
  (forall x, p x = q x) -> filter p l = filter q l.
Proof. intros H. apply filter_ext. exact H. Qed.

(** X16: [tradersTradesVolume24h] reports the number of fetched transactions
    of the trailing day, their USDC volume and the number of distinct
    counterparties they name. *)
Theorem trades_of_the_day (P : Chain.provider) (now : Z) (addresses : list string)
    (txs : list Chain.tx) :
  Trades.fetch_pages P addresses = Ok txs ->
  exists out,
    Trades.tradersTradesVolume24h P now addresses = Ok out
    /\ Trades.total_trades_24h out
       = Z.of_nat (List.length (filter (Trades.recent (now - 86400)) txs))
    /\ (Trades.total_volume_usdc_24h out
        == qsum (map Activity.usdc_volume (filter (Trades.recent (now - 86400)) txs)))%Q
    /\ Trades.unique_traders_24h out
       = Z.of_nat (List.length
                     (nodup string_dec
                        (flat_map Trades.tx_actors
                           (filter (Trades.recent (now - 86400)) txs)))).
Proof.
  intros Hp. destruct (trades_of_pages P now addresses txs Hp) as (out & H1 & H2 & H3 & H4).
  exists out. rewrite <- distinct_length_nodup. auto.
Qed.

Lemma trades_of_the_day_witness :
  exists out,
    Trades.tradersTradesVolume24h Samples.busy_history Fixtures.NOW [Fixtures.POOL] = Ok out
    /\ Trades.total_trades_24h out = 2
    /\ (Trades.total_volume_usdc_24h out == 10)%Q
    /\ Trades.unique_traders_24h out = 3.
Proof.
  destruct (trades_of_the_day Samples.busy_history Fixtures.NOW [Fixtures.POOL]
              Samples.busy_page eq_refl) as (out & Hrun & T & V & U).
  exists out. split; [exact Hrun|].
  split; [rewrite T; reflexivity|]. split; [rewrite V; reflexivity|].
  rewrite U. reflexivity.
Defined.


(** X17: at any time later than one day after the epoch,
    [tradersTradesVolume24h] and the 1440-minute window of [activityWindows]
    agree on the same addresses: same transaction count, same USDC volume,
    same number of unique counterparties. *)
Theorem trades_agree_with_day_window (P : Chain.provider) (now : Z)
    (addresses : list string) (windowsMinutes : list Q)
    (res : Activity.results_t) (out : Trades.traders_trades_volume) :
  86400 < now ->
  NoDupA Qeq windowsMinutes -> In (inject_Z 1440) windowsMinutes ->
  Activity.activityWindows P now addresses windowsMinutes = Ok res ->
  Trades.tradersTradesVolume24h P now addresses = Ok out ->
  exists c,
    Obj.get (inject_Z 1440) res = Some c
    /\ Activity.tx_count c = Trades.total_trades_24h out
    /\ (Activity.volume_usdc c == Trades.total_volume_usdc_24h out)%Q
    /\ Activity.unique_actors c = Trades.unique_traders_24h out.
Proof.
  intros Hnow Hnd Hin Hrun Hout.
  destruct (Trades.fetch_pages P addresses) as [txs|e] eqn:Hp;
    [|rewrite (activityWindows_fails P now addresses windowsMinutes e Hp) in Hrun;
      discriminate].
  destruct (window_cell_of_pages P now addresses windowsMinutes txs Hnd Hp)
    as (res' & Hres & Hcells).
  rewrite Hrun in Hres. injection Hres as <-.
  destruct (Hcells _ (has_key_In _ _ Hin)) as (c & G & T & V & U).
  destruct (trades_of_pages P now addresses txs Hp) as (out' & Hout' & T' & V' & U').
  rewrite Hout in Hout'. injection Hout' as <-.
  assert (E : filter (Trades.recent (now - 86400)) txs
              = filter (fun it => Activity.counted now it (inject_Z 1440)) txs)
    by (apply filter_ext_all; intros it; now apply recent_is_counted_1440).
  exists c. split; [exact G|]. rewrite T, V, U, T', V', U', E. repeat split; reflexivity.
Qed.

Lemma trades_agree_with_day_window_witness :
  exists res out c,
    Activity.activityWindows Samples.busy_history Fixtures.NOW [Fixtures.POOL]
      [inject_Z 5; inject_Z 1440] = Ok res
    /\ Trades.tradersTradesVolume24h Samples.busy_history Fixtures.NOW [Fixtures.POOL]
       = Ok out
    /\ Obj.get (inject_Z 1440) res = Some c
    /\ Activity.tx_count c = Trades.total_trades_24h out
    /\ (Activity.volume_usdc c == Trades.total_volume_usdc_24h out)%Q
    /\ Activity.unique_actors c = Trades.unique_traders_24h out.
Proof.
  destruct (Activity.activityWindows Samples.busy_history Fixtures.NOW [Fixtures.POOL]
              [inject_Z 5; inject_Z 1440]) as [res|e] eqn:Hrun;
    [|vm_compute in Hrun; discriminate].
  destruct (Trades.tradersTradesVolume24h Samples.busy_history Fixtures.NOW [Fixtures.POOL])
    as [out|e] eqn:Hout; [|vm_compute in Hout; discriminate].
  destruct (trades_agree_with_day_window Samples.busy_history Fixtures.NOW [Fixtures.POOL]
              [inject_Z 5; inject_Z 1440] res out) as (c & H);
    [ reflexivity | distinct_keys | cbn; auto | exact Hrun | exact Hout | ].
  exists res, out, c. split; [reflexivity|]. split; [reflexivity|exact H].
Defined.


(** ** Revival detector *)

(** X18: [revivalDetector] never reports a revival: the volume of the last
    day is part of the volume of the last three days, so the multiplier is at
    most 3 (or NaN when there is no volume at all) and the test
    `multiplier > 3` is false whenever the call returns. *)
Theorem revival_is_never_active (P : Chain.provider) (now : Z)
    (poolAddresses : list string) (r : Trades.revival) :
  Trades.revivalDetector P now poolAddresses = Ok r ->
  Trades.revival_active r = false.
Proof.
  unfold Trades.revivalDetector. intros Hrun.
  destruct (Trades.fetch_pages P poolAddresses) as [txs|e] eqn:Hp;
    [|rewrite (activityWindows_fails P now poolAddresses _ e Hp) in Hrun; discriminate].
  assert (Hnd : NoDupA Qeq [inject_Z (60 * 24); inject_Z (60 * 72)]).
  { apply NoDupA_cons; [|apply NoDupA_cons; [|apply NoDupA_nil]].
    - intros H. inversion_clear H as [? ? H'|? ? H'];
        [vm_compute in H'; discriminate|inversion H'].
    - intros H. inversion H. }
  destruct (window_cell_of_pages P now poolAddresses _ txs Hnd Hp)
    as (win & Hwin & Hcells).
  rewrite Hwin in Hrun. cbn [bind] in Hrun.
  destruct (Hcells (inject_Z 1440) eq_refl) as (c1 & G1 & _ & V1 & _).
  destruct (Hcells (inject_Z 4320) eq_refl) as (c2 & G2 & _ & V2 & _).
  rewrite G1, G2 in Hrun. injection Hrun as <-. cbn [Trades.revival_active].
  assert (H0 : (0 <= Activity.volume_usdc c1)%Q).
  { rewrite V1. apply qsum_map_nonneg, usdc_volume_nonneg. }
  assert (Hle : (Activity.volume_usdc c1 <= Activity.volume_usdc c2)%Q).
  { rewrite V1, V2. apply qsum_filter_le; [apply usdc_volume_nonneg|].
    intros it. apply counted_mono. rewrite <- Zle_Qle. lia. }
  set (v1 := Activity.volume_usdc c1) in *. set (v2 := Activity.volume_usdc c2) in *.
  clearbody v1 v2. unfold Trades.jsdiv.
  destruct (Qeq_bool (v2 / inject_Z 3) 0) eqn:Ez.
  - apply Qeq_bool_iff in Ez.
    assert (Hv2 : (v2 == 0)%Q).
    { assert (E : (v2 == v2 / inject_Z 3 * inject_Z 3)%Q) by (field; discriminate).
      rewrite E, Ez. ring. }
    assert (Hv1 : (v1 == 0)%Q) by lra.
    apply Qeq_bool_iff in Hv1. rewrite Hv1. reflexivity.
  - cbn [Trades.jsgt]. unfold Qgtb. apply negb_false_iff, Qle_bool_iff.
    assert (Hpos : (0 < v2 / inject_Z 3)%Q).
    { assert (Hnz : ~ (v2 / inject_Z 3 == 0)%Q).
      { intros E. apply Qeq_bool_iff in E. congruence. }
      assert (0 <= v2 / inject_Z 3)%Q by (apply Qle_shift_div_l; [reflexivity|lra]).
      lra. }
    apply Qle_shift_div_r; [assumption|].
    assert (E : (inject_Z 3 * (v2 / inject_Z 3) == v2)%Q) by (field; discriminate).
    rewrite E. assumption.
Qed.

Lemma revival_is_never_active_witness :
  exists r,
    Trades.revivalDetector Fixtures.pool_history Fixtures.NOW [Fixtures.POOL] = Ok r
    /\ Trades.multiplier r = Trades.Num (Trades.daily_volume_usdc r / (10 / inject_Z 3))%Q
    /\ Trades.revival_active r = false.
Proof.
  destruct (Trades.revivalDetector Fixtures.pool_history Fixtures.NOW [Fixtures.POOL])
    as [r|e] eqn:Hrun; [|vm_compute in Hrun; discriminate].
  exists r. split; [reflexivity|]. split.
  - vm_compute in Hrun. injection Hrun as <-. reflexivity.
  - apply (revival_is_never_active Fixtures.pool_history Fixtures.NOW [Fixtures.POOL] r Hrun).
Defined.


(** ** Maps keyed by strings *)

Lemma smap_set_keys {V : Type} (k : string) (v : V) (m : list (string * V)) :
  map fst (SMap.set k v m)
  = if Holders.includes (map fst m) k then map fst m else map fst m ++ [k].
Proof.
  induction m as [|[x u] m IH]; cbn [SMap.set map fst].
  - reflexivity.
  - unfold Holders.includes. cbn [existsb].
    destruct (String.eqb k x) eqn:E; cbn [orb map fst]; [reflexivity|].
    rewrite IH. unfold Holders.includes.
    now destruct (existsb (String.eqb k) (map fst m)).
Qed.

Lemma smap_set_keys_NoDup {V : Type} (k : string) (v : V) (m : list (string * V)) :
  NoDup (map fst m) -> NoDup (map fst (SMap.set k v m)).
Proof.
  intros H. rewrite smap_set_keys.
  change (if Holders.includes (map fst m) k then map fst m else map fst m ++ [k])
    with (Activity.set_add k (map fst m)).
  now apply set_add_NoDup.
Qed.

Lemma smap_set_In {V : Type} (k : string) (v : V) (m : list (string * V)) (p : string * V) :
  In p (SMap.set k v m) -> p = (k, v) \/ In p m.
Proof.
  induction m as [|[x u] m IH]; cbn [SMap.set In].
  - intros [<-|[]]. now left.
  - destruct (String.eqb k x) eqn:E; cbn [In].
    + apply String.eqb_eq in E. subst x. intros [<-|H]; auto.
    + intros [<-|H]; [auto|]. apply IH in H. tauto.
Qed.

Lemma smap_set_zsum (k : string) (v : Z) (m : list (string * Z)) :
  Trades.zsum (map snd (SMap.set k v m))
  = Trades.zsum (map snd m) + v
    - match SMap.get k m with Some old => old | None => 0 end.
Proof.
  induction m as [|[x u] m IH]; cbn [SMap.set SMap.get map snd Trades.zsum].
  - lia.
  - destruct (String.eqb k x); cbn [map snd Trades.zsum]; [lia|]. rewrite IH. lia.
Qed.

(** ** VIP presence: what the hit list holds *)

Lemma smap_get_In {V : Type} (k : string) (m : list (string * V)) (v : V) :
  SMap.get k m = Some v -> In (k, v) m.
Proof.
  induction m as [|[x u] m IH]; cbn [SMap.get In]; [discriminate|].
  destruct (String.eqb k x) eqn:E.
  - apply String.eqb_eq in E. subst x. intros [= <-]. now left.
  - auto.
Qed.

Lemma vip_leg_step_ok (vip : list string) (hits : list (string * Z)) (t : Chain.transfer) :
  vip_hits_ok vip hits ->
  vip_hits_ok vip (Activity.vip_leg_step vip hits t)
  /\ Trades.zsum (map snd (Activity.vip_leg_step vip hits t))
     = Trades.zsum (map snd hits) + (if Trades.vip_leg vip t then 1 else 0).
Proof.
  intros [Hnd Hall]. unfold Activity.vip_leg_step, Trades.vip_leg.
  set (a := Activity.str_or_empty (Chain.fromUserAccount t)).
  set (b := Activity.str_or_empty (Chain.toUserAccount t)).
  destruct (Holders.includes vip a || Holders.includes vip b) eqn:E.
  2: { split; [now split|lia]. }
  set (hit := if Holders.includes vip a then a else b).
  assert (Hhit : In hit vip).
  { unfold hit. destruct (Holders.includes vip a) eqn:Ea.
    - now apply includes_In.
    - cbn [orb] in E. now apply includes_In. }
  assert (Hprev : 0 <= match SMap.get hit hits with Some n => n | None => 0 end).
  { destruct (SMap.get hit hits) as [n|] eqn:G; [|lia].
    apply smap_get_In in G. rewrite Forall_forall in Hall.
    destruct (Hall _ G) as [_ H1]. cbn in H1. lia. }
  split; [split|].
  - now apply smap_set_keys_NoDup.
  - apply Forall_forall. intros p Hp. apply smap_set_In in Hp.
    destruct Hp as [->|Hp]; [cbn; split; [assumption|lia]|].
    rewrite Forall_forall in Hall. now apply Hall.
  - rewrite smap_set_zsum. lia.
Qed.

Lemma vip_legs_ok (vip : list string) (l : list Chain.transfer) (hits : list (string * Z)) :
  vip_hits_ok vip hits ->
  vip_hits_ok vip (fold_left (Activity.vip_leg_step vip) l hits)
  /\ Trades.zsum (map snd (fold_left (Activity.vip_leg_step vip) l hits))
     = Trades.zsum (map snd hits)
       + Z.of_nat (List.length (filter (Trades.vip_leg vip) l)).
Proof.
  revert hits. induction l as [|t l IH]; intros hits Hok; cbn [fold_left filter].
  - split; [assumption|cbn; lia].
  - destruct (vip_leg_step_ok vip hits t Hok) as [Hok' Hsum].
    destruct (IH _ Hok') as [Hok'' Hsum'].
    split; [assumption|]. rewrite Hsum', Hsum.
    destruct (Trades.vip_leg vip t); cbn [List.length]; lia.
Qed.

Lemma vip_txs_ok (since : Z) (vip : list string) (txs : list Chain.tx)
    (hits : list (string * Z)) :
  vip_hits_ok vip hits ->
  vip_hits_ok vip (fold_left (Activity.vip_tx_step since vip) txs hits)
  /\ Trades.zsum (map snd (fold_left (Activity.vip_tx_step since vip) txs hits))
     = Trades.zsum (map snd hits)
       + Z.of_nat (List.length
                     (filter (Trades.vip_leg vip)
                        (flat_map Activity.legs (filter (Trades.recent since) txs)))).
Proof.
  revert hits. induction txs as [|it txs IH]; intros hits Hok; cbn [fold_left filter].
  - split; [assumption|cbn; lia].
  - assert (Hstep : Activity.vip_tx_step since vip hits it
                    = if Trades.recent since it
                      then fold_left (Activity.vip_leg_step vip) (Activity.legs it) hits
                      else hits).
    { unfold Activity.vip_tx_step, Trades.recent.
      now destruct (_ <? since). }
    rewrite Hstep. destruct (Trades.recent since it).
    + destruct (vip_legs_ok vip (Activity.legs it) hits Hok) as [Hok' Hsum].
      destruct (IH _ Hok') as [Hok'' Hsum'].
      split; [assumption|]. rewrite Hsum', Hsum. cbn [flat_map].
      rewrite filter_app, length_app. lia.
    + now apply IH.
Qed.

Lemma scan_vip_pages (P : Chain.provider) (since : Z) (vip : list string)
    (addresses : list string) (hits : list (string * Z)) :
  Activity.scan_vip P since vip addresses hits
  = match Trades.fetch_pages P addresses with
    | Ok txs => Ok (fold_left (Activity.vip_tx_step since vip) txs hits)
    | Err e => Err e
    end.
Proof.
  revert hits. induction addresses as [|addr rest IH]; intros hits;
    cbn [Activity.scan_vip Trades.fetch_pages].
  - reflexivity.
  - destruct (Chain.heliusGET_history P addr) as [arr|]; cbn [bind]; [|reflexivity].
    rewrite IH. destruct (Trades.fetch_pages P rest); cbn [bind]; [|reflexivity].
    now rewrite fold_left_app.
Qed.

(** X19: the hit list of [vipWalletsPresence] names each address once, only
    trimmed non-empty VIP addresses, each with at least one hit; vip_count is
    its length, and the hits add up to the number of transfer legs of the
    trailing day with a VIP on either side: every such leg is one hit. *)
Theorem vip_hits_invariants (P : Chain.provider) (now : Z)
    (vipAddresses addressesToScan : list string) (txs : list Chain.tx) :
  Trades.fetch_pages P addressesToScan = Ok txs ->
  exists r,
    Activity.vipWalletsPresence P now vipAddresses addressesToScan = Ok r
    /\ NoDup (map fst (Activity.vip_hits r))
    /\ Forall (fun p => In (fst p) (map Activity.trim vipAddresses)
                        /\ fst p <> ""%string /\ 1 <= snd p)
         (Activity.vip_hits r)
    /\ Activity.vip_count r = Z.of_nat (List.length (Activity.vip_hits r))
    /\ Trades.zsum (map snd (Activity.vip_hits r))
       = Z.of_nat (List.length
                     (filter (Trades.vip_leg (Activity.vip_set vipAddresses))
                        (flat_map Activity.legs
                           (filter (Trades.recent (now - 86400)) txs)))).
Proof.
  intros Hp. unfold Activity.vipWalletsPresence. cbv zeta.
  rewrite scan_vip_pages, Hp. cbn [bind].
  eexists. split; [reflexivity|]. cbn [Activity.vip_hits Activity.vip_count].
  destruct (vip_txs_ok (now - 86400) (Activity.vip_set vipAddresses) txs [])
    as [[Hnd Hall] Hsum].
  { split; constructor. }
  repeat split; try assumption.
  - eapply Forall_impl; [|exact Hall]. cbn. intros p [Hin Hone].
    unfold Activity.vip_set in Hin. apply filter_In in Hin. destruct Hin as [Hin Hne].
    repeat split; try assumption.
    intros E. rewrite E in Hne. discriminate.
Qed.

Lemma vip_hits_invariants_witness :
  exists r,
    Activity.vipWalletsPresence Samples.busy_history Fixtures.NOW
      [(Samples.NBSP ++ Fixtures.ALICE)%string; Fixtures.BOB] [Fixtures.POOL] = Ok r
    /\ NoDup (map fst (Activity.vip_hits r))
    /\ Activity.vip_count r = Z.of_nat (List.length (Activity.vip_hits r))
    /\ Trades.zsum (map snd (Activity.vip_hits r)) = 2.
Proof.
  destruct (vip_hits_invariants Samples.busy_history Fixtures.NOW
              [(Samples.NBSP ++ Fixtures.ALICE)%string; Fixtures.BOB] [Fixtures.POOL] Samples.busy_page eq_refl)
    as (r & Hrun & Hnd & _ & Hcount & Hsum).
  exists r. split; [exact Hrun|]. split; [exact Hnd|]. split; [exact Hcount|].
  rewrite Hsum. reflexivity.
Defined.


(** ** First-wave buyers *)











(** ** Token age *)

Lemma block_time_of_some (it : Chain.tx) (ts : Z) :
  Chain.blockTime it = Some ts -> ts <> 0 -> Trades.block_time_of (Some it) = Some ts.
Proof.
  intros H Hz. unfold Trades.block_time_of. rewrite H.
  apply Z.eqb_neq in Hz. now rewrite Hz.
Qed.

Lemma untimed_block_time (it : Chain.tx) :
  untimed it -> Trades.block_time_of (Some it) = None.
Proof. intros [H|H]; unfold Trades.block_time_of; now rewrite H. Qed.

Lemma last_of_records (arr : list Chain.tx) (d : Chain.tx) :
  arr <> [] -> last (map Some arr) None = Some (last arr d).
Proof.
  induction arr as [|x [|y arr] IH]; intros Hne; [congruence|reflexivity|].
  change (last (map Some (y :: arr)) None = Some (last (y :: arr) d)).
  apply IH. discriminate.
Qed.

(* An older block time is a greater age. *)
Lemma age_days_antitone (nowMs t t' : Z) :
  t <= t' -> (age_days nowMs t' <= age_days nowMs t)%Q.
Proof.
  intros H. unfold age_days. rewrite Zle_Qle in H.
  set (a := (inject_Z nowMs / inject_Z 1000)%Q). clearbody a.
  apply Qmult_le_compat_r; [lra|].
  apply Qinv_le_0_compat. apply Qle_bool_iff. reflexivity.
Qed.

Lemma sorted_init_last {B : Type} (R : B -> B -> Prop) (init : list B) (x : B) :
  StronglySorted R (init ++ [x]) -> Forall (fun y => R y x) init.
Proof.
  induction init as [|y init IH]; cbn [app]; intros H; [constructor|].
  apply StronglySorted_inv in H. destruct H as [Hs Hall]. constructor.
  - rewrite Forall_forall in Hall. apply Hall. apply in_or_app. right. now left.
  - now apply IH.
Qed.

(** X21: [tokenAgeDays] looks at the last record of the page and, when that
    one carries no block time, at the first.  On a page that runs from the
    most recent record to the oldest: when the last record carries a block
    time, the age reported is the age of that record and the greatest age of
    the page; when it carries none but the first record does, the age
    reported is the age of the first record, the smallest age of the page;
    and when neither carries one the answer is null, whatever the records in
    between hold. *)
Theorem token_age_of_ordered_page (P : Chain.provider) (nowMs : Z) (address : string)
    (arr : list Chain.tx) :
  Chain.heliusGET_history P address = Ok arr ->
  (newest_first arr ->
   (forall init lst ts,
       arr = init ++ [lst] -> Chain.blockTime lst = Some ts -> ts <> 0 ->
       exists days,
         Trades.tokenAgeDays P nowMs address = Ok (Some days)
         /\ (days == age_days nowMs ts)%Q
         /\ forall it t, In it arr -> Chain.blockTime it = Some t ->
              (age_days nowMs t <= days)%Q)
   /\ (forall fst0 mid lst t0,
         arr = fst0 :: mid ++ [lst] -> untimed lst ->
         Chain.blockTime fst0 = Some t0 -> t0 <> 0 ->
         exists days,
           Trades.tokenAgeDays P nowMs address = Ok (Some days)
           /\ (days == age_days nowMs t0)%Q
           /\ forall it t, In it arr -> Chain.blockTime it = Some t ->
                (days <= age_days nowMs t)%Q))
  /\ (arr = [] -> Trades.tokenAgeDays P nowMs address = Ok None)
  /\ (forall fst0 rest,
        arr = fst0 :: rest -> untimed fst0 -> untimed (last arr fst0) ->
        Trades.tokenAgeDays P nowMs address = Ok None).
Proof.
  intros Hp. unfold Trades.tokenAgeDays. rewrite Hp. cbn [bind].
  unfold Trades.tokenAgeDays_of, Trades.oldest_of.
  split; [intros Hsorted; split|split].
  - intros init lst ts -> Hts Hnz.
    rewrite map_app. cbn [map]. rewrite last_last.
    rewrite (block_time_of_some _ _ Hts Hnz).
    eexists. split; [reflexivity|]. split; [reflexivity|].
    intros it t Hin Ht. fold (age_days nowMs ts). apply age_days_antitone.
    apply in_app_or in Hin. destruct Hin as [Hin|[<-|[]]].
    + pose proof (sorted_init_last _ _ _ Hsorted) as Hall.
      rewrite Forall_forall in Hall. exact (Hall it Hin t ts Ht Hts).
    + rewrite Hts in Ht. injection Ht as <-. lia.
  - intros fst0 mid lst t0 -> Hun Ht0 Hnz.
    rewrite app_comm_cons, map_app. cbn [map]. rewrite last_last.
    rewrite (untimed_block_time _ Hun). cbn [hd_error app].
    rewrite (block_time_of_some _ _ Ht0 Hnz).
    eexists. split; [reflexivity|]. split; [reflexivity|].
    intros it t Hin Ht. fold (age_days nowMs t0). apply age_days_antitone.
    destruct Hin as [<-|Hin].
    + rewrite Ht0 in Ht. injection Ht as <-. lia.
    + apply StronglySorted_inv in Hsorted. destruct Hsorted as [_ Hall].
      rewrite Forall_forall in Hall. exact (Hall it Hin t0 t Ht0 Ht).
  - intros ->. reflexivity.
  - intros fst0 rest -> Hf Hl.
    rewrite (last_of_records _ fst0) by discriminate.
    rewrite (untimed_block_time _ Hl). cbn [hd_error].
    now rewrite (untimed_block_time _ Hf).
Qed.

Lemma token_age_of_ordered_page_witness :
  (exists days,
      Trades.tokenAgeDays Samples.busy_history (Fixtures.NOW * 1000) Fixtures.POOL
      = Ok (Some days)
      /\ (days == 2)%Q)
  /\ (exists days,
        Trades.tokenAgeDays Samples.untimed_history (Fixtures.NOW * 1000) Fixtures.POOL
        = Ok (Some days)
        /\ (days == 1 / 1440)%Q)
  /\ Trades.tokenAgeDays Fixtures.pool_history (Fixtures.NOW * 1000) Fixtures.ALICE = Ok None.
Proof.
  assert (Hsort : forall a b c : Chain.tx,
             (forall ta tb, Chain.blockTime a = Some ta -> Chain.blockTime b = Some tb -> tb <= ta) ->
             (forall ta tc, Chain.blockTime a = Some ta -> Chain.blockTime c = Some tc -> tc <= ta) ->
             (forall tb tc, Chain.blockTime b = Some tb -> Chain.blockTime c = Some tc -> tc <= tb) ->
             newest_first [a; b; c]).
  { intros a b c Hab Hac Hbc. repeat constructor; assumption. }
  split; [|split].
  - destruct (token_age_of_ordered_page Samples.busy_history (Fixtures.NOW * 1000)
                Fixtures.POOL Samples.busy_page eq_refl) as [Hs _].
    destruct Hs as [Hlast _].
    { apply Hsort; intros ta tb Ha Hb; injection Ha as <-; injection Hb as <-;
        unfold Fixtures.NOW; lia. }
    destruct (Hlast [Fixtures.recent_swap; Fixtures.vip_to_vip] Samples.old_swap
                (Fixtures.NOW - 172800) eq_refl eq_refl) as (days & Hrun & Hd & _).
    { unfold Fixtures.NOW. lia. }
    exists days. split; [exact Hrun|]. rewrite Hd. reflexivity.
  - destruct (token_age_of_ordered_page Samples.untimed_history (Fixtures.NOW * 1000)
                Fixtures.POOL Samples.untimed_tail eq_refl) as [Hs _].
    destruct Hs as [_ Hfirst].
    { apply Hsort; intros ta tb Ha Hb; try discriminate;
        injection Ha as <-; injection Hb as <-; unfold Fixtures.NOW; lia. }
    destruct (Hfirst Fixtures.recent_swap [Samples.old_swap]
                {| Chain.blockTime := None; Chain.tokenTransfers := None |}
                (Fixtures.NOW - 60) eq_refl (or_introl eq_refl) eq_refl)
      as (days & Hrun & Hd & _).
    { unfold Fixtures.NOW. lia. }
    exists days. split; [exact Hrun|]. rewrite Hd. reflexivity.
  - destruct (token_age_of_ordered_page Fixtures.pool_history (Fixtures.NOW * 1000)
                Fixtures.ALICE [] eq_refl) as (_ & Hnil & _).
    now apply Hnil.
Defined.


(** ** RiskScorer: bounds *)

Lemma score_as_sum (i : Scorer.inputs) :
  let w := Scorer.weights_of i in
  (Scorer.score (Scorer.scoreToken i)
   == (if Scorer.lpCount_ok i then 10 * Scorer.w_lpCount w else 0)
      + (if Scorer.lpLocked_ok i then 8 * Scorer.w_lpLocked w else 0)
      + (if Scorer.top1_ok i then 6 * Scorer.w_holdersDist w else 0)
      + (if Scorer.top10_ok i then 6 * Scorer.w_holdersDist w else 0)
      + (if Scorer.traders_ok i then 5 * Scorer.w_activity w else 0)
      + (if Scorer.vip_ok i then 4 * Scorer.w_vip w else 0)
      + (if Scorer.revival_ok i then 3 * Scorer.w_revival w else 0)
      + (if Scorer.age_ok i then 2 * Scorer.w_age w else 0)
      + (if Scorer.fdvToMc_ok i then 4 * Scorer.w_fdvToMc w else 0))%Q.
Proof.
  unfold Scorer.scoreToken. cbv zeta.
  rewrite !bonus_score, !threshold_score. cbn [Scorer.score]. ring.
Qed.

Lemma reasons_as_list (i : Scorer.inputs) :
  Scorer.reasons (Scorer.scoreToken i)
  = (if Scorer.lpCount_ok i then [] else ["LP providers below threshold"%string])
    ++ (if Scorer.lpLocked_ok i then [] else ["LP locked pct low"%string])
    ++ (if Scorer.top1_ok i then [] else ["Top1 concentration high"%string])
    ++ (if Scorer.top10_ok i then [] else ["Top10 concentration high"%string])
    ++ (if Scorer.traders_ok i then [] else ["Low traders 24h"%string]).
Proof.
  unfold Scorer.scoreToken. cbv zeta.
  rewrite !bonus_reasons, !threshold_reasons. cbn [Scorer.reasons app].
  now rewrite <- !app_assoc.
Qed.

(** X22: with non-negative weights no criterion ever lowers the score: it
    lies between 0 and the sum of all base points times weights, and a token
    that meets all nine criteria gets exactly that sum. *)
Theorem score_is_bounded (i : Scorer.inputs) :
  nonneg_weights (Scorer.weights_of i) ->
  (0 <= Scorer.score (Scorer.scoreToken i))%Q
  /\ (Scorer.score (Scorer.scoreToken i) <= full_score (Scorer.weights_of i))%Q
  /\ (Scorer.lpCount_ok i = true -> Scorer.lpLocked_ok i = true ->
      Scorer.top1_ok i = true -> Scorer.top10_ok i = true ->
      Scorer.traders_ok i = true -> Scorer.vip_ok i = true ->
      Scorer.revival_ok i = true -> Scorer.age_ok i = true ->
      Scorer.fdvToMc_ok i = true ->
      (Scorer.score (Scorer.scoreToken i) == full_score (Scorer.weights_of i))%Q
      /\ Scorer.reasons (Scorer.scoreToken i) = []).
Proof.
  intros (H1 & H2 & H3 & H4 & H5 & H6 & H7 & H8).
  pose proof (score_as_sum i) as Hs. cbv zeta in Hs. unfold full_score.
  split; [|split].
  - rewrite Hs.
    destruct (Scorer.lpCount_ok i), (Scorer.lpLocked_ok i), (Scorer.top1_ok i),
      (Scorer.top10_ok i), (Scorer.traders_ok i), (Scorer.vip_ok i),
      (Scorer.revival_ok i), (Scorer.age_ok i), (Scorer.fdvToMc_ok i); lra.
  - rewrite Hs.
    destruct (Scorer.lpCount_ok i), (Scorer.lpLocked_ok i), (Scorer.top1_ok i),
      (Scorer.top10_ok i), (Scorer.traders_ok i), (Scorer.vip_ok i),
      (Scorer.revival_ok i), (Scorer.age_ok i), (Scorer.fdvToMc_ok i); lra.
  - intros E1 E2 E3 E4 E5 E6 E7 E8 E9. rewrite reasons_as_list, Hs.
    rewrite E1, E2, E3, E4, E5, E6, E7, E8, E9. split; [ring|reflexivity].
Qed.

Lemma score_is_bounded_witness :
  (0 <= Scorer.score (Scorer.scoreToken Fixtures.healthy_token))%Q
  /\ (Scorer.score (Scorer.scoreToken Fixtures.healthy_token) <= 78)%Q
  /\ (Scorer.score (Scorer.scoreToken Fixtures.perfect_token) == 78)%Q.
Proof.
  assert (Hw : nonneg_weights Scorer.default_weights) by (repeat split; discriminate).
  destruct (score_is_bounded Fixtures.healthy_token Hw) as (H0 & H1 & _).
  destruct (score_is_bounded Fixtures.perfect_token Hw) as (_ & _ & H2).
  split; [exact H0|]. split.
  - exact H1.
  - apply H2; reflexivity.
Defined.


(** X23: the reasons do not depend on the weights or on the bonus criteria:
    there are at most five, none exactly when the five thresholds are met,
    and one reason per unmet threshold. *)
Theorem reasons_track_thresholds (i : Scorer.inputs) :
  let unmet := List.length
                 (filter negb [Scorer.lpCount_ok i; Scorer.lpLocked_ok i; Scorer.top1_ok i;
                               Scorer.top10_ok i; Scorer.traders_ok i]) in
  List.length (Scorer.reasons (Scorer.scoreToken i)) = unmet
  /\ (unmet <= 5)%nat
  /\ (Scorer.reasons (Scorer.scoreToken i) = []
      <-> Scorer.lpCount_ok i = true /\ Scorer.lpLocked_ok i = true
          /\ Scorer.top1_ok i = true /\ Scorer.top10_ok i = true
          /\ Scorer.traders_ok i = true).
Proof.
  cbv zeta. rewrite reasons_as_list.
  destruct (Scorer.lpCount_ok i), (Scorer.lpLocked_ok i), (Scorer.top1_ok i),
    (Scorer.top10_ok i), (Scorer.traders_ok i); cbn;
    (split; [reflexivity|split; [lia|]]);
    (split; [intros H; try discriminate H; repeat split
            |intros (A & B & C & D & E); try discriminate; reflexivity]).
Qed.

(** ** FDV / market-cap helper: the ratio *)

(** X24: for a positive price whose product with the total supply is in the
    range of a double, and a circulating supply between 0 and the total
    supply, the market cap is at most the FDV and a ratio that is reported is
    at least 1; with no circulating supply given the market cap is the FDV
    itself and a ratio that is reported is 1. *)
Theorem fdv_ratio_at_least_one (price totalSupply : Q) (circ : option Q) :
  (0 < price)%Q -> (0 <= totalSupply)%Q ->
  (price * totalSupply <= inject_Z (2 ^ 1023))%Q ->
  let r := Metrics.fdvToMcap price totalSupply circ in
  (forall c, circ = Some c -> (0 <= c)%Q -> (c <= totalSupply)%Q ->
     (Metrics.marketcap_usd r <= Metrics.fdv_usd r)%Q
     /\ forall x, Metrics.fdv_to_mcap r = Some x -> (1 <= x)%Q)
  /\ (circ = None ->
      Metrics.marketcap_usd r = Metrics.fdv_usd r
      /\ forall x, Metrics.fdv_to_mcap r = Some x -> (x == 1)%Q).
Proof.
  intros Hp Ht _ r. unfold r, Metrics.fdvToMcap.
  cbn [Metrics.marketcap_usd Metrics.fdv_usd Metrics.fdv_to_mcap]. split.
  - intros c -> Hc Hle.
    assert (Hmc : (price * c <= price * totalSupply)%Q).
    { rewrite !(Qmult_comm price). apply Qmult_le_compat_r; lra. }
    split; [exact Hmc|]. intros x Hx.
    destruct (truthy (price * c)) eqn:E; [|discriminate].
    injection Hx as <-. apply truthy_true_iff in E.
    assert (H0 : (0 <= price * c)%Q) by (apply Qmult_le_0_compat; lra).
    apply Qle_shift_div_l; [|lra].
    destruct (Qlt_le_dec 0 (price * c)) as [|Hneg]; [assumption|].
    exfalso. apply E. lra.
  - intros ->. split; [reflexivity|]. intros x Hx.
    destruct (truthy (price * totalSupply)) eqn:E; [|discriminate].
    injection Hx as <-. apply truthy_true_iff in E.
    unfold Qdiv. now apply Qmult_inv_r.
Qed.

Lemma fdv_ratio_at_least_one_witness :
  (forall x, Metrics.fdv_to_mcap (Metrics.fdvToMcap (1 # 10) 3 (Some 1%Q)) = Some x -> (1 <= x)%Q)
  /\ (forall x, Metrics.fdv_to_mcap (Metrics.fdvToMcap (1 # 10) 3 None) = Some x -> (x == 1)%Q).
Proof.
  assert (Hb : ((1 # 10) * 3 <= inject_Z (2 ^ 1023))%Q).
  { apply Qle_bool_iff. vm_compute. reflexivity. }
  split.
  - apply (proj1 (fdv_ratio_at_least_one (1 # 10) 3 (Some 1%Q)
                    ltac:(reflexivity) ltac:(discriminate) Hb) 1%Q eq_refl);
      discriminate.
  - apply (proj2 (fdv_ratio_at_least_one (1 # 10) 3 None
                    ltac:(reflexivity) ltac:(discriminate) Hb) eq_refl).
Defined.


(** ** Dev link: trimmed creators against an untrimmed address *)

Section Stripping.
Variable p1 : ascii -> bool.
Variable p2 : ascii -> ascii -> bool.
Variable p3 : ascii -> ascii -> ascii -> bool.

(* What is left starts with no recognised code point, and is a suffix. *)
Lemma drop_by_spec (n : nat) :
  forall l, (List.length l <= n)%nat ->
    headed p1 p2 p3 (Activity.drop_by p1 p2 p3 l)
    /\ exists p, l = p ++ Activity.drop_by p1 p2 p3 l.
Proof.
  induction n as [|n IH]; intros l Hl.
  - destruct l; [|cbn in Hl; lia]. split; [exact I|now exists []].
  - destruct l as [|c1 l1]; [split; [exact I|now exists []]|].
    cbn [List.length] in Hl. cbn [Activity.drop_by].
    destruct (p1 c1) eqn:E1.
    { destruct (IH l1) as [Hh [p Hp]]; [lia|].
      split; [exact Hh|]. exists (c1 :: p). cbn [app]. now f_equal. }
    destruct l1 as [|c2 l2]; [split; [cbn; auto|now exists []]|].
    cbn [List.length] in Hl.
    destruct (p2 c1 c2) eqn:E2.
    { destruct (IH l2) as [Hh [p Hp]]; [lia|].
      split; [exact Hh|]. exists (c1 :: c2 :: p). cbn [app]. now do 2 f_equal. }
    destruct l2 as [|c3 l3]; [split; [cbn; auto|now exists []]|].
    cbn [List.length] in Hl.
    destruct (p3 c1 c2 c3) eqn:E3.
    { destruct (IH l3) as [Hh [p Hp]]; [lia|].
      split; [exact Hh|]. exists (c1 :: c2 :: c3 :: p). cbn [app]. now do 3 f_equal. }
    split; [cbn; auto|now exists []].
Qed.

Lemma drop_by_headed (l : list ascii) : headed p1 p2 p3 (Activity.drop_by p1 p2 p3 l).
Proof. apply (drop_by_spec (List.length l)). lia. Qed.

Lemma drop_by_suffix (l : list ascii) : exists p, l = p ++ Activity.drop_by p1 p2 p3 l.
Proof. apply (drop_by_spec (List.length l)). lia. Qed.

Lemma headed_fixed (l : list ascii) :
  headed p1 p2 p3 l -> Activity.drop_by p1 p2 p3 l = l.
Proof.
  destruct l as [|c1 [|c2 [|c3 l]]]; cbn [headed Activity.drop_by].
  - reflexivity.
  - now intros [-> _].
  - now intros [-> [-> _]].
  - now intros [-> [-> ->]].
Qed.

Lemma headed_prefix (l1 l2 : list ascii) :
  headed p1 p2 p3 (l1 ++ l2) -> headed p1 p2 p3 l1.
Proof.
  destruct l1 as [|c1 [|c2 [|c3 l1]]]; cbn [headed app].
  - auto.
  - intros [H _]. auto.
  - intros [H1 [H2 _]]. auto.
  - auto.
Qed.

End Stripping.

Lemma trim_twice (s : string) : Activity.trim (Activity.trim s) = Activity.trim s.
Proof.
  unfold Activity.trim. rewrite list_ascii_of_string_of_list_ascii.
  set (d := Activity.drop_ws (list_ascii_of_string s)).
  set (l' := rev (Activity.drop_ws_rev (rev d))).
  assert (H1 : Activity.drop_ws l' = l').
  { apply headed_fixed.
    destruct (drop_by_suffix Activity.is_ws (fun c2 c1 => Activity.is_ws2 c1 c2)
                (fun c3 c2 c1 => Activity.is_ws3 c1 c2 c3) (rev d)) as [p Hp].
    fold (Activity.drop_ws_rev (rev d)) in Hp.
    assert (Hd : d = l' ++ rev p).
    { unfold l'. rewrite <- rev_app_distr, <- Hp. now rewrite rev_involutive. }
    apply (headed_prefix _ _ _ _ (rev p)). rewrite <- Hd. apply drop_by_headed. }
  rewrite H1. unfold l' at 1. rewrite rev_involutive.
  unfold Activity.drop_ws_rev at 1. rewrite headed_fixed by apply drop_by_headed.
  reflexivity.
Qed.

(* A creator padded with no-break spaces (U+00A0) and an ideographic space
   (U+3000) is trimmed like one padded with blanks. *)
Example trim_strips_unicode_space :
  Activity.trim (String (ascii_of_nat 194) (String (ascii_of_nat 160)
                   (" dev111" ++ String (ascii_of_nat 227) (String (ascii_of_nat 128)
                                   (String (ascii_of_nat 128) EmptyString)))))
  = "dev111"%string.
Proof. reflexivity. Qed.

(** X25: [devLinkToSuccess] trims the known creators but not the dev
    address: it links exactly when the address equals a trimmed creator, so
    an address with leading or trailing white space never links, not even to
    itself. *)
Theorem dev_link_compares_trimmed_creators (devAddress : string)
    (knownCreators : list string) :
  (fst (Dev.devLinkToSuccess devAddress knownCreators) = true
   <-> exists c, In c knownCreators /\ Activity.trim c = devAddress)
  /\ (Activity.trim devAddress <> devAddress ->
      fst (Dev.devLinkToSuccess devAddress (devAddress :: knownCreators)) = false).
Proof.
  unfold Dev.devLinkToSuccess. cbn [fst]. split.
  - rewrite includes_In, in_map_iff. split; intros (c & H1 & H2); exists c; auto.
  - intros Hpad.
    destruct (Holders.includes (map Activity.trim (devAddress :: knownCreators)) devAddress)
      eqn:E; [|reflexivity].
    apply includes_In, in_map_iff in E. destruct E as (c & Hc & _).
    exfalso. apply Hpad. rewrite <- Hc. apply trim_twice.
Qed.

Lemma dev_link_compares_trimmed_creators_witness :
  fst (Dev.devLinkToSuccess " dev111 " [" dev111 "; "creator9"]%string) = false
  /\ fst (Dev.devLinkToSuccess "dev111" [(Samples.NBSP ++ "dev111")%string]) = true.
Proof.
  split.
  - apply (dev_link_compares_trimmed_creators " dev111 " ["creator9"%string]).
    vm_compute. discriminate.
  - apply (proj1 (dev_link_compares_trimmed_creators "dev111"
                    [(Samples.NBSP ++ "dev111")%string])).
    exists (Samples.NBSP ++ "dev111")%string. split; [now left|reflexivity].
Defined.

